(** * The live session controller of the MentraOS channel plugin

    A shallow embedding of [src/channel.ts]: the voice gate of
    [FaceClawAppServer.onSession] (stop command, speaking suppression, echo
    check, wake word and listen window), the inbound pipeline
    [processInboundMessage], and the spoken reply paths for transcriptions and
    photos.

    Conventions of the model.
    - A JavaScript string is the list of its code units.  Code units are taken
      in the range U+0000..U+00FF ([ascii]); on that range [toLowerCase],
      [trim] and the character classes below are exactly the ECMAScript ones.
    - [Date.now()] is a read of a clock oracle; every call to a collaborator
      ([runtime.*], [session.audio.speak]) has its outcome given by an
      environment, and the calls made are recorded in a trace.
    - One handler invocation is run to completion; interleavings with other
      events of the same session are outside the model. *)

From Stdlib Require Import Ascii String.
From Stdlib Require Import ZArith NArith Bool Arith Lia List.
Import ListNotations.

(* ================================================================== *)
(** * JavaScript strings *)
(* ================================================================== *)

Module JS.

Definition jsstring := list ascii.

(** String literal of the source. *)
Definition lit (s : string) : jsstring := list_ascii_of_string s.

Definition code (c : ascii) : N := N_of_ascii c.

Definition between (lo hi : N) (c : ascii) : bool :=
  (N.leb lo (code c) && N.leb (code c) hi)%bool.

(** [\s] and the set removed by [trim()]: TAB, LF, VT, FF, CR, SPACE, NBSP
    (the members of WhiteSpace and LineTerminator below U+0100). *)
Definition isSpace (c : ascii) : bool :=
  (between 9 13 c || N.eqb (code c) 32 || N.eqb (code c) 160)%bool.

Definition isLower (c : ascii) : bool := between 97 122 c.
Definition isUpper (c : ascii) : bool := between 65 90 c.
Definition isDigit (c : ascii) : bool := between 48 57 c.

(** [\w], which decides [\b]: [A-Za-z0-9_]. *)
Definition isWordChar (c : ascii) : bool :=
  (isLower c || isUpper c || isDigit c || N.eqb (code c) 95)%bool.

(** [String.prototype.toLowerCase] on one code unit: A-Z, and the Latin-1
    capitals U+00C0..U+00DE except the multiplication sign U+00D7. *)
Definition lowerChar (c : ascii) : ascii :=
  if (isUpper c || (between 192 222 c && negb (N.eqb (code c) 215)))%bool
  then ascii_of_N (code c + 32) else c.

Definition toLowerCase (s : jsstring) : jsstring := map lowerChar s.

(** Truthiness of a string: non-empty. *)
Definition truthy (s : jsstring) : bool :=
  match s with [] => false | _ :: _ => true end.

Fixpoint dropWhile (f : ascii -> bool) (s : jsstring) : jsstring :=
  match s with
  | [] => []
  | c :: s' => if f c then dropWhile f s' else s
  end.

Fixpoint takeWhile (f : ascii -> bool) (s : jsstring) : jsstring :=
  match s with
  | [] => []
  | c :: s' => if f c then c :: takeWhile f s' else []
  end.

(** [trimEnd]: a white-space unit is dropped when nothing but white space
    follows it. *)
Fixpoint trimEnd (s : jsstring) : jsstring :=
  match s with
  | [] => []
  | c :: s' =>
      match trimEnd s' with
      | [] => if isSpace c then [] else [c]
      | r => c :: r
      end
  end.

(** [String.prototype.trim]. *)
Definition trim (s : jsstring) : jsstring := trimEnd (dropWhile isSpace s).

Definition eqbs (a b : jsstring) : bool :=
  if list_eq_dec ascii_dec a b then true else false.

Fixpoint startsWith (s p : jsstring) {struct p} : bool :=
  match p, s with
  | [], _ => true
  | _ :: _, [] => false
  | x :: p', c :: s' => (Ascii.eqb x c && startsWith s' p')%bool
  end.

(** [String.prototype.includes]: the search string occurs at some index. *)
Fixpoint includes (s p : jsstring) : bool :=
  (startsWith s p ||
   match s with
   | [] => false
   | _ :: s' => includes s' p
   end)%bool.

(** [s.split(/\s+/)].  The pieces are the segments between the maximal
    white-space runs; a run at the start or at the end of [s] leaves an empty
    first or last piece, and the empty string splits into one empty piece.
    [inSep] tells that the previous unit belonged to a separator; the head of
    the result is the piece under construction. *)
Fixpoint splitGo (inSep : bool) (s : jsstring) : list jsstring :=
  match s with
  | [] => [[]]
  | c :: s' =>
      if isSpace c
      then (if inSep then splitGo true s' else [] :: splitGo true s')
      else match splitGo false s' with
           | p :: ps => (c :: p) :: ps
           | [] => [[c]]
           end
  end.

Definition splitWs (s : jsstring) : list jsstring := splitGo false s.

(** [parts.join(sep)]. *)
Fixpoint join (sep : jsstring) (parts : list jsstring) : jsstring :=
  match parts with
  | [] => []
  | [p] => p
  | p :: ps => p ++ sep ++ join sep ps
  end.

End JS.

(* ================================================================== *)
(** * Regular expressions, with the backtracking semantics of ECMAScript *)
(* ================================================================== *)

Module Regex.
Import JS.

(** The fragment the source uses.  A character class is its membership test,
    already closed under the [i] flag where the pattern carries it. *)
Inductive regex : Type :=
| Eps
| Cls (f : ascii -> bool)
| Seq (r1 r2 : regex)
| Alt (r1 r2 : regex)
| Star (r : regex)            (* greedy [*] *)
| Bol                         (* [^], no [m] flag *)
| Eol                         (* [$], no [m] flag *)
| WordB.                      (* [\b] *)

(** A position in the input: the units already consumed, last one first, and
    the units still ahead. *)
Definition pos := (jsstring * jsstring)%type.

Definition index (x : pos) : nat := length (fst x).

Definition wordBefore (x : pos) : bool :=
  match fst x with c :: _ => isWordChar c | [] => false end.

Definition wordAfter (x : pos) : bool :=
  match snd x with c :: _ => isWordChar c | [] => false end.

(** RepeatMatcher for a greedy [*]: one more iteration is tried first, and an
    iteration that consumes nothing is refused; then the continuation.  Every
    iteration consumes a unit, so [n] above the number of units ahead is never
    exhausted. *)
Fixpoint repeat (step : (pos -> option pos) -> pos -> option pos)
    (k : pos -> option pos) (n : nat) (x : pos) : option pos :=
  match n with
  | O => k x
  | S n' =>
      match step (fun y => if length (snd y) <? length (snd x)
                           then repeat step k n' y else None) x with
      | Some e => Some e
      | None => k x
      end
  end.

(** The matcher of [r] at position [x] with continuation [k]: the end
    position of the first successful path in priority order, if any. *)
Fixpoint m (r : regex) (k : pos -> option pos) (x : pos) : option pos :=
  match r with
  | Eps => k x
  | Cls f =>
      match snd x with
      | c :: rest => if f c then k (c :: fst x, rest) else None
      | [] => None
      end
  | Seq r1 r2 => m r1 (m r2 k) x
  | Alt r1 r2 =>
      match m r1 k x with
      | Some e => Some e
      | None => m r2 k x
      end
  | Star r1 => repeat (m r1) k (S (length (snd x))) x
  | Bol => match fst x with [] => k x | _ :: _ => None end
  | Eol => match snd x with [] => k x | _ :: _ => None end
  | WordB => if xorb (wordBefore x) (wordAfter x) then k x else None
  end.

(** [r+] and [r?] (both greedy). *)
Definition Plus (r : regex) : regex := Seq r (Star r).
Definition Opt (r : regex) : regex := Alt r Eps.

(** A pattern character under the [i] flag.  Canonicalize never sends a unit
    outside ASCII to an ASCII one, so a letter of the pattern is matched by
    its two ASCII cases only. *)
Definition upperAscii (c : ascii) : ascii :=
  if isLower c then ascii_of_N (code c - 32) else c.

Definition chI (p : ascii) : regex :=
  Cls (fun c => Ascii.eqb (upperAscii c) (upperAscii p)).

Definition ch (p : ascii) : regex := Cls (Ascii.eqb p).

Fixpoint wordI (w : jsstring) : regex :=
  match w with
  | [] => Eps
  | [c] => chI c
  | c :: w' => Seq (chI c) (wordI w')
  end.

Fixpoint alts (rs : list regex) : regex :=
  match rs with
  | [] => Eps
  | [r] => r
  | r :: rs' => Alt r (alts rs')
  end.

(** RegExpBuiltinExec without the [g] and [y] flags: the match is tried at
    index 0, 1, ... up to the length of the input; the result is the start
    and end index of the first one found. *)
Fixpoint execFrom (r : regex) (before ahead : jsstring) : option (nat * nat) :=
  match m r Some (before, ahead) with
  | Some e => Some (length before, index e)
  | None =>
      match ahead with
      | [] => None
      | c :: ahead' => execFrom r (c :: before) ahead'
      end
  end.

Definition exec (r : regex) (s : jsstring) : option (nat * nat) :=
  execFrom r [] s.

(** [r.test(s)]. *)
Definition test (r : regex) (s : jsstring) : bool :=
  match exec r s with Some _ => true | None => false end.

(** [s.replace(r, "")] for [r] without the [g] flag: the first match is cut
    out. *)
Definition removeFirst (r : regex) (s : jsstring) : jsstring :=
  match exec r s with
  | Some (i, j) => firstn i s ++ skipn j s
  | None => s
  end.

(** [s.replace(/[...]/g, "")] for a single character class: every unit of
    the class is cut out. *)
Definition removeAll (cls : ascii -> bool) (s : jsstring) : jsstring :=
  filter (fun c => negb (cls c)) s.

End Regex.

(* ================================================================== *)
(** * The session controller of [channel.ts] *)
(* ================================================================== *)

Module Channel.
Import JS Regex.

Local Open Scope Z_scope.

(** ** Listen state: the three closure variables of [onSession] *)

Record ListenState : Type := mkListen {
  listenWindowUntil : Z;
  speakingUntil : Z;
  recentTtsText : jsstring
}.

Definition initialListen : ListenState := mkListen 0 0 [].

Definition LISTEN_WINDOW_MS : Z := 30000.

(** ** Pure helpers of the closure *)

(** [Math.max(2000, text.split(/\s+/).length * 130 + 1000)]. *)
Definition estimateTtsDurationMs (text : jsstring) : Z :=
  Z.max 2000 (Z.of_nat (length (splitWs text)) * 130 + 1000).

(** The class [[a-z0-9\s]], whose complement [norm] deletes. *)
Definition normKeep (c : ascii) : bool :=
  (isLower c || isDigit c || isSpace c)%bool.

(** [s.toLowerCase().replace(/[^a-z0-9\s]/g, "").trim()]. *)
Definition norm (s : jsstring) : jsstring :=
  trim (removeAll (fun c => negb (normKeep c)) (toLowerCase s)).

(** [new Set(ttsWords).has(w)]. *)
Definition has (ttsWords : list jsstring) (w : jsstring) : bool :=
  existsb (eqbs w) ttsWords.

(** [isEcho].  The last comparison is [overlap / textWords.length > 0.6];
    both operands are counts below 2^53, for which the correctly rounded
    quotient exceeds the double nearest to 0.6 exactly when
    [5 * overlap > 3 * textWords.length]. *)
Definition isEcho (recentTts text : jsstring) : bool :=
  if negb (truthy recentTts) then false
  else
    let ttsNorm := norm recentTts in
    let textNorm := norm text in
    if (includes ttsNorm textNorm || includes textNorm ttsNorm)%bool then true
    else
      let ttsWords := splitWs ttsNorm in
      let textWords := splitWs textNorm in
      if Nat.eqb (length textWords) 0 then false
      else
        let overlap := length (filter (has ttsWords) textWords) in
        3 * Z.of_nat (length textWords) <? 5 * Z.of_nat overlap.

(** [/^stop\.?$/i]. *)
Definition stopPattern : regex :=
  Seq Bol (Seq (wordI (lit "stop")) (Seq (Opt (ch "."%char)) Eol)).

(** The class [[\s,.]] (also [[,.\s]]). *)
Definition isSepChar (c : ascii) : bool :=
  (isSpace c || Ascii.eqb c ","%char || Ascii.eqb c "."%char)%bool.

(** [/(?:^|[\s,.])\s*(?:hey|hay|a|eh)\s+(?:mentra|menta|mentor|mencia|mantra|menorah)\b/i]. *)
Definition wakePattern : regex :=
  Seq (Alt Bol (Cls isSepChar))
   (Seq (Star (Cls isSpace))
    (Seq (alts (map wordI [lit "hey"; lit "hay"; lit "a"; lit "eh"]))
     (Seq (Plus (Cls isSpace))
      (Seq (alts (map wordI [lit "mentra"; lit "menta"; lit "mentor";
                             lit "mencia"; lit "mantra"; lit "menorah"]))
           WordB)))).

(** [/^[,.\s]+/]. *)
Definition leadingSepPattern : regex := Seq Bol (Plus (Cls isSepChar)).

Definition defaultGreeting : jsstring := lit "Hey".

(** The text handed to the pipeline (lines 542-544):
    [hasWakeWord ? (raw.replace(wakePattern, "").replace(/^[,.\s]+/, "").trim() || "Hey") : raw]. *)
Definition extractCommand (raw : jsstring) : jsstring :=
  if test wakePattern raw
  then
    let t := trim (removeFirst leadingSepPattern (removeFirst wakePattern raw)) in
    if truthy t then t else defaultGreeting
  else raw.

(** ** Events, collaborators and effects *)

Record TranscriptionData : Type := mkTranscription {
  isFinal : bool;
  text : option jsstring          (* [data.text], read through [?.] *)
}.

Record PhotoTaken : Type := mkPhoto {
  photoData : list ascii;
  mimeType : option jsstring
}.

Record MediaRef : Type := mkMedia {
  mediaPath : jsstring;
  mediaType : jsstring
}.

(** What the reply dispatcher hands to [deliver]. *)
Record Payload : Type := mkPayload { payloadText : option jsstring }.

(** The callbacks the reply dispatcher invokes before it completes. *)
Inductive DispatchEvent : Type :=
| Deliver (p : Payload)
| DispatchError.

(** The calls into the plugin host that may throw or reject. *)
Inductive Step : Type :=
| LoadConfig
| SaveMediaBuffer
| ResolveAgentRoute
| ResolveStorePath
| ResolveEnvelopeFormatOptions
| FormatInboundEnvelope
| FinalizeInboundContext
| RecordInboundSession
| RecordSessionMetaFromInbound
| RecordActivity
| ResolveEffectiveMessagesConfig
| ResolveHumanDelayConfig
| DispatchReply.

Inductive Failure : Type :=
| StepFailed (s : Step)
| SpeakFailed.

(** The behaviour of the world around one handler invocation. *)
Record Env : Type := mkEnv {
  clock : nat -> Z;                 (* the k-th reading of [Date.now()] *)
  fails : Step -> bool;             (* the call throws, or its promise rejects *)
  recordErrorReported : bool;       (* [recordInboundSession] calls [onRecordError] *)
  agent : jsstring -> option MediaRef -> list DispatchEvent;
  savedPath : jsstring;             (* [saved.path] of [saveMediaBuffer] *)
  speakRejects : nat -> bool        (* the k-th [speak] of the invocation rejects *)
}.

Inductive LogLine : Type :=
| LogStop
| LogSuppressedTts
| LogSuppressedEcho
| LogNoWake
| LogTranscription (followUp : bool) (cmd : jsstring)
| LogSendingReply
| LogReplyDispatched
| LogPhoto
| ErrRecordingSession
| ErrReplyDispatch
| ErrProcessingTranscription (e : Failure)
| ErrSendingErrorTts (e : Failure)
| ErrProcessingPhoto (e : Failure)
| ErrSendingPhotoErrorTts (e : Failure).

Inductive Effect : Type :=
| EStopAudio
| ESpeak (txt : jsstring) (trackId : Z) (stopOtherAudio : bool)
| EUnhandledRejection (e : Failure)
| ECall (s : Step)
| EDispatch (body : jsstring) (media : option MediaRef)
| ELog (l : LogLine).

Record World : Type := mkWorld {
  listen : ListenState;
  ticks : nat;                      (* readings of the clock taken so far *)
  spoken : nat;                     (* [speak] calls made so far *)
  trace : list Effect               (* effects, oldest first *)
}.

Definition initialWorld : World := mkWorld initialListen 0 0 [].

(** ** State and exception monad of a handler *)

Inductive Res (A : Type) : Type :=
| Ok (a : A)
| Threw (e : Failure).
Arguments Ok {A} a.
Arguments Threw {A} e.

Definition M (A : Type) : Type := World -> Res A * World.

Definition ret {A} (a : A) : M A := fun w => (Ok a, w).

Definition bind {A B} (c : M A) (f : A -> M B) : M B :=
  fun w =>
    match c w with
    | (Ok a, w') => f a w'
    | (Threw e, w') => (Threw e, w')
    end.

Definition throw {A} (e : Failure) : M A := fun w => (Threw e, w).

(** [try { body } catch (e) { handler(e) }]. *)
Definition tryCatch {A} (body : M A) (handler : Failure -> M A) : M A :=
  fun w =>
    match body w with
    | (Ok a, w') => (Ok a, w')
    | (Threw e, w') => handler e w'
    end.

Notation "x <- c1 ;; c2" := (bind c1 (fun x => c2))
  (at level 61, c1 at next level, right associativity).
Notation "c1 ;; c2" := (bind c1 (fun _ => c2))
  (at level 61, right associativity).

Definition emit (e : Effect) : M unit :=
  fun w => (Ok tt, mkWorld (listen w) (ticks w) (spoken w) (trace w ++ [e])).

Definition log (l : LogLine) : M unit := emit (ELog l).

Definition getListen : M ListenState := fun w => (Ok (listen w), w).

Definition putListen (s : ListenState) : M unit :=
  fun w => (Ok tt, mkWorld s (ticks w) (spoken w) (trace w)).

Definition setListenWindowUntil (t : Z) : M unit :=
  s <- getListen ;; putListen (mkListen t (speakingUntil s) (recentTtsText s)).

Definition setSpeakingUntil (t : Z) : M unit :=
  s <- getListen ;; putListen (mkListen (listenWindowUntil s) t (recentTtsText s)).

Definition setRecentTtsText (t : jsstring) : M unit :=
  s <- getListen ;; putListen (mkListen (listenWindowUntil s) (speakingUntil s) t).

Section Handlers.

Variable env : Env.

(** [Date.now()]. *)
Definition now : M Z :=
  fun w => (Ok (clock env (ticks w)),
            mkWorld (listen w) (S (ticks w)) (spoken w) (trace w)).

(** A call into the plugin host. *)
Definition call (s : Step) : M unit :=
  emit (ECall s) ;;
  if fails env s then throw (StepFailed s) else ret tt.

(** [session.audio.speak(txt, { trackId, stopOtherAudio })], which returns a
    promise.  Awaited, a rejection is thrown at the [await].  Not awaited,
    the promise is dropped and the handler goes on; when that promise
    rejects, no handler is attached to it and no [catch] block sees it: the
    rejection leaves the callback as an unhandled rejection, which the
    trace records. *)
Definition speak (awaited : bool) (txt : jsstring) (trackId : Z)
    (stopOtherAudio : bool) : M unit :=
  fun w =>
    let w' := mkWorld (listen w) (ticks w) (S (spoken w))
                      (trace w ++ [ESpeak txt trackId stopOtherAudio]) in
    if awaited
    then (if speakRejects env (spoken w)
          then (Threw SpeakFailed, w') else (Ok tt, w'))
    else (if speakRejects env (spoken w)
          then (Ok tt,
                mkWorld (listen w) (ticks w) (S (spoken w))
                  (trace w ++ [ESpeak txt trackId stopOtherAudio;
                               EUnhandledRejection SpeakFailed]))
          else (Ok tt, w')).

(** [session.audio.stopAudio()]. *)
Definition stopAudio : M unit := emit EStopAudio.

(** ** The inbound pipeline: [processInboundMessage] *)

Definition newline : jsstring := [ascii_of_N 10].

(** The [deliver] callback, as a step on [collectedReply]:
    [const replyText = payload.text?.trim();
     if (replyText) collectedReply += (collectedReply ? "\n" : "") + replyText]. *)
Definition deliver (collectedReply : jsstring) (payload : Payload) : jsstring :=
  match payloadText payload with
  | None => collectedReply
  | Some t =>
      let replyText := trim t in
      if truthy replyText
      then collectedReply
             ++ ((if truthy collectedReply then newline else []) ++ replyText)
      else collectedReply
  end.

(** The dispatcher runs the callbacks in the order the agent produces them;
    [onError] only writes to the console. *)
Fixpoint runDispatcher (events : list DispatchEvent) (collectedReply : jsstring)
    : M jsstring :=
  match events with
  | [] => ret collectedReply
  | Deliver p :: rest => runDispatcher rest (deliver collectedReply p)
  | DispatchError :: rest => log ErrReplyDispatch ;; runDispatcher rest collectedReply
  end.

(** The media fields enter the context only when [mediaPath] is truthy. *)
Definition contextMedia (media : option MediaRef) : option MediaRef :=
  match media with
  | Some md => if truthy (mediaPath md) then Some md else None
  | None => None
  end.

(** [processInboundMessage], steps 1 to 9.  The result is
    [collectedReply || undefined]. *)
Definition processInboundMessage (body : jsstring) (media : option MediaRef)
    : M (option jsstring) :=
  call ResolveAgentRoute ;;
  call ResolveStorePath ;;
  call ResolveEnvelopeFormatOptions ;;
  _ <- now ;;
  call FormatInboundEnvelope ;;
  _ <- now ;;
  _ <- now ;;
  call FinalizeInboundContext ;;
  emit (ECall RecordInboundSession) ;;
  (if recordErrorReported env then log ErrRecordingSession else ret tt) ;;
  (if fails env RecordInboundSession
   then throw (StepFailed RecordInboundSession) else ret tt) ;;
  call RecordSessionMetaFromInbound ;;
  call RecordActivity ;;
  call ResolveEffectiveMessagesConfig ;;
  call ResolveHumanDelayConfig ;;
  emit (EDispatch body (contextMedia media)) ;;
  collectedReply <- runDispatcher (agent env body (contextMedia media)) [] ;;
  (if fails env DispatchReply then throw (StepFailed DispatchReply) else ret tt) ;;
  log LogReplyDispatched ;;
  ret (if truthy collectedReply then Some collectedReply else None).

(** ** The transcription handler *)

(** How the handler leaves its filter (lines 505-545): one constructor per
    [return], and [Accepted] when control reaches the [try] block. *)
Inductive GateDecision : Type :=
| Ignored
| Stopped
| SuppressedTts
| SuppressedEcho
| NoWakeWord
| Accepted (cmd : jsstring).

Definition voiceGate (data : TranscriptionData) : M GateDecision :=
  let trimmed := option_map trim (text data) in
  if (negb (isFinal data)
      || negb (match trimmed with Some t => truthy t | None => false end))%bool
  then ret Ignored
  else
    let raw := match trimmed with Some t => t | None => [] end in
    if test stopPattern raw
    then
      log LogStop ;;
      stopAudio ;;
      setListenWindowUntil 0 ;;
      setSpeakingUntil 0 ;;
      setRecentTtsText [] ;;
      ret Stopped
    else
      t1 <- now ;;
      s1 <- getListen ;;
      if t1 <? speakingUntil s1
      then log LogSuppressedTts ;; ret SuppressedTts
      else if isEcho (recentTtsText s1) raw
      then log LogSuppressedEcho ;; setRecentTtsText [] ;; ret SuppressedEcho
      else
        t2 <- now ;;
        s2 <- getListen ;;
        let inListenWindow := t2 <? listenWindowUntil s2 in
        let hasWakeWord := test wakePattern raw in
        if (negb hasWakeWord && negb inListenWindow)%bool
        then log LogNoWake ;; ret NoWakeWord
        else
          let cmd := extractCommand raw in
          log (LogTranscription (inListenWindow && negb hasWakeWord) cmd) ;;
          ret (Accepted cmd).

Definition ackText : jsstring := lit "Hmm".

Definition apologyText : jsstring :=
  lit "Sorry, I encountered an error processing your request.".

Definition photoApologyText : jsstring :=
  lit "Sorry, I couldn't analyze that photo.".

Definition photoBody : jsstring := lit "[Photo from smart glasses]".

(** The body of the [try] block for an accepted command (lines 547-575). *)
Definition replyToCommand (cmd : jsstring) : M unit :=
  speak false ackText 1 false ;;
  call LoadConfig ;;
  call LoadConfig ;;
  reply <- processInboundMessage cmd None ;;
  match reply with
  | Some r =>
      if truthy r
      then
        log LogSendingReply ;;
        setRecentTtsText r ;;
        t3 <- now ;;
        setSpeakingUntil (t3 + estimateTtsDurationMs r) ;;
        speak true r 2 true ;;
        t4 <- now ;;
        setListenWindowUntil (t4 + LISTEN_WINDOW_MS)
      else ret tt
  | None => ret tt
  end.

(** The [catch] of the transcription handler (lines 576-586). *)
Definition apologize (e : Failure) : M unit :=
  log (ErrProcessingTranscription e) ;;
  tryCatch (speak true apologyText 2 true)
           (fun e' => log (ErrSendingErrorTts e')).

Definition respond (cmd : jsstring) : M unit :=
  tryCatch (replyToCommand cmd) apologize.

(** The callback given to [onTranscriptionForLanguage]. *)
Definition onTranscription (data : TranscriptionData) : M unit :=
  d <- voiceGate data ;;
  match d with
  | Accepted cmd => respond cmd
  | _ => ret tt
  end.

(** ** The photo handler *)

(** The body of the [try] block (lines 596-621). *)
Definition replyToPhoto (data : PhotoTaken) : M unit :=
  let mime :=
    match mimeType data with
    | Some t => if truthy t then t else lit "image/jpeg"
    | None => lit "image/jpeg"
    end in
  call SaveMediaBuffer ;;
  call LoadConfig ;;
  call LoadConfig ;;
  reply <- processInboundMessage photoBody (Some (mkMedia (savedPath env) mime)) ;;
  match reply with
  | Some r => if truthy r then speak true r 2 true else ret tt
  | None => ret tt
  end.

Definition apologizePhoto (e : Failure) : M unit :=
  log (ErrProcessingPhoto e) ;;
  tryCatch (speak true photoApologyText 2 true)
           (fun e' => log (ErrSendingPhotoErrorTts e')).

(** The callback given to [onPhotoTaken]. *)
Definition onPhoto (data : PhotoTaken) : M unit :=
  log LogPhoto ;;
  tryCatch (replyToPhoto data) apologizePhoto.

End Handlers.

(** ** What the specification says, in its own words *)

(** A word is a maximal run of units that are not white space. *)
Fixpoint countWords (afterSpace : bool) (s : jsstring) : nat :=
  match s with
  | [] => O
  | c :: s' =>
      if isSpace c then countWords true s'
      else ((if afterSpace then 1 else 0) + countWords false s')%nat
  end.

Definition wordCount (s : jsstring) : nat := countWords true s.

(** [max(2000, wordCount(text) * 130 + 1000)]. *)
Definition estimateSpec (txt : jsstring) : Z :=
  Z.max 2000 (Z.of_nat (wordCount txt) * 130 + 1000).

(** A punctuation sign: a printable unit of ASCII that is neither a letter,
    nor a digit, nor the space. *)
Definition isPunctuation (c : ascii) : bool :=
  (between 33 47 c || between 58 64 c || between 91 96 c
   || between 123 126 c)%bool.

(** "Punctuation/space". *)
Definition isPunctOrSpace (c : ascii) : bool :=
  (isPunctuation c || isSpace c)%bool.

(** The text with the matched prefix and the punctuation and space that
    follow it removed, or the default greeting when nothing is left; the raw
    text when the wake pattern does not match. *)
Definition extractSpec (raw : jsstring) : jsstring :=
  match exec wakePattern raw with
  | Some (i, e) =>
      let rest := firstn i raw ++ dropWhile isPunctOrSpace (skipn e raw) in
      if truthy rest then rest else defaultGreeting
  | None => raw
  end.

(** A "stop" utterance as the specification words it: the word in any letter
    case, optionally with trailing punctuation. *)
Definition isStopUtteranceSpec (raw : jsstring) : bool :=
  (eqbs (toLowerCase (firstn 4 raw)) (lit "stop")
   && forallb isPunctuation (skipn 4 raw))%bool.

(** The stop commands of the code: "stop" and "stop." in any letter case. *)
Definition isStopCommand (raw : jsstring) : Prop :=
  map upperAscii raw = lit "STOP" \/ map upperAscii raw = lit "STOP.".

(** Normalisation as the specification words it: lower case, everything but
    letters, digits and white space stripped, and every run of white space
    collapsed (the words joined by single spaces). *)
Definition collapseWs (s : jsstring) : jsstring :=
  join (lit " ") (filter truthy (splitWs s)).

Definition normSpec (s : jsstring) : jsstring :=
  collapseWs (removeAll (fun c => negb (normKeep c)) (toLowerCase s)).

(** The echo rule as the specification words it: either normalised string
    contains the other, or more than 0.6 of the candidate words are words of
    the spoken text. *)
Definition isEchoSpec (recentTts candidate : jsstring) : bool :=
  let ttsNorm := normSpec recentTts in
  let textNorm := normSpec candidate in
  let textWords := filter truthy (splitWs textNorm) in
  let overlap := length (filter (has (splitWs ttsNorm)) textWords) in
  (includes ttsNorm textNorm || includes textNorm ttsNorm
   || (3 * Z.of_nat (length textWords) <? 5 * Z.of_nat overlap))%bool.

(** One string contains another. *)
Definition contains (s p : jsstring) : Prop :=
  exists a b, s = a ++ p ++ b.

(** The reply text of a chunk: the trimmed text of its payload. *)
Definition replyTextOf (p : Payload) : jsstring :=
  match payloadText p with Some t => trim t | None => [] end.

Definition deliveredPayloads (events : list DispatchEvent) : list Payload :=
  flat_map (fun ev => match ev with Deliver p => [p] | DispatchError => [] end)
           events.

(** Every non-empty chunk, in arrival order, joined by newlines. *)
Definition accumulated (events : list DispatchEvent) : jsstring :=
  join newline (filter truthy (map replyTextOf (deliveredPayloads events))).

(** ** The trace of a run of the pipeline in which no call fails *)

Definition collected (events : list DispatchEvent) : jsstring :=
  fold_left deliver (deliveredPayloads events) [].

Definition errorLogs (events : list DispatchEvent) : list Effect :=
  flat_map (fun ev => match ev with
                      | Deliver _ => []
                      | DispatchError => [ELog ErrReplyDispatch]
                      end) events.

Definition pipelineEffects (env : Env) (body : jsstring)
    (media : option MediaRef) : list Effect :=
  [ECall ResolveAgentRoute; ECall ResolveStorePath;
   ECall ResolveEnvelopeFormatOptions; ECall FormatInboundEnvelope;
   ECall FinalizeInboundContext; ECall RecordInboundSession]
  ++ (if recordErrorReported env then [ELog ErrRecordingSession] else [])
  ++ [ECall RecordSessionMetaFromInbound; ECall RecordActivity;
      ECall ResolveEffectiveMessagesConfig; ECall ResolveHumanDelayConfig;
      EDispatch body (contextMedia media)]
  ++ errorLogs (agent env body (contextMedia media))
  ++ [ELog LogReplyDispatched].

(** A console line, the one kind of effect that neither the device nor the
    agent observes. *)
Definition isLog (e : Effect) : bool :=
  match e with ELog _ => true | _ => false end.

(** A computation only appends to the trace. *)
Definition grows {A : Type} (c : M A) : Prop :=
  forall w, exists l, trace (snd (c w)) = trace w ++ l.

(** A computation leaves the listen state as it found it. *)
Definition keepsListen {A : Type} (c : M A) : Prop :=
  forall w, listen (snd (c w)) = listen w.

(** The ways the filter turns an event down; a stop command is obeyed, not
    turned down. *)
Definition isRejection (d : GateDecision) : bool :=
  match d with
  | Ignored | SuppressedTts | SuppressedEcho | NoWakeWord => true
  | Stopped | Accepted _ => false
  end.

(** ** Sample environments *)

Definition say (s : string) : DispatchEvent :=
  Deliver (mkPayload (Some (lit s))).

(** A host with the given clock, failing calls and agent output, whose device
    accepts every [speak]. *)
Definition sampleEnv (time : nat -> Z) (failing : Step -> bool)
    (events : list DispatchEvent) : Env :=
  mkEnv time failing false (fun _ _ => events) (lit "/tmp/photo.jpg")
        (fun _ => false).

Definition noFailure : Step -> bool := fun _ => false.

Definition Step_eq_dec (a b : Step) : {a = b} + {a <> b}.
Proof. decide equality. Defined.

(** A host in which exactly the call [s] fails. *)
Definition failingAt (s : Step) : Step -> bool :=
  fun s' => if Step_eq_dec s s' then true else false.

Definition heard (s : string) : TranscriptionData :=
  mkTranscription true (Some (lit s)).

(** A host in which no call fails and whose device rejects exactly the
    [k]-th [speak] (counted from 0). *)
Definition rejectingSpeak (k : nat) (time : nat -> Z)
    (events : list DispatchEvent) : Env :=
  mkEnv time noFailure false (fun _ _ => events) (lit "/tmp/photo.jpg")
        (Nat.eqb k).

End Channel.

(* ================================================================== *)
(** * A session as a sequence of events (lines 501-635) *)
(* ================================================================== *)

Module Session.
Import JS Channel.

(** What the device sends to the two callbacks that [onSession] subscribes. *)
Inductive Event : Type :=
| OnTranscription (data : TranscriptionData)
| OnPhotoTaken (data : PhotoTaken).

Definition deliverEvent (env : Env) (e : Event) : M unit :=
  match e with
  | OnTranscription data => onTranscription env data
  | OnPhotoTaken data => onPhoto env data
  end.

(** The events of a session, each handled to its end before the next one
    arrives.  The handlers are [async] callbacks: what one of them throws is
    not seen by the next. *)
Fixpoint runSession (env : Env) (events : list Event) (w : World) : World :=
  match events with
  | [] => w
  | e :: rest => runSession env rest (snd (deliverEvent env e w))
  end.

(** The two timers are within reach of the clock: at its next reading the
    listen window has at most [LISTEN_WINDOW_MS] left, and the suppression
    for speaking at most the estimated duration of the remembered reply. *)
Definition settled (env : Env) (w : World) : Prop :=
  (listenWindowUntil (listen w) <= clock env (ticks w) + LISTEN_WINDOW_MS)%Z
  /\ (speakingUntil (listen w)
      <= clock env (ticks w)
         + estimateTtsDurationMs (recentTtsText (listen w)))%Z.

(** A computation keeps the timers within reach of the clock. *)
Definition preserves {A : Type} (env : Env) (c : M A) : Prop :=
  forall w, settled env w -> settled env (snd (c w)).

(** A clock that ticks once a millisecond from the given time. *)
Definition tickingFrom (start : Z) : nat -> Z := fun k => (start + Z.of_nat k)%Z.

End Session.

(* ================================================================== *)
(** * Configuration and status adapters of [channel.ts] *)
(* ================================================================== *)

From Stdlib Require DecimalString.

Module Config.
Import JS.

(** The values a configuration field can hold.  Numbers are the integers
    (ports and timestamps); [NaN] and fractions do not occur. *)
Inductive JsVal : Type :=
| VUndefined
| VNull
| VBool (b : bool)
| VNum (n : Z)
| VStr (s : jsstring).

(** ToBoolean. *)
Definition truthyV (v : JsVal) : bool :=
  match v with
  | VUndefined | VNull => false
  | VBool b => b
  | VNum n => negb (Z.eqb n 0)
  | VStr s => truthy s
  end.

(** [a || b]. *)
Definition orElse (a b : JsVal) : JsVal := if truthyV a then a else b.

(** The object [cfg.channels.mentraos], by the four properties the code
    reads; a property that is absent reads as [undefined]. *)
Record MentraConfig : Type := mkMentraConfig {
  enabledField : JsVal;
  apiKeyField : JsVal;
  apiUrlField : JsVal;
  webhookPortField : JsVal
}.

(** The object [{}]. *)
Definition emptyObject : MentraConfig :=
  mkMentraConfig VUndefined VUndefined VUndefined VUndefined.

(** [cfg.channels]: the [mentraos] section and the names of the others. *)
Record ChannelsConfig : Type := mkChannels {
  mentraos : option MentraConfig;
  otherChannels : list jsstring
}.

Record OpenClawConfig : Type := mkConfig {
  channels : option ChannelsConfig
}.

Record AccountConfig : Type := mkAccountConfig {
  cfgEnabled : bool;
  cfgApiKey : JsVal;
  cfgApiUrl : JsVal;
  cfgWebhookPort : JsVal;
  dmPolicy : jsstring;
  allowFrom : list jsstring
}.

Record MentraOSResolvedAccount : Type := mkAccount {
  accountId : jsstring;
  enabled : bool;
  apiKey : JsVal;
  apiUrl : JsVal;
  webhookPort : JsVal;
  config : AccountConfig
}.

Definition defaultApiUrl : jsstring := lit "https://api.mentra.glass".
Definition defaultWebhookPort : Z := 3335.

(** One record for [ChannelAccountSnapshot], whose properties are all
    optional but the account id; [null] and [undefined] are both [None]. *)
Record Snapshot : Type := mkSnapshot {
  snapAccountId : jsstring;
  snapName : option jsstring;
  snapEnabled : option bool;
  snapConfigured : option bool;
  running : option bool;
  lastStartAt : option Z;
  lastStopAt : option Z;
  lastError : option jsstring;
  lastInboundAt : option Z;
  lastOutboundAt : option Z
}.

Inductive IssueLevel : Type := LevelError | LevelInfo.

Record StatusIssue : Type := mkIssue {
  issueChannel : jsstring;
  issueAccountId : jsstring;
  issueKind : jsstring;
  issueLevel : IssueLevel;
  issueMessage : jsstring;
  issueFix : jsstring
}.

(** [x ?? y] on an optional property. *)
Definition coalesce {A : Type} (x y : option A) : option A :=
  match x with Some _ => x | None => y end.

(** Truthiness of an optional boolean property. *)
Definition truthyB (b : option bool) : bool :=
  match b with Some true => true | _ => false end.

Section Adapters.

(** [DEFAULT_ACCOUNT_ID] of the plugin SDK. *)
Variable DEFAULT_ACCOUNT_ID : jsstring.

(** [mentraConfig?.field]. *)
Definition field (cfg : OpenClawConfig) (f : MentraConfig -> JsVal) : JsVal :=
  match channels cfg with
  | Some ch => match mentraos ch with Some mc => f mc | None => VUndefined end
  | None => VUndefined
  end.

(** [resolveMentraOSAccount] (lines 66-91). *)
Definition resolveMentraOSAccount (cfg : OpenClawConfig) : MentraOSResolvedAccount :=
  let isEnabled :=
    match field cfg enabledField with VBool true => true | _ => false end in
  let key := field cfg apiKeyField in
  let url := orElse (field cfg apiUrlField) (VStr defaultApiUrl) in
  let port := orElse (field cfg webhookPortField) (VNum defaultWebhookPort) in
  mkAccount DEFAULT_ACCOUNT_ID isEnabled key url port
    (mkAccountConfig isEnabled key url port (lit "open") [lit "*"]).

(** [mentraosConfig.setAccountEnabled] (lines 97-102). *)
Definition setAccountEnabled (cfg : OpenClawConfig) (value : bool) : OpenClawConfig :=
  let ch := match channels cfg with
            | Some ch => ch
            | None => mkChannels None []
            end in
  let mc := match mentraos ch with
            | Some mc => mc
            | None => emptyObject
            end in
  mkConfig
    (Some (mkChannels
             (Some (mkMentraConfig (VBool value) (apiKeyField mc)
                      (apiUrlField mc) (webhookPortField mc)))
             (otherChannels ch))).

(** [mentraosConfig.deleteAccount] (lines 103-108). *)
Definition deleteAccount (cfg : OpenClawConfig) : OpenClawConfig :=
  match channels cfg with
  | Some ch =>
      match mentraos ch with
      | Some _ => mkConfig (Some (mkChannels None (otherChannels ch)))
      | None => cfg
      end
  | None => cfg
  end.

(** [mentraosConfig.isConfigured]: [Boolean(account.enabled && account.apiKey)]. *)
Definition isConfigured (account : MentraOSResolvedAccount) : bool :=
  if enabled account then truthyV (apiKey account) else false.

(** [mentraosConfig.describeAccount]. *)
Definition describeAccount (account : MentraOSResolvedAccount) : Snapshot :=
  mkSnapshot (accountId account) (Some (lit "MentraOS"))
    (Some (enabled account)) (Some (truthyV (apiKey account)))
    None None None None None None.

Definition configIssue : StatusIssue :=
  mkIssue (lit "mentraos") DEFAULT_ACCOUNT_ID (lit "config") LevelError
    (lit "MentraOS API key not configured")
    (lit "Add apiKey to channels.mentraos config").

Definition disabledIssue : StatusIssue :=
  mkIssue (lit "mentraos") DEFAULT_ACCOUNT_ID (lit "config") LevelInfo
    (lit "MentraOS channel is disabled")
    (lit "Set channels.mentraos.enabled = true").

(** [mentraosStatus.collectStatusIssues] (lines 178-206). *)
Definition collectStatusIssues (accounts : list Snapshot) : list StatusIssue :=
  match find (fun a => eqbs (snapAccountId a) DEFAULT_ACCOUNT_ID) accounts with
  | None => []
  | Some account =>
      (if negb (truthyB (snapConfigured account)) then [configIssue] else [])
      ++ (if negb (truthyB (snapEnabled account)) then [disabledIssue] else [])
  end.

(** The initial value of [accountRuntimeStatus] (lines 162-168). *)
Definition initialRuntimeStatus : Snapshot :=
  mkSnapshot DEFAULT_ACCOUNT_ID None None None (Some false) None None None
    None None.

(** [mentraosStatus.buildAccountSnapshot] (lines 207-220), reading the
    module variable [accountRuntimeStatus]. *)
Definition buildAccountSnapshot (accountRuntimeStatus : Snapshot)
    (account : MentraOSResolvedAccount) (runtime : option Snapshot) : Snapshot :=
  let rt {A} (f : Snapshot -> option A) : option A :=
    match runtime with Some r => f r | None => None end in
  mkSnapshot (accountId account) (Some (lit "MentraOS"))
    (Some (enabled account)) (Some (truthyV (apiKey account)))
    (coalesce (rt running) (running accountRuntimeStatus))
    (coalesce (rt lastStartAt) (lastStartAt accountRuntimeStatus))
    (coalesce (rt lastStopAt) (lastStopAt accountRuntimeStatus))
    (coalesce (rt lastError) (lastError accountRuntimeStatus))
    (rt lastInboundAt) (rt lastOutboundAt).

End Adapters.

End Config.

(* ================================================================== *)
(** * Session registry, outbound adapter and gateway lifecycle *)
(* ================================================================== *)

Module Gateway.
Import JS Config.

Local Open Scope Z_scope.

(** ** The module variables *)

(** An [AppSession], named by its session id. *)
Definition Session : Type := jsstring.

(** [Map<string, AppSession>]: entries in insertion order, one per key. *)
Definition SessionMap : Type := list (jsstring * Session).

(** [Map.prototype.set]: the entry of an existing key is updated in place, a
    new key goes to the end. *)
Fixpoint mapSet (k : jsstring) (v : Session) (m : SessionMap) : SessionMap :=
  match m with
  | [] => [(k, v)]
  | (k', v') :: rest =>
      if eqbs k' k then (k, v) :: rest else (k', v') :: mapSet k v rest
  end.

(** [Map.prototype.get]. *)
Fixpoint mapGet (k : jsstring) (m : SessionMap) : option Session :=
  match m with
  | [] => None
  | (k', v') :: rest => if eqbs k' k then Some v' else mapGet k rest
  end.

(** [Map.prototype.delete]. *)
Definition mapDelete (k : jsstring) (m : SessionMap) : SessionMap :=
  filter (fun e => negb (eqbs (fst e) k)) m.

(** [Map.prototype.size]. *)
Definition mapSize (m : SessionMap) : nat := length m.

(** What [new FaceClawAppServer({...})] is given. *)
Record Server : Type := mkServer {
  packageName : jsstring;
  serverApiKey : JsVal;
  serverPort : JsVal
}.

(** [activeSessions], [appServerInstance] and [accountRuntimeStatus]. *)
Record Global : Type := mkGlobal {
  activeSessions : SessionMap;
  appServerInstance : option Server;
  accountRuntimeStatus : Snapshot
}.

(** ** Effects and environment *)

Inductive Level : Type := Info | Warn | Error.

(** The lines written to the console, to [ctx.log] and to [gatewayLog]. *)
Inductive Line : Type :=
| Speaking (to : jsstring)
| TtsSent (to : jsstring)
| TtsError (to : jsstring)
| TtsMediaError (to : jsstring)
| NoActiveSession (to : jsstring)
| NewSession (userId sessionId : jsstring)
| SessionInitialized (userId : jsstring)
| SessionStopped (userId : jsstring)
| NoApiKey
| Starting
| ServerRunning
| WebhookUrl
| HealthUrl
| FailedToStart (errMsg : jsstring)
| Stopping
| ErrorStopping.

Inductive Sink : Type := Console | CtxLog | GatewayLog.

Inductive Direction : Type := Inbound | Outbound.

Inductive GEffect : Type :=
| GSpeak (session : Session) (txt : jsstring) (trackId : Z) (stopOtherAudio : bool)
| GActivity (account : jsstring) (direction : Direction)
| GLoadConfig
| GSubscribeTranscription (session : Session)
| GSubscribePhoto (session : Session)
| GRegisterRoute (path : jsstring)
| GUnregisterRoute
| GServerStart (srv : Server)
| GServerStop
| GSetStatus (st : Snapshot)
| GLog (sink : Sink) (level : Level) (line : Line).

Inductive GFailure : Type :=
| SpeakRejected
| ActivityFailed
| LoadConfigFailed
| ServerError (message : jsstring).

Record GEnv : Type := mkGEnv {
  gclock : nat -> Z;                        (* the k-th reading of [Date.now()] *)
  randomSuffix : jsstring;                  (* [Math.random().toString(36).slice(2, 8)] *)
  speakRejectsOn : Session -> bool;         (* [speak] on that session rejects *)
  activityThrows : bool;                    (* [activity.record] throws *)
  loadConfigThrows : bool;
  constructorThrows : option jsstring;      (* message of the error of [new FaceClawAppServer] *)
  startThrows : option jsstring;            (* message of the error of [start()] *)
  stopThrows : bool
}.

Record GWorld : Type := mkGWorld {
  global : Global;
  gticks : nat;
  gtrace : list GEffect
}.

Inductive GRes (A : Type) : Type :=
| Returned (a : A)
| Thrown (e : GFailure).
Arguments Returned {A} a.
Arguments Thrown {A} e.

Definition G (A : Type) : Type := GWorld -> GRes A * GWorld.

Definition gret {A} (a : A) : G A := fun w => (Returned a, w).

Definition gbind {A B} (c : G A) (f : A -> G B) : G B :=
  fun w =>
    match c w with
    | (Returned a, w') => f a w'
    | (Thrown e, w') => (Thrown e, w')
    end.

Definition gthrow {A} (e : GFailure) : G A := fun w => (Thrown e, w).

Definition gtry {A} (body : G A) (handler : GFailure -> G A) : G A :=
  fun w =>
    match body w with
    | (Returned a, w') => (Returned a, w')
    | (Thrown e, w') => handler e w'
    end.

Declare Scope gateway_scope.
Notation "x <- c1 ;; c2" := (gbind c1 (fun x => c2))
  (at level 61, c1 at next level, right associativity) : gateway_scope.
Notation "c1 ;; c2" := (gbind c1 (fun _ => c2))
  (at level 61, right associativity) : gateway_scope.
Local Open Scope gateway_scope.

Definition gemit (e : GEffect) : G unit :=
  fun w => (Returned tt, mkGWorld (global w) (gticks w) (gtrace w ++ [e])).

Definition getGlobal : G Global := fun w => (Returned (global w), w).

Definition putGlobal (g : Global) : G unit :=
  fun w => (Returned tt, mkGWorld g (gticks w) (gtrace w)).

Definition setSessions (m : SessionMap) : G unit :=
  g <- getGlobal ;;
  putGlobal (mkGlobal m (appServerInstance g) (accountRuntimeStatus g)).

Definition setInstance (s : option Server) : G unit :=
  g <- getGlobal ;;
  putGlobal (mkGlobal (activeSessions g) s (accountRuntimeStatus g)).

Definition setRuntimeStatus (st : Snapshot) : G unit :=
  g <- getGlobal ;;
  putGlobal (mkGlobal (activeSessions g) (appServerInstance g) st).

Definition console (level : Level) (line : Line) : G unit :=
  gemit (GLog Console level line).

(** The decimal form of an integer in a template literal. *)
Definition showZ (z : Z) : jsstring :=
  lit (DecimalString.NilZero.string_of_int (Z.to_int z)).

(** What [sendText] and [sendMedia] return. *)
Record SendResult : Type := mkSendResult {
  resultChannel : jsstring;
  messageId : jsstring
}.

(** What [startAccount] leaves behind: it has returned, or it waits for the
    abort signal with its listener installed. *)
Inductive StartResult : Type :=
| ReturnedAtOnce
| WaitingForAbort.

(** The answer of the health route. *)
Inductive HealthBody : Type :=
| HealthStatus (timestamp : Z) (appServerRunning : bool) (sessions : nat)
| HealthOnly.

Section Gateway.

Variable DEFAULT_ACCOUNT_ID : jsstring.
Variable env : GEnv.

(** The text of [msg] in [startAccount], "MentraOS API key not configured",
    a dash and "skipping startup"; its dash is U+2013, beyond the code units
    of the model, so the text is taken as given. *)
Variable noApiKeyMessage : jsstring.

(** [Date.now()]. *)
Definition gnow : G Z :=
  fun w => (Returned (gclock env (gticks w)),
            mkGWorld (global w) (S (gticks w)) (gtrace w)).

(** [await session.audio.speak(txt, { trackId, stopOtherAudio })]. *)
Definition gspeak (session : Session) (txt : jsstring) (trackId : Z)
    (stopOtherAudio : bool) : G unit :=
  gemit (GSpeak session txt trackId stopOtherAudio) ;;
  if speakRejectsOn env session then gthrow SpeakRejected else gret tt.

(** [runtime.channel.activity.record({ channel, accountId, direction })]. *)
Definition recordActivity (account : jsstring) (direction : Direction) : G unit :=
  gemit (GActivity account direction) ;;
  if activityThrows env then gthrow ActivityFailed else gret tt.

(** [`mentra-${Date.now()}-${Math.random().toString(36).slice(2, 8)}`]. *)
Definition newMessageId : G jsstring :=
  t <- gnow ;;
  gret (lit "mentra-" ++ showZ t ++ lit "-" ++ randomSuffix env).

(** ** The outbound adapter (lines 227-290) *)

(** [mentraosOutbound.sendText]. *)
Definition sendText (to txt : jsstring) (account : option jsstring)
    : G SendResult :=
  id <- newMessageId ;;
  g <- getGlobal ;;
  match mapGet to (activeSessions g) with
  | Some session =>
      gtry (console Info (Speaking to) ;;
            gspeak session txt 2 true ;;
            console Info (TtsSent to))
           (fun _ => console Error (TtsError to))
  | None => console Warn (NoActiveSession to)
  end ;;
  recordActivity (match account with Some a => a | None => DEFAULT_ACCOUNT_ID end)
                 Outbound ;;
  gret (mkSendResult (lit "mentraos") id).

(** [mentraosOutbound.sendMedia]; [text] is optional. *)
Definition sendMedia (to : jsstring) (txt : option jsstring)
    (mediaUrl : jsstring) (account : option jsstring) : G SendResult :=
  id <- newMessageId ;;
  g <- getGlobal ;;
  match mapGet to (activeSessions g), txt with
  | Some session, Some t =>
      if truthy t
      then gtry (gspeak session t 2 true)
                (fun _ => console Error (TtsMediaError to))
      else gret tt
  | _, _ => gret tt
  end ;;
  recordActivity (match account with Some a => a | None => DEFAULT_ACCOUNT_ID end)
                 Outbound ;;
  gret (mkSendResult (lit "mentraos") id).

(** ** Session hooks of [FaceClawAppServer] *)

(** [onSession] (lines 463-636): the session is registered, the
    configuration is loaded, and the two handlers are subscribed with the
    closure variables at their initial values. *)
Definition onSession (hasGatewayLog : bool) (session : Session)
    (sessionId userId : jsstring) : G unit :=
  console Info (NewSession userId sessionId) ;;
  (if hasGatewayLog then gemit (GLog GatewayLog Info (NewSession userId sessionId))
   else gret tt) ;;
  g <- getGlobal ;;
  setSessions (mapSet userId session (activeSessions g)) ;;
  gemit GLoadConfig ;;
  (if loadConfigThrows env then gthrow LoadConfigFailed else gret tt) ;;
  gemit (GSubscribeTranscription session) ;;
  gemit (GSubscribePhoto session) ;;
  console Info (SessionInitialized userId).

(** [onStop] (lines 638-644). *)
Definition onStop (hasGatewayLog : bool) (sessionId userId reason : jsstring)
    : G unit :=
  console Info (SessionStopped userId) ;;
  (if hasGatewayLog then gemit (GLog GatewayLog Info (SessionStopped userId))
   else gret tt) ;;
  g <- getGlobal ;;
  setSessions (mapDelete userId (activeSessions g)).

(** ** The gateway adapter (lines 653-782) *)

(** [ctx.log?.level(line)]. *)
Definition ctxLog (hasLog : bool) (level : Level) (line : Line) : G unit :=
  if hasLog then gemit (GLog CtxLog level line) else gret tt.

(** The handler of the health route, which reads the module variables when
    it is called. *)
Definition healthHandler (method : jsstring) : G HealthBody :=
  if eqbs method (lit "GET")
  then
    t <- gnow ;;
    g <- getGlobal ;;
    gret (HealthStatus t
            (match appServerInstance g with Some _ => true | None => false end)
            (mapSize (activeSessions g)))
  else gret HealthOnly.

(** [startAccount], up to the installation of the abort listener. *)
Definition startAccount (hasLog : bool) (account : MentraOSResolvedAccount)
    : G StartResult :=
  if negb (truthyV (apiKey account))
  then
    ctxLog hasLog Warn NoApiKey ;;
    g <- getGlobal ;;
    let st := accountRuntimeStatus g in
    setRuntimeStatus
      (mkSnapshot (snapAccountId st) (snapName st) (snapEnabled st)
         (snapConfigured st) (Some false) (lastStartAt st) (lastStopAt st)
         (Some noApiKeyMessage)
         (lastInboundAt st) (lastOutboundAt st)) ;;
    gret ReturnedAtOnce
  else
    let port := orElse (cfgWebhookPort (config account)) (VNum 3335) in
    ctxLog hasLog Info Starting ;;
    gemit (GRegisterRoute (lit "/webhook")) ;;
    started <-
      gtry
        (match constructorThrows env with
         | Some msg => gthrow (ServerError msg)
         | None => gret tt
         end ;;
         let srv := mkServer (lit "com.openclaw.faceclaw") (apiKey account) port in
         setInstance (Some srv) ;;
         gemit (GServerStart srv) ;;
         match startThrows env with
         | Some msg => gthrow (ServerError msg)
         | None => gret tt
         end ;;
         ctxLog hasLog Info ServerRunning ;;
         ctxLog hasLog Info WebhookUrl ;;
         ctxLog hasLog Info HealthUrl ;;
         t <- gnow ;;
         let st := mkSnapshot (accountId account) None None None (Some true)
                     (Some t) None None None None in
         setRuntimeStatus st ;;
         gemit (GSetStatus st) ;;
         gret true)
        (fun e =>
           let errMsg := match e with
                         | ServerError msg => msg
                         | _ => []
                         end in
           ctxLog hasLog Error (FailedToStart errMsg) ;;
           g <- getGlobal ;;
           let old := accountRuntimeStatus g in
           let st := mkSnapshot (snapAccountId old) (snapName old)
                       (snapEnabled old) (snapConfigured old) (Some false)
                       (lastStartAt old) (lastStopAt old) (Some errMsg)
                       (lastInboundAt old) (lastOutboundAt old) in
           setRuntimeStatus st ;;
           gemit (GSetStatus st) ;;
           gret false) ;;
    gret (if started then WaitingForAbort else ReturnedAtOnce).

(** The listener of the abort signal (lines 749-771). *)
Definition onAbort (hasLog : bool) : G unit :=
  ctxLog hasLog Info Stopping ;;
  gemit GUnregisterRoute ;;
  g <- getGlobal ;;
  match appServerInstance g with
  | Some _ =>
      gtry (gemit GServerStop ;;
            if stopThrows env then gthrow (ServerError []) else gret tt)
           (fun _ => console Error ErrorStopping) ;;
      setInstance None
  | None => gret tt
  end ;;
  setSessions [] ;;
  t <- gnow ;;
  g' <- getGlobal ;;
  let old := accountRuntimeStatus g' in
  let st := mkSnapshot (snapAccountId old) (snapName old) (snapEnabled old)
              (snapConfigured old) (Some false) (lastStartAt old) (Some t)
              (lastError old) (lastInboundAt old) (lastOutboundAt old) in
  setRuntimeStatus st ;;
  gemit (GSetStatus st).

End Gateway.

(** ** Sample environments *)

(** A host whose clock starts at 1000 and in which nothing fails. *)
Definition quietEnv : GEnv :=
  mkGEnv (fun k => 1000 + Z.of_nat k) (lit "k3x9ab") (fun _ => false)
         false false None None false.

(** The same host with a device that rejects every [speak]. *)
Definition deafEnv : GEnv :=
  mkGEnv (fun k => 1000 + Z.of_nat k) (lit "k3x9ab") (fun _ => true)
         false false None None false.

(** A host in which [start()] throws with the given message and [stop()]
    throws as well. *)
Definition brokenEnv (message : string) : GEnv :=
  mkGEnv (fun k => 1000 + Z.of_nat k) (lit "k3x9ab") (fun _ => false)
         false false None (Some (lit message)) true.

Definition emptyGlobal (DEFAULT_ACCOUNT_ID : jsstring) : Global :=
  mkGlobal [] None (initialRuntimeStatus DEFAULT_ACCOUNT_ID).

Definition worldWith (g : Global) : GWorld := mkGWorld g 0 [].

(** An account as the resolver gives it for an enabled section with the
    given API key. *)
Definition accountWithKey (DEFAULT_ACCOUNT_ID : jsstring) (key : JsVal)
    : MentraOSResolvedAccount :=
  resolveMentraOSAccount DEFAULT_ACCOUNT_ID
    (mkConfig (Some (mkChannels
       (Some (mkMentraConfig (VBool true) key VUndefined VUndefined)) []))).

End Gateway.

(* ================================================================== *)
(** * The webhook relay ([unnamed/part_000]) *)
(* ================================================================== *)

Module Webhook.
Import JS.

(** ** Requests and responses *)

(** [payload.data]; every property is optional. *)
Record WebhookData : Type := mkData {
  dataText : option jsstring;
  dataIsFinal : option bool;
  imageBuffer : option jsstring;
  dataMimeType : option jsstring
}.

(** [payload.type]; the declared union, and whatever else arrives. *)
Inductive PayloadType : Type :=
| Transcription
| Photo
| SessionStart
| SessionEnd
| OtherType.

Record MentraWebhookPayload : Type := mkPayload {
  payloadType : PayloadType;
  userId : jsstring;
  sessionId : jsstring;
  data : option WebhookData
}.

(** [req.method] and [req.body]; a request without a body has [undefined]. *)
Record Request : Type := mkRequest {
  method : jsstring;
  body : option MentraWebhookPayload
}.

(** [process.env]. *)
Record ProcessEnv : Type := mkProcessEnv {
  OPENCLAW_TOKEN : option jsstring;
  OPENCLAW_URL : option jsstring;
  MENTRAOS_API_KEY : option jsstring
}.

(** The body posted to OpenClaw, before [JSON.stringify]. *)
Record Message : Type := mkMessage {
  action : jsstring;
  target : jsstring;
  message : jsstring;
  media : option jsstring;
  source : jsstring
}.

(** One call of [fetch]. *)
Record FetchRequest : Type := mkFetch {
  url : jsstring;
  authorization : jsstring;
  contentType : jsstring;
  fetchBody : Message
}.

(** What [response.json()] gives: it rejects, or resolves to [null] or to an
    object with an optional [message]. *)
Inductive JsonResult : Type :=
| JsonInvalid (errorMessage : jsstring)
| JsonNull
| JsonObject (msg : option jsstring).

(** What [fetch] gives: it rejects, or resolves to a response. *)
Inductive FetchResult : Type :=
| NetworkError (errorMessage : jsstring)
| HttpResponse (status : nat) (statusText : jsstring) (json : JsonResult).

(** [response.ok]: the status is in the range 200-299. *)
Definition responseOk (status : nat) : bool :=
  (Nat.leb 200 status && Nat.leb status 299)%bool.

(** The handler's answer: the status set with [res.status] (200 when it is
    not set) and the object given to [res.json]. *)
Inductive ResponseBody : Type :=
| ErrorOnly (error : jsstring)
| ErrorWithMessage (error message : jsstring)
| TtsResponse (response : jsstring)
| Acknowledged (message : jsstring).

Record Response : Type := mkResponse {
  statusCode : nat;
  responseBody : ResponseBody
}.

Inductive WEffect : Type :=
| WFetch (request : FetchRequest)
| WLog (isError : bool).

(** A thrown [Error], by its message. *)
Definition Thrown : Type := jsstring.

Definition W (A : Type) : Type := list WEffect -> (A + Thrown) * list WEffect.

Definition wret {A} (a : A) : W A := fun t => (inl a, t).

Definition wbind {A B} (c : W A) (f : A -> W B) : W B :=
  fun t =>
    match c t with
    | (inl a, t') => f a t'
    | (inr e, t') => (inr e, t')
    end.

Definition wthrow {A} (e : Thrown) : W A := fun t => (inr e, t).

Definition wtry {A} (body1 : W A) (handler : Thrown -> W A) : W A :=
  fun t =>
    match body1 t with
    | (inl a, t') => (inl a, t')
    | (inr e, t') => handler e t'
    end.

Declare Scope webhook_scope.
Notation "x <- c1 ;; c2" := (wbind c1 (fun x => c2))
  (at level 61, c1 at next level, right associativity) : webhook_scope.
Notation "c1 ;; c2" := (wbind c1 (fun _ => c2))
  (at level 61, right associativity) : webhook_scope.
Local Open Scope webhook_scope.

Definition wemit (e : WEffect) : W unit := fun t => (inl tt, t ++ [e]).

Definition wlog : W unit := wemit (WLog false).
Definition werror : W unit := wemit (WLog true).

(** The decimal form of a status in a template literal. *)
Definition showNat (n : nat) : jsstring :=
  lit (DecimalString.NilZero.string_of_uint (Nat.to_uint n)).

Definition optTruthy (s : option jsstring) : bool :=
  match s with Some t => truthy t | None => false end.

Section Relay.

(** What the network answers to a request. *)
Variable network : FetchRequest -> FetchResult.

(** The message of the TypeError thrown by [payload.type] when the request
    has no body; its text is the engine's. *)
Variable noBodyMessage : jsstring.

(** The [fetch] of both senders, with the check of [response.ok] and the
    parse of the body. *)
Definition post (openclawUrl openclawToken : jsstring) (msg : Message)
    : W JsonResult :=
  let request := mkFetch (openclawUrl ++ lit "/api/message")
                   (lit "Bearer " ++ openclawToken)
                   (lit "application/json") msg in
  wemit (WFetch request) ;;
  match network request with
  | NetworkError e => wthrow e
  | HttpResponse status statusText json =>
      if negb (responseOk status)
      then wthrow (lit "OpenClaw API error: " ++ showNat status
                     ++ lit " " ++ statusText)
      else match json with
           | JsonInvalid e => wthrow e
           | _ => wret json
           end
  end.

(** [sendToOpenClaw] (lines 115-154). *)
Definition sendToOpenClaw (txt user openclawToken openclawUrl : jsstring)
    : W JsonResult :=
  wtry
    (wlog ;;
     post openclawUrl openclawToken
       (mkMessage (lit "send") (lit "mentraos:" ++ user) txt None
          (lit "mentra-bridge-vercel")))
    (fun e => werror ;; wthrow e).

(** The text of [message] in [sendImageToOpenClaw], a camera sign and
    "Photo captured"; the sign is beyond the code units of the model, so the
    text is taken as given. *)
Variable photoCaptured : jsstring.

(** [sendImageToOpenClaw] (lines 159-199). *)
Definition sendImageToOpenClaw (image mime user openclawToken openclawUrl : jsstring)
    : W JsonResult :=
  wtry
    (post openclawUrl openclawToken
       (mkMessage (lit "send") (lit "mentraos:" ++ user) photoCaptured
          (Some (lit "data:" ++ mime ++ lit ";base64," ++ image))
          (lit "mentra-bridge-vercel")))
    (fun e => werror ;; wthrow e).

(** [response?.message || fallback]. *)
Definition replyOr (response : JsonResult) (fallback : jsstring) : jsstring :=
  match response with
  | JsonObject (Some m) => if truthy m then m else fallback
  | _ => fallback
  end.

Definition defaultOpenclawUrl : jsstring := lit "http://localhost:18789".

Definition configError : Response :=
  mkResponse 500 (ErrorOnly (lit "Server configuration error")).

(** The exported [handler] (lines 20-110). *)
Definition handler (env : ProcessEnv) (req : Request) : W Response :=
  wlog ;;
  if negb (eqbs (method req) (lit "POST"))
  then wret (mkResponse 405 (ErrorOnly (lit "Method not allowed")))
  else
    wtry
      (wlog ;;
       let openclawUrl :=
         match OPENCLAW_URL env with
         | Some u => if truthy u then u else defaultOpenclawUrl
         | None => defaultOpenclawUrl
         end in
       match OPENCLAW_TOKEN env with
       | None => werror ;; wret configError
       | Some openclawToken =>
         if negb (truthy openclawToken) then werror ;; wret configError
         else if negb (optTruthy (MENTRAOS_API_KEY env))
         then werror ;; wret configError
         else
           match body req with
           | None => wthrow noBodyMessage
           | Some payload =>
             let field {A} (f : WebhookData -> option A) : option A :=
               match data payload with Some d => f d | None => None end in
             match payloadType payload with
             | Transcription =>
                 match field dataIsFinal, field dataText with
                 | Some true, Some txt =>
                     if truthy (trim txt)
                     then
                       wlog ;;
                       response <- sendToOpenClaw txt (userId payload)
                                     openclawToken openclawUrl ;;
                       wret (mkResponse 200
                               (TtsResponse
                                  (replyOr response (lit "Processed successfully"))))
                     else wret (mkResponse 200 (Acknowledged (lit "Webhook processed")))
                 | _, _ => wret (mkResponse 200 (Acknowledged (lit "Webhook processed")))
                 end
             | Photo =>
                 match field imageBuffer with
                 | Some image =>
                     if truthy image
                     then
                       wlog ;;
                       let mime := match field dataMimeType with
                                   | Some t => if truthy t then t else lit "image/jpeg"
                                   | None => lit "image/jpeg"
                                   end in
                       response <- sendImageToOpenClaw image mime (userId payload)
                                     openclawToken openclawUrl ;;
                       wret (mkResponse 200
                               (TtsResponse
                                  (replyOr response (lit "Photo analyzed successfully"))))
                     else wret (mkResponse 200 (Acknowledged (lit "Webhook processed")))
                 | None => wret (mkResponse 200 (Acknowledged (lit "Webhook processed")))
                 end
             | SessionStart =>
                 wlog ;; wret (mkResponse 200 (Acknowledged (lit "Session initialized")))
             | SessionEnd =>
                 wlog ;; wret (mkResponse 200 (Acknowledged (lit "Session closed")))
             | OtherType =>
                 wlog ;;
                 wret (mkResponse 200
                         (Acknowledged (lit "Payload received but not processed")))
             end
           end
       end)
      (fun e =>
         werror ;;
         wret (mkResponse 500 (ErrorWithMessage (lit "Internal server error") e))).

End Relay.

(** ** Sample deployments *)

(** An OpenClaw that answers every request with the given message. *)
Definition answering (reply : string) (_ : FetchRequest) : FetchResult :=
  HttpResponse 200 (lit "OK") (JsonObject (Some (lit reply))).

(** A deployment with both settings and the default URL. *)
Definition deployment : ProcessEnv :=
  mkProcessEnv (Some (lit "secret")) None (Some (lit "key-1")).

Definition finalTranscription : Request :=
  mkRequest (lit "POST")
    (Some (mkPayload Transcription (lit "u1") (lit "s1")
             (Some (mkData (Some (lit "what time is it")) (Some true)
                      None None)))).

End Webhook.

(* ================================================================== *)
(** * The health endpoint of the relay ([unnamed/part_001]) *)
(* ================================================================== *)

Module HealthEndpoint.
Import JS Webhook.

(** The [environment] object of the answer. *)
Record Environment : Type := mkEnvironment {
  nodeVersion : jsstring;
  openclawConfigured : bool;
  openclawUrl : jsstring;
  mentraosConfigured : bool
}.

Record Health : Type := mkHealth {
  status : jsstring;
  service : jsstring;
  timestamp : jsstring;
  environment : Environment
}.

(** The exported [handler] (lines 3-14); [isoNow] is what
    [new Date().toISOString()] gives and [version] is [process.version]. *)
Definition handler (isoNow version : jsstring) (env : ProcessEnv) : Health :=
  mkHealth (lit "ok") (lit "faceclaw") isoNow
    (mkEnvironment version
       (optTruthy (OPENCLAW_TOKEN env))
       (match OPENCLAW_URL env with
        | Some u => if truthy u then u else lit "http://localhost:18789"
        | None => lit "http://localhost:18789"
        end)
       (optTruthy (MENTRAOS_API_KEY env))).

End HealthEndpoint.

(* ================================================================== *)
(** * Proof support *)
(* ================================================================== *)

Import JS Regex Channel.

Create HintDb handlers.

(** Runs the monadic operations of a handler on an explicit world. *)
Ltac run_m :=
  cbv beta iota zeta delta
    [bind ret throw tryCatch emit log now call getListen putListen
     setListenWindowUntil setSpeakingUntil setRecentTtsText stopAudio speak
     listen ticks spoken trace listenWindowUntil speakingUntil recentTtsText
     fst snd].

Ltac run_m_in H :=
  cbv beta iota zeta delta
    [bind ret throw tryCatch emit log now call getListen putListen
     setListenWindowUntil setSpeakingUntil setRecentTtsText stopAudio speak
     listen ticks spoken trace listenWindowUntil speakingUntil recentTtsText
     fst snd] in H.

(** Splits a hypothesis on the character tests it contains. *)
Ltac stop_cases H :=
  repeat match type of H with
         | context [Ascii.eqb ?a ?b] =>
             let E := fresh "E" in
             destruct (Ascii.eqb a b) eqn:E;
             [apply Ascii.eqb_eq in E | try discriminate H]
         end.

(* ================================================================== *)
(** * Properties of the string operations *)
(* ================================================================== *)

Section StringFacts.

Lemma startsWith_app (p b : jsstring) : startsWith (p ++ b) p = true.
Proof.
  induction p as [|x p IH]; simpl; [reflexivity|].
  now rewrite Ascii.eqb_refl, IH.
Qed.

Lemma startsWith_inv (s p : jsstring) :
  startsWith s p = true -> exists b, s = p ++ b.
Proof.
  revert s; induction p as [|x p IH]; intros s H.
  - now exists s.
  - destruct s as [|c s]; simpl in H; [discriminate|].
    apply andb_prop in H as [Hc Hs].
    apply Ascii.eqb_eq in Hc; subst c.
    destruct (IH _ Hs) as [b ->]. now exists b.
Qed.

(** [includes] decides containment. *)
Lemma includes_contains (s p : jsstring) :
  includes s p = true <-> contains s p.
Proof.
  split.
  - induction s as [|c s IH]; simpl; intros H.
    + rewrite orb_false_r in H. apply startsWith_inv in H as [b E].
      now exists [], b.
    + apply orb_prop in H as [H|H].
      * apply startsWith_inv in H as [b E]. now exists [], b.
      * destruct (IH H) as (a & b & ->). now exists (c :: a), b.
  - intros (a & b & ->). induction a as [|c a IH].
    + simpl app. destruct (p ++ b) eqn:E; simpl; rewrite <- ?E.
      * destruct p; [reflexivity | discriminate].
      * now rewrite startsWith_app.
    + simpl. now rewrite IH, orb_true_r.
Qed.

Lemma dropWhile_length (f : ascii -> bool) (s : jsstring) :
  (length (dropWhile f s) <= length s)%nat.
Proof. induction s as [|c s IH]; simpl; [lia|]. destruct (f c); simpl; lia. Qed.

Lemma trimEnd_length (s : jsstring) : (length (trimEnd s) <= length s)%nat.
Proof.
  induction s as [|c s IH]; simpl; [lia|].
  destruct (trimEnd s); [destruct (isSpace c)|]; simpl in *; lia.
Qed.

Lemma dropWhile_fixed (f : ascii -> bool) (s : jsstring) :
  length (dropWhile f s) = length s -> dropWhile f s = s.
Proof.
  destruct s as [|c s]; simpl; [reflexivity|].
  destruct (f c); [|reflexivity].
  intros H. pose proof (dropWhile_length f s). lia.
Qed.

(** A string that [trim] leaves alone has no white space at either end. *)
Lemma trim_fixed (s : jsstring) :
  trim s = s -> dropWhile isSpace s = s /\ trimEnd s = s.
Proof.
  unfold trim. intros H.
  assert (E : dropWhile isSpace s = s).
  { apply dropWhile_fixed.
    pose proof (trimEnd_length (dropWhile isSpace s)) as H1.
    pose proof (dropWhile_length isSpace s) as H2.
    rewrite H in H1. lia. }
  split; [exact E | now rewrite E in H].
Qed.

Lemma dropWhile_head (f : ascii -> bool) (c : ascii) (s : jsstring) :
  dropWhile f (c :: s) = c :: s -> f c = false.
Proof.
  simpl. destruct (f c); [|reflexivity].
  intros H. pose proof (dropWhile_length f s) as L.
  rewrite H in L. simpl in L. lia.
Qed.

Lemma trimEnd_idem (s : jsstring) : trimEnd (trimEnd s) = trimEnd s.
Proof.
  induction s as [|c s IH]; simpl; [reflexivity|].
  destruct (trimEnd s) as [|d r] eqn:E.
  - destruct (isSpace c) eqn:Ec; simpl; [reflexivity|]. now rewrite Ec.
  - simpl in *. now rewrite IH.
Qed.

Lemma trimEnd_head (c : ascii) (s : jsstring) :
  isSpace c = false -> exists r, trimEnd (c :: s) = c :: r.
Proof.
  intros Hc. simpl. destruct (trimEnd s) as [|d r].
  - rewrite Hc. now exists [].
  - now exists (d :: r).
Qed.

Lemma dropWhile_idem (f : ascii -> bool) (s : jsstring) :
  dropWhile f (dropWhile f s) = dropWhile f s.
Proof.
  induction s as [|c s IH]; simpl; [reflexivity|].
  destruct (f c) eqn:E; [exact IH|]. simpl. now rewrite E.
Qed.

(** [trim] is idempotent: what the handler calls [raw] is a fixed point. *)
Lemma trim_idem (s : jsstring) : trim (trim s) = trim s.
Proof.
  unfold trim.
  destruct (dropWhile isSpace s) as [|c r] eqn:E; [reflexivity|].
  assert (Hc : isSpace c = false).
  { apply (dropWhile_head isSpace c r). rewrite <- E. apply dropWhile_idem. }
  destruct (trimEnd_head c r Hc) as [r' Er]. rewrite Er.
  simpl dropWhile. rewrite Hc. rewrite <- Er. apply trimEnd_idem.
Qed.

End StringFacts.

(* ================================================================== *)
(** * Speech-duration estimate *)
(* ================================================================== *)

Section Estimate.

Lemma splitGo_cons (b : bool) (s : jsstring) :
  exists p ps, splitGo b s = p :: ps.
Proof.
  revert b; induction s as [|c s IH]; intros b; simpl; [now eauto|].
  destruct (isSpace c).
  - destruct b; [apply IH | now eauto].
  - destruct (IH false) as (p & ps & ->). now eauto.
Qed.

Lemma splitGo_letter (b : bool) (c : ascii) (s : jsstring) :
  isSpace c = false ->
  length (splitGo b (c :: s)) = length (splitGo false s).
Proof.
  intros Hc. simpl. rewrite Hc.
  destruct (splitGo_cons false s) as (p & ps & ->). reflexivity.
Qed.

(** On a string that does not end in white space the pieces of the split
    are one more than the separators, as the words are. *)
Lemma splitGo_countWords (s : jsstring) :
  s <> [] -> trimEnd s = s ->
  forall b, (length (splitGo b s) + (if b then 1 else 0)
             = countWords b s + 1)%nat.
Proof.
  induction s as [|c s IH]; intros Hne Ht b; [contradiction|].
  simpl in Ht. destruct (trimEnd s) as [|d r] eqn:E.
  - (* [c] is the last unit *)
    destruct (isSpace c) eqn:Hc; [discriminate|].
    injection Ht as <-. simpl. rewrite Hc. destruct b; reflexivity.
  - injection Ht as Hs.
    assert (Hne' : s <> []) by (rewrite <- Hs; discriminate).
    destruct (isSpace c) eqn:Hc.
    + specialize (IH Hne' Hs true). simpl in IH. simpl. rewrite Hc.
      destruct b; simpl; lia.
    + specialize (IH Hne' Hs false). simpl in IH.
      rewrite (splitGo_letter b c s Hc). simpl countWords. rewrite Hc.
      destruct b; lia.
Qed.

(** The count the code uses is the number of words once the text has no
    white space around it and is not empty. *)
Lemma split_length_wordCount (s : jsstring) :
  s <> [] -> trim s = s -> length (splitWs s) = wordCount s.
Proof.
  intros Hne Ht. apply trim_fixed in Ht as [Hd He].
  destruct s as [|c s]; [contradiction|].
  pose proof (dropWhile_head isSpace c s Hd) as Hc.
  pose proof (splitGo_countWords (c :: s) Hne He false) as H.
  unfold splitWs, wordCount. simpl countWords in *. rewrite Hc in *. lia.
Qed.

Example estimate_hello_there :
  estimateTtsDurationMs (lit "hello there") = 2000%Z.
Proof. reflexivity. Qed.

(** White space in front of a text leaves an empty first piece in the split,
    which the code counts; no such text reaches the estimate, whose one
    caller passes a reply of the pipeline ([reply_estimate] below). *)
Example estimate_leading_space :
  estimateTtsDurationMs (lit " a b c d e f g h") = 2170%Z
  /\ wordCount (lit " a b c d e f g h") = 8%nat.
Proof. split; reflexivity. Qed.

(** On a text that [trim] leaves alone the estimate is the formula over the
    number of words. *)
Lemma estimate_trimmed (txt : jsstring) :
  trim txt = txt -> estimateTtsDurationMs txt = estimateSpec txt.
Proof.
  intros Ht. destruct txt as [|c s]; [reflexivity|].
  unfold estimateTtsDurationMs, estimateSpec.
  rewrite split_length_wordCount; [reflexivity | discriminate | exact Ht].
Qed.

End Estimate.

(* ================================================================== *)
(** * The patterns of the voice gate *)
(* ================================================================== *)

Section Patterns.

(** *** The bound of [repeat] is never the reason for a result *)

(** A matcher only looks at its continuation on positions that are not
    further back in the input. *)
Lemma repeat_ext (step : (pos -> option pos) -> pos -> option pos) :
  (forall (k1 k2 : pos -> option pos) (x : pos),
     (forall y : pos, (length (snd y) <= length (snd x))%nat -> k1 y = k2 y) ->
     step k1 x = step k2 x) ->
  forall n (k1 k2 : pos -> option pos) (x : pos),
    (forall y : pos, (length (snd y) <= length (snd x))%nat -> k1 y = k2 y) ->
    repeat step k1 n x = repeat step k2 n x.
Proof.
  intros Hstep. induction n as [|n IH]; intros k1 k2 x H; simpl.
  - apply H. lia.
  - rewrite (H x) by lia.
    rewrite (Hstep _ (fun y : pos => if (length (snd y) <? length (snd x))%nat
                               then repeat step k2 n y else None) x);
      [reflexivity|].
    intros y Hy. cbv beta.
    destruct (length (snd y) <? length (snd x))%nat eqn:E; [|reflexivity].
    apply Nat.ltb_lt in E. apply IH. intros z Hz. apply H. lia.
Qed.

Lemma m_ext (r : regex) :
  forall (k1 k2 : pos -> option pos) (x : pos),
    (forall y : pos, (length (snd y) <= length (snd x))%nat -> k1 y = k2 y) ->
    m r k1 x = m r k2 x.
Proof.
  induction r as [|f|r1 IH1 r2 IH2|r1 IH1 r2 IH2|r1 IH1| | |];
    intros k1 k2 x H; cbn [m].
  - apply H. lia.
  - destruct (snd x) as [|c rest] eqn:E; [reflexivity|].
    destruct (f c); [|reflexivity]. apply H. cbn [snd length]. lia.
  - apply IH1. intros y Hy. apply IH2. intros z Hz. apply H.
    eapply Nat.le_trans; eassumption.
  - rewrite (IH1 k1 k2 x H), (IH2 k1 k2 x H). reflexivity.
  - apply repeat_ext; [exact IH1 | exact H].
  - destruct (fst x); [apply H; lia | reflexivity].
  - destruct (snd x) eqn:E; [apply H; rewrite E; apply Nat.le_refl | reflexivity].
  - destruct (xorb (wordBefore x) (wordAfter x)); [apply H; lia | reflexivity].
Qed.

(** Any two bounds above the number of units ahead give the same result:
    [r*] is the unbounded greedy repetition. *)
Lemma repeat_fuel (r : regex) (k : pos -> option pos) :
  forall L (x : pos) n n',
    (length (snd x) <= L)%nat ->
    (length (snd x) < n)%nat -> (length (snd x) < n')%nat ->
    repeat (m r) k n x = repeat (m r) k n' x.
Proof.
  induction L as [|L IH]; intros x n n' HL Hn Hn';
    (destruct n as [|n]; [lia|]); (destruct n' as [|n']; [lia|]); simpl;
    rewrite (m_ext r _ (fun y : pos => if (length (snd y) <? length (snd x))%nat
                                 then repeat (m r) k n' y else None) x);
    try reflexivity;
    intros y Hy; cbv beta;
    destruct (length (snd y) <? length (snd x))%nat eqn:E;
    try reflexivity; apply Nat.ltb_lt in E.
  - lia.
  - apply IH; lia.
Qed.

Lemma star_any_bound (r : regex) (k : pos -> option pos) (x : pos) (n : nat) :
  (length (snd x) < n)%nat -> m (Star r) k x = repeat (m r) k n x.
Proof.
  intros Hn. cbn [m]. apply (repeat_fuel r k (length (snd x))); lia.
Qed.

(** *** The patterns of the handler *)


Lemma takeWhile_dropWhile (f : ascii -> bool) (s : jsstring) :
  takeWhile f s ++ dropWhile f s = s.
Proof.
  induction s as [|c s IH]; simpl; [reflexivity|].
  destruct (f c); simpl; [now rewrite IH | reflexivity].
Qed.

Lemma skipn_takeWhile (f : ascii -> bool) (s : jsstring) :
  skipn (length (takeWhile f s)) s = dropWhile f s.
Proof.
  induction s as [|c s IH]; simpl; [reflexivity|].
  destruct (f c); simpl; [exact IH | reflexivity].
Qed.

Lemma dropWhile_stops (f : ascii -> bool) (s : jsstring) (c : ascii) (r : jsstring) :
  dropWhile f s = c :: r -> f c = false.
Proof.
  induction s as [|d s IH]; simpl; [discriminate|].
  destruct (f d) eqn:E; [exact IH|].
  intros H. injection H as <- _. exact E.
Qed.

(** A greedy [[...]*] followed by nothing that can fail consumes the longest
    run of units of the class. *)
Lemma repeat_class (f : ascii -> bool) (n : nat) :
  forall before ahead, (length ahead < n)%nat ->
    repeat (m (Cls f)) Some n (before, ahead)
    = Some (rev (takeWhile f ahead) ++ before, dropWhile f ahead).
Proof.
  induction n as [|n IH]; intros before ahead Hn; [lia|].
  destruct ahead as [|c s]; [reflexivity|].
  cbn [repeat m snd fst takeWhile dropWhile].
  destruct (f c); [|reflexivity].
  replace (length s <? length (c :: s))%nat with true
    by (symmetry; apply Nat.ltb_lt; simpl; lia).
  rewrite IH by (simpl in Hn; lia).
  cbn [rev]. now rewrite <- app_assoc.
Qed.

(** A pattern anchored with [^] matches at index 0 or nowhere. *)
Lemma execFrom_anchored (r : regex) (ahead : jsstring) :
  forall before, before <> [] -> execFrom (Seq Bol r) before ahead = None.
Proof.
  induction ahead as [|c s IH]; intros before Hb;
    destruct before as [|b bs]; try contradiction; simpl.
  - reflexivity.
  - apply IH. discriminate.
Qed.

Lemma leadingSep_at_start (c : ascii) (s : jsstring) :
  m leadingSepPattern Some ([], c :: s)
  = if isSepChar c
    then repeat (m (Cls isSepChar)) Some (S (length s)) ([c], s)
    else None.
Proof. reflexivity. Qed.

(** [s.replace(/^[,.\s]+/, "")] drops the leading separators. *)
Lemma removeFirst_leadingSep (s : jsstring) :
  removeFirst leadingSepPattern s = dropWhile isSepChar s.
Proof.
  unfold removeFirst, exec.
  destruct s as [|c s]; [reflexivity|].
  cbn [execFrom]. rewrite leadingSep_at_start.
  cbn [dropWhile]. destruct (isSepChar c) eqn:Hc.
  - rewrite repeat_class by lia.
    unfold index. cbn [fst length firstn app].
    rewrite length_app, length_rev. cbn [length].
    replace (length (takeWhile isSepChar s) + 1)%nat
      with (S (length (takeWhile isSepChar s))) by lia.
    cbn [skipn]. apply skipn_takeWhile.
  - unfold leadingSepPattern. now rewrite execFrom_anchored by discriminate.
Qed.

Lemma trimEnd_suffix (a b : jsstring) :
  trimEnd (a ++ b) = a ++ b -> trimEnd b = b.
Proof.
  induction a as [|c a IH]; [trivial|].
  simpl. destruct (trimEnd (a ++ b)) as [|d r] eqn:E.
  - destruct (isSpace c); [discriminate|].
    intros H. injection H as H. symmetry in H.
    apply app_eq_nil in H as [_ ->]. reflexivity.
  - intros H. injection H as H. apply IH. exact H.
Qed.

Lemma isSepChar_space (c : ascii) : isSepChar c = false -> isSpace c = false.
Proof.
  unfold isSepChar. intros H.
  apply orb_false_elim in H as [H _]. apply orb_false_elim in H as [H _].
  exact H.
Qed.

(** What is left of a trimmed text after its leading separators is trimmed. *)
Lemma trim_after_separators (a b : jsstring) :
  trim (a ++ b) = a ++ b ->
  trim (dropWhile isSepChar b) = dropWhile isSepChar b.
Proof.
  intros H. apply trim_fixed in H as [_ He].
  assert (Hs : trimEnd (dropWhile isSepChar b) = dropWhile isSepChar b).
  { apply (trimEnd_suffix (a ++ takeWhile isSepChar b)).
    now rewrite <- app_assoc, takeWhile_dropWhile. }
  unfold trim.
  destruct (dropWhile isSepChar b) as [|c r] eqn:E; [reflexivity|].
  apply dropWhile_stops in E. apply isSepChar_space in E.
  cbn [dropWhile]. rewrite E. exact Hs.
Qed.

Lemma found_at_start (o : option pos) (k : nat) (later : option (nat * nat)) :
  later = None ->
  match match o with Some e => Some (k, index e) | None => later end with
  | Some _ => true
  | None => false
  end
  = match o with Some _ => true | None => false end.
Proof. intros ->. destruct o; reflexivity. Qed.

Lemma test_anchored (r : regex) (s : jsstring) :
  test (Seq Bol r) s
  = match m (Seq Bol r) Some ([], s) with Some _ => true | None => false end.
Proof.
  unfold test, exec. destruct s as [|c s]; cbn [execFrom].
  - now apply found_at_start.
  - apply found_at_start. apply execFrom_anchored. discriminate.
Qed.

Lemma upperAscii_dot (c : ascii) : upperAscii c = "."%char -> c = "."%char.
Proof.
  destruct c as [[] [] [] [] [] [] [] []]; vm_compute; intros H;
    first [reflexivity | discriminate H].
Qed.

(** The stop pattern matches "stop" and "stop." in any letter case, and
    nothing else. *)
Lemma stop_pattern_spec (raw : jsstring) :
  test stopPattern raw = true
  <-> (map upperAscii raw = lit "STOP" \/ map upperAscii raw = lit "STOP.").
Proof.
  unfold stopPattern. rewrite test_anchored. split.
  - intros H.
    destruct raw as [|c1 [|c2 [|c3 [|c4 [|c5 [|c6 r]]]]]];
      cbv [m wordI lit list_ascii_of_string chI ch Opt fst snd] in H;
      stop_cases H; try discriminate H.
    + left. cbn [map]. rewrite E, E0, E1, E2. reflexivity.
    + right. subst c5. cbn [map]. rewrite E, E0, E1, E2. reflexivity.
  - intros [H|H];
      destruct raw as [|c1 [|c2 [|c3 [|c4 [|c5 [|c6 r]]]]]];
      try discriminate H;
      cbv [map lit list_ascii_of_string] in H.
    + injection H as H1 H2 H3 H4.
      cbv [m wordI lit list_ascii_of_string chI ch Opt fst snd].
      rewrite H1, H2, H3, H4. reflexivity.
    + injection H as H1 H2 H3 H4 H5. apply upperAscii_dot in H5. subst c5.
      cbv [m wordI lit list_ascii_of_string chI ch Opt fst snd].
      rewrite H1, H2, H3, H4. reflexivity.
Qed.

Example stop_examples :
  test stopPattern (lit "Stop.") = true
  /\ test stopPattern (lit "stop") = true
  /\ test stopPattern (lit "STOP") = true
  /\ test stopPattern (lit "stop it") = false
  /\ test stopPattern (lit "nonstop") = false.
Proof. repeat split; reflexivity. Qed.

Example wake_examples :
  exec wakePattern (lit "Hey Mentra what's two plus two") = Some (0, 10)%nat
  /\ exec wakePattern (lit "ok hey mentra, lights on") = Some (2, 13)%nat
  /\ exec wakePattern (lit "they mentra") = None
  /\ exec wakePattern (lit "hey mentras") = None
  /\ extractCommand (lit "Hey Mentra what's two plus two")
     = lit "what's two plus two"
  /\ extractCommand (lit "Hey Mentra, lights on") = lit "lights on"
  /\ extractCommand (lit "Hey Mentra.") = lit "Hey".
Proof. repeat split; reflexivity. Qed.

(** C4, as stated, fails twice.  After the match only commas, periods and
    white space are removed: a question mark or an exclamation mark stays,
    so that "Hey Mentra?" gives the command "?" and not the default
    greeting.  And when the wake words are not at the start of the text the
    match is cut out and the comma that follows it stays. *)
Lemma C4_counterexample :
  (test wakePattern (lit "Hey Mentra?") = true
   /\ extractCommand (lit "Hey Mentra?") = lit "?"
   /\ extractSpec (lit "Hey Mentra?") = lit "Hey")
  /\ (extractCommand (lit "Hey Mentra! lights on") = lit "! lights on"
      /\ extractSpec (lit "Hey Mentra! lights on") = lit "lights on")
  /\ (test wakePattern (lit "ok hey mentra, lights on") = true
      /\ extractCommand (lit "ok hey mentra, lights on") = lit "ok, lights on"
      /\ extractSpec (lit "ok hey mentra, lights on") = lit "oklights on").
Proof. repeat split; reflexivity. Qed.

(** C4 (amended): let [raw] be the trimmed text of a transcription, which is
    what the handler works on.  When the wake pattern matches at the very
    start of [raw], the extracted command is [raw] with the matched prefix
    and the commas, periods and white space following it removed (every
    other sign stays), or the default greeting when nothing is left; it is
    what the original wording gives whenever no other punctuation sign
    follows those.  Wherever the match lies, the command is [raw] with the
    match cut out, then without the commas, periods and white space at its
    start, trimmed, or the default greeting when nothing is left.  When the
    pattern does not match (the follow-up path) the command is [raw]
    unchanged. *)
Theorem C4_extract (t : jsstring) :
  let raw := trim t in
  (forall e, exec wakePattern raw = Some (0%nat, e) ->
     extractCommand raw
     = (if truthy (dropWhile isSepChar (skipn e raw))
        then dropWhile isSepChar (skipn e raw) else defaultGreeting)
     /\ (dropWhile isPunctOrSpace (skipn e raw)
         = dropWhile isSepChar (skipn e raw) ->
         extractCommand raw = extractSpec raw))
  /\ (forall i e, exec wakePattern raw = Some (i, e) ->
      extractCommand raw
      = (if truthy (trim (dropWhile isSepChar (firstn i raw ++ skipn e raw)))
         then trim (dropWhile isSepChar (firstn i raw ++ skipn e raw))
         else defaultGreeting))
  /\ (test wakePattern raw = false -> extractCommand raw = raw).
Proof.
  intros raw. pose proof (trim_idem t) as Ht. fold raw in Ht.
  split; [|split].
  - intros e He.
    assert (Hcut : removeFirst wakePattern raw = skipn e raw)
      by (unfold removeFirst; now rewrite He).
    assert (Hcmd : extractCommand raw
                   = (if truthy (dropWhile isSepChar (skipn e raw))
                      then dropWhile isSepChar (skipn e raw)
                      else defaultGreeting)).
    { unfold extractCommand, test. rewrite He, Hcut.
      rewrite removeFirst_leadingSep.
      rewrite (trim_after_separators (firstn e raw) (skipn e raw))
        by (rewrite firstn_skipn; exact Ht).
      reflexivity. }
    split; [exact Hcmd|].
    intros Hsame. rewrite Hcmd. unfold extractSpec. rewrite He.
    cbn [firstn app]. now rewrite Hsame.
  - intros i e He.
    assert (Hcut : removeFirst wakePattern raw = firstn i raw ++ skipn e raw)
      by (unfold removeFirst; now rewrite He).
    unfold extractCommand, test. rewrite He, Hcut.
    now rewrite removeFirst_leadingSep.
  - intros Hw. unfold extractCommand. now rewrite Hw.
Qed.

Lemma C4_extract_witness :
  extractCommand (trim (lit " Hey Mentra, lights on ")) = lit "lights on"
  /\ extractCommand (trim (lit " Hey Mentra, lights on "))
     = extractSpec (trim (lit " Hey Mentra, lights on ")).
Proof.
  destruct (proj1 (C4_extract (lit " Hey Mentra, lights on ")) 10%nat eq_refl)
    as [Hcmd Hspec].
  split; [exact Hcmd | apply Hspec; reflexivity].
Defined.

End Patterns.

(* ================================================================== *)
(** * The inbound pipeline *)
(* ================================================================== *)

Section Pipeline.

Lemma join_cons2 (sep p q : jsstring) (l : list jsstring) :
  join sep (p :: q :: l) = p ++ sep ++ join sep (q :: l).
Proof. reflexivity. Qed.

Lemma truthy_app_r (a b : jsstring) : truthy b = true -> truthy (a ++ b) = true.
Proof. destruct a, b; simpl; intros; congruence. Qed.

Lemma truthy_false (a : jsstring) : truthy a = false -> a = [].
Proof. destruct a; [reflexivity | discriminate]. Qed.

(** A join of non-empty pieces is empty only when there is no piece. *)
Lemma join_truthy (sep : jsstring) (l : list jsstring) :
  Forall (fun p => truthy p = true) l ->
  truthy (join sep l) = match l with [] => false | _ :: _ => true end.
Proof.
  intros H. destruct H as [|p l Hp Hl]; [reflexivity|].
  destruct l as [|q l]; [exact Hp|].
  rewrite join_cons2. destruct p; [discriminate | reflexivity].
Qed.

Lemma filter_truthy_all (l : list jsstring) :
  Forall (fun p => truthy p = true) (filter truthy l).
Proof.
  induction l as [|p l IH]; simpl; [constructor|].
  destruct (truthy p) eqn:E; [constructor; assumption | exact IH].
Qed.

(** Folding [deliver] over the payloads from any starting value. *)
Lemma fold_deliver (ps : list Payload) :
  forall c,
    fold_left deliver ps c
    = let rest := join newline (filter truthy (map replyTextOf ps)) in
      if truthy c
      then (if truthy rest then c ++ newline ++ rest else c)
      else rest.
Proof.
  induction ps as [|p ps IH]; intros c; cbn zeta.
  - simpl. destruct (truthy c) eqn:E; [reflexivity|].
    now apply truthy_false in E.
  - cbn [fold_left map filter]. rewrite IH. cbn zeta.
    pose proof (join_truthy newline _ (filter_truthy_all (map replyTextOf ps)))
      as Hj.
    set (l := filter truthy (map replyTextOf ps)) in *.
    unfold deliver, replyTextOf.
    destruct (payloadText p) as [t|]; cbn [truthy].
    + destruct (truthy (trim t)) eqn:Er; [|reflexivity].
      rewrite truthy_app_r by (now apply truthy_app_r).
      destruct l as [|q l'].
      * cbn [join truthy]. cbn [join] in Hj.
        destruct (truthy c) eqn:Ec; rewrite ?Er; [reflexivity|].
        apply truthy_false in Ec. now subst c.
      * rewrite join_cons2, Hj.
        rewrite (truthy_app_r (trim t)) by (now apply truthy_app_r).
        destruct (truthy c) eqn:Ec.
        -- now rewrite <- !app_assoc.
        -- apply truthy_false in Ec. now subst c.
    + reflexivity.
Qed.

(** The accumulated reply is every non-empty chunk, in arrival order, joined
    by newlines. *)
Lemma collected_accumulated (events : list DispatchEvent) :
  collected events = accumulated events.
Proof. unfold collected. now rewrite fold_deliver. Qed.

Lemma runDispatcher_spec (events : list DispatchEvent) :
  forall c w,
    runDispatcher events c w
    = (Ok (fold_left deliver (deliveredPayloads events) c),
       mkWorld (listen w) (ticks w) (spoken w) (trace w ++ errorLogs events)).
Proof.
  induction events as [|[p|] events IH]; intros c w.
  - destruct w; simpl. now rewrite app_nil_r.
  - simpl. apply IH.
  - cbn [runDispatcher]. unfold bind, log, emit. rewrite IH.
    cbn [listen ticks spoken trace deliveredPayloads flat_map errorLogs app].
    now rewrite <- app_assoc.
Qed.

End Pipeline.

Section PipelineRuns.

Variable env : Env.

(** When no call into the host fails the pipeline runs all its steps and
    returns [collectedReply || undefined]. *)
Lemma processInboundMessage_ok (body : jsstring) (media : option MediaRef)
    (w : World) :
  (forall s, fails env s = false) ->
  processInboundMessage env body media w
  = (Ok (if truthy (collected (agent env body (contextMedia media)))
         then Some (collected (agent env body (contextMedia media)))
         else None),
     mkWorld (listen w) (3 + ticks w) (spoken w)
             (trace w ++ pipelineEffects env body media)).
Proof.
  intros Hf. destruct w as [ls tk sp tr].
  unfold processInboundMessage. run_m. rewrite !Hf.
  unfold pipelineEffects, collected.
  destruct (recordErrorReported env); rewrite runDispatcher_spec; run_m;
    repeat rewrite <- app_assoc; reflexivity.
Qed.

(** Whenever the pipeline returns, it returns [collectedReply || undefined]. *)
Lemma processInboundMessage_result (body : jsstring) (media : option MediaRef)
    (w : World) (r : option jsstring) :
  fst (processInboundMessage env body media w) = Ok r ->
  r = (if truthy (collected (agent env body (contextMedia media)))
       then Some (collected (agent env body (contextMedia media)))
       else None).
Proof.
  destruct w as [ls tk sp tr].
  unfold processInboundMessage. run_m.
  repeat match goal with
         | |- context [fails env ?s] => destruct (fails env s)
         end;
    run_m; try discriminate;
    destruct (recordErrorReported env); run_m; try discriminate;
    rewrite runDispatcher_spec; run_m;
    unfold collected; intros H;
    first [discriminate H | injection H as <-; reflexivity].
Qed.

End PipelineRuns.

(** C7: when the pipeline runs through, the delivery callback has accumulated
    every non-empty chunk of reply text (the trimmed text of a payload), in
    arrival order, joined by newlines; the pipeline returns that text, or no
    reply when no non-empty chunk was produced.  Whenever the pipeline
    returns at all, it returns this. *)
Theorem C7_collected_reply (env : Env) (body : jsstring)
    (media : option MediaRef) (w : World) :
  let events := agent env body (contextMedia media) in
  let chunks := filter truthy (map replyTextOf (deliveredPayloads events)) in
  ((forall s, fails env s = false) ->
   fst (processInboundMessage env body media w)
   = Ok (match chunks with
         | [] => None
         | _ :: _ => Some (join newline chunks)
         end))
  /\ (forall r, fst (processInboundMessage env body media w) = Ok r ->
      r = match chunks with
          | [] => None
          | _ :: _ => Some (join newline chunks)
          end).
Proof.
  intros events chunks.
  assert (E : (if truthy (collected events) then Some (collected events) else None)
              = match chunks with [] => None | _ :: _ => Some (join newline chunks) end).
  { rewrite collected_accumulated. unfold accumulated. fold chunks.
    rewrite (join_truthy newline chunks) by apply filter_truthy_all.
    destruct chunks; reflexivity. }
  split.
  - intros Hf. rewrite processInboundMessage_ok by exact Hf.
    cbn [fst]. fold events. now rewrite E.
  - intros r Hr. rewrite <- E. unfold events.
    now apply (processInboundMessage_result env body media w).
Qed.

Lemma C7_collected_reply_witness :
  fst (processInboundMessage
         (sampleEnv (fun _ => 0%Z) noFailure
            [say " Four "; say "  "; DispatchError; say "is the answer"])
         (lit "what's two plus two") None initialWorld)
  = Ok (Some (lit "Four" ++ newline ++ lit "is the answer")).
Proof.
  apply (proj1 (C7_collected_reply
    (sampleEnv (fun _ => 0%Z) noFailure
       [say " Four "; say "  "; DispatchError; say "is the answer"])
    (lit "what's two plus two") None initialWorld)).
  reflexivity.
Defined.

(** ** Every reply is a trimmed text *)

Section ReplyShape.

Lemma trimEnd_app (a b : jsstring) :
  b <> [] -> trimEnd b = b -> trimEnd (a ++ b) = a ++ b.
Proof.
  intros Hb Ht. induction a as [|c a IH]; [exact Ht|].
  simpl. rewrite IH. destruct (a ++ b) eqn:E; [|reflexivity].
  apply app_eq_nil in E as [_ ->]. contradiction.
Qed.

Lemma join_trimmed (l : list jsstring) :
  l <> [] ->
  Forall (fun p => truthy p = true /\ trim p = p) l ->
  join newline l <> []
  /\ dropWhile isSpace (join newline l) = join newline l
  /\ trimEnd (join newline l) = join newline l.
Proof.
  induction l as [|p l IH]; [contradiction|]. intros _ HF.
  inversion HF as [|p' l' [Hp Ht] HF']; subst.
  apply trim_fixed in Ht as [Hd He].
  destruct p as [|c r]; [discriminate|].
  destruct l as [|q l].
  - cbn [join]. repeat split; [discriminate | exact Hd | exact He].
  - destruct (IH ltac:(discriminate) HF') as (Hn & _ & Hj).
    rewrite join_cons2. repeat split.
    + discriminate.
    + pose proof (dropWhile_head isSpace c r Hd) as Hc.
      cbn [app dropWhile]. now rewrite Hc.
    + apply trimEnd_app.
      * intros E. apply app_eq_nil in E as [E _]. discriminate.
      * now apply trimEnd_app.
Qed.

Lemma replyTexts_trimmed (ps : list Payload) :
  Forall (fun p => truthy p = true /\ trim p = p)
         (filter truthy (map replyTextOf ps)).
Proof.
  induction ps as [|p ps IH]; cbn [map filter]; [constructor|].
  destruct (truthy (replyTextOf p)) eqn:E; [|exact IH].
  constructor; [|exact IH]. split; [exact E|].
  unfold replyTextOf. destruct (payloadText p); [apply trim_idem | reflexivity].
Qed.

Lemma accumulated_trimmed (events : list DispatchEvent) :
  trim (accumulated events) = accumulated events.
Proof.
  unfold accumulated.
  pose proof (replyTexts_trimmed (deliveredPayloads events)) as HF.
  destruct (filter truthy (map replyTextOf (deliveredPayloads events)))
    as [|p l] eqn:E; [reflexivity|].
  destruct (join_trimmed (p :: l) ltac:(discriminate) HF) as (_ & Hd & He).
  unfold trim. now rewrite Hd.
Qed.

(** The estimate of every reply the pipeline returns is the formula over its
    number of words. *)
Lemma reply_estimate (env : Env) (body : jsstring) (media : option MediaRef)
    (w : World) (r : jsstring) :
  fst (processInboundMessage env body media w) = Ok (Some r) ->
  trim r = r /\ estimateTtsDurationMs r = estimateSpec r.
Proof.
  intros H. apply processInboundMessage_result in H.
  assert (Hr : r = accumulated (agent env body (contextMedia media))).
  { rewrite <- collected_accumulated.
    destruct (truthy (collected (agent env body (contextMedia media))));
      congruence. }
  assert (Ht : trim r = r) by (rewrite Hr; apply accumulated_trimmed).
  split; [exact Ht | now apply estimate_trimmed].
Qed.

End ReplyShape.

(** C5: the estimate is [max(2000, wordCount(text) * 130 + 1000)]
    milliseconds for every text it is given, that is for every reply the
    pipeline returns, the one argument [estimateTtsDurationMs] is called
    with (line 568); such a reply has no white space at its ends.  The
    estimate of "hello there" is 2000 ms and that of a reply of 20 words is
    3600 ms.  The formula holds as well for every other text without white
    space at its ends. *)
Theorem C5_estimate (env : Env) (body : jsstring) (media : option MediaRef)
    (w : World) (reply : jsstring) :
  fst (processInboundMessage env body media w) = Ok (Some reply) ->
  estimateTtsDurationMs reply = estimateSpec reply
  /\ estimateTtsDurationMs (lit "hello there") = 2000%Z
  /\ (wordCount reply = 20%nat -> estimateTtsDurationMs reply = 3600%Z)
  /\ (forall txt, trim txt = txt ->
      estimateTtsDurationMs txt = estimateSpec txt).
Proof.
  intros H. destruct (reply_estimate env body media w reply H) as [_ E].
  split; [exact E | split; [reflexivity | split]].
  - intros H20. rewrite E. unfold estimateSpec. rewrite H20. reflexivity.
  - apply estimate_trimmed.
Qed.

Lemma C5_estimate_witness :
  estimateTtsDurationMs
    (lit "one two three four five six seven eight nine ten eleven twelve thirteen fourteen fifteen sixteen seventeen eighteen nineteen twenty")
  = 3600%Z.
Proof.
  refine (proj1 (proj2 (proj2 (C5_estimate
    (sampleEnv (fun _ => 0%Z) noFailure
       [say "one two three four five six seven eight nine ten eleven twelve thirteen fourteen fifteen sixteen seventeen eighteen nineteen twenty"])
    (lit "count to twenty") None initialWorld
    (lit "one two three four five six seven eight nine ten eleven twelve thirteen fourteen fifteen sixteen seventeen eighteen nineteen twenty")
    _))) _); reflexivity.
Defined.

(* ================================================================== *)
(** * The voice gate *)
(* ================================================================== *)

Section Gate.

Variable env : Env.

Lemma stop_not_empty : test stopPattern [] = false.
Proof. reflexivity. Qed.

(** C2 (amended): a final transcription whose trimmed text is "stop" or
    "stop." in any letter case (a single period is the one trailing sign the
    pattern allows) is obeyed whatever the timers, the echo text, the wake
    word and the clock are: playback is cancelled, both timers are reset to
    0, the echo text is cleared, and nothing else happens, so nothing is
    dispatched.  These are the only texts the stop pattern matches. *)
Theorem C2_stop_command (data : TranscriptionData) (t : jsstring) (w : World) :
  isFinal data = true ->
  text data = Some t ->
  isStopCommand (trim t) ->
  onTranscription env data w
  = (Ok tt,
     mkWorld (mkListen 0 0 []) (ticks w) (spoken w)
             (trace w ++ [ELog LogStop; EStopAudio]))
  /\ (forall raw, test stopPattern raw = true <-> isStopCommand raw).
Proof.
  intros Hfin Htxt Hstop. split; [|intros raw; apply stop_pattern_spec].
  apply stop_pattern_spec in Hstop.
  destruct w as [[lw su rt] tk sp tr].
  unfold onTranscription, voiceGate. rewrite Hfin, Htxt.
  cbn [option_map negb orb].
  destruct (trim t) as [|c r] eqn:E.
  - rewrite stop_not_empty in Hstop. discriminate.
  - cbn [truthy negb]. rewrite Hstop. run_m.
    now rewrite <- app_assoc.
Qed.

End Gate.

(** C2, as stated, fails for a stop utterance with another trailing sign:
    "Stop!" is not a stop command for the code.  Heard while the reply is
    presumed playing it is suppressed like any other utterance: playback is
    not cancelled and the timers and the echo text stay as they were. *)
Lemma C2_counterexample :
  isStopUtteranceSpec (trim (lit "Stop!")) = true
  /\ test stopPattern (trim (lit "Stop!")) = false
  /\ onTranscription (sampleEnv (fun _ => 9000%Z) noFailure [say "Four"])
       (heard "Stop!") (mkWorld (mkListen 38000 12000 (lit "Four")) 0 0 [])
     = (Ok tt,
        mkWorld (mkListen 38000 12000 (lit "Four")) 1 0
          [ELog LogSuppressedTts]).
Proof. repeat split; reflexivity. Qed.

Lemma C2_stop_command_witness :
  onTranscription
    (sampleEnv (fun _ => 100%Z) noFailure [say "Four"])
    (heard " Stop. ")
    (mkWorld (mkListen 40000 9000 (lit "Four")) 0 0 [])
  = (Ok tt, mkWorld (mkListen 0 0 []) 0 0 [ELog LogStop; EStopAudio]).
Proof.
  apply (C2_stop_command
    (sampleEnv (fun _ => 100%Z) noFailure [say "Four"])
    (heard " Stop. ") (lit " Stop. ")
    (mkWorld (mkListen 40000 9000 (lit "Four")) 0 0 []));
    first [reflexivity | right; reflexivity].
Defined.

(* ================================================================== *)
(** * Frame properties of the handlers *)
(* ================================================================== *)

Section Frames.

Variable env : Env.

Lemma grows_ret {A} (a : A) : grows (ret a).
Proof. intros w. exists []. simpl. now rewrite app_nil_r. Qed.

Lemma grows_throw {A} (e : Failure) : grows (@throw A e).
Proof. intros w. exists []. simpl. now rewrite app_nil_r. Qed.

Lemma grows_bind {A B} (c : M A) (f : A -> M B) :
  grows c -> (forall a, grows (f a)) -> grows (bind c f).
Proof.
  intros Hc Hf w. unfold bind. destruct (Hc w) as [l1 E1].
  destruct (c w) as [[a|e] w1]; simpl in *.
  - destruct (Hf a w1) as [l2 E2]. exists (l1 ++ l2).
    now rewrite E2, E1, app_assoc.
  - now exists l1.
Qed.

Lemma grows_tryCatch {A} (c : M A) (h : Failure -> M A) :
  grows c -> (forall e, grows (h e)) -> grows (tryCatch c h).
Proof.
  intros Hc Hh w. unfold tryCatch. destruct (Hc w) as [l1 E1].
  destruct (c w) as [[a|e] w1]; simpl in *.
  - now exists l1.
  - destruct (Hh e w1) as [l2 E2]. exists (l1 ++ l2).
    now rewrite E2, E1, app_assoc.
Qed.

Lemma grows_emit (e : Effect) : grows (emit e).
Proof. intros w. now exists [e]. Qed.

Lemma grows_log (l : LogLine) : grows (log l).
Proof. apply grows_emit. Qed.

Lemma grows_now : grows (now env).
Proof. intros w. exists []. simpl. now rewrite app_nil_r. Qed.

Lemma grows_getListen : grows getListen.
Proof. intros w. exists []. simpl. now rewrite app_nil_r. Qed.

Lemma grows_putListen (s : ListenState) : grows (putListen s).
Proof. intros w. exists []. simpl. now rewrite app_nil_r. Qed.

Lemma grows_speak (a : bool) (t : jsstring) (k : Z) (b : bool) :
  grows (speak env a t k b).
Proof.
  intros w. unfold speak.
  destruct a, (speakRejects env (spoken w)); eexists; reflexivity.
Qed.

Hint Resolve grows_ret grows_throw grows_emit grows_log grows_now
  grows_getListen grows_putListen grows_speak : handlers.

(** Decomposes a computation along its binds, handlers and branches. *)
Ltac frame_steps :=
  repeat first
    [ progress auto with handlers
    | apply grows_bind; [|intros]
    | apply grows_tryCatch; [|intros]
    | match goal with
      | |- grows (if ?b then _ else _) => destruct b
      | |- grows (match ?x with _ => _ end) => destruct x
      end ].

Lemma grows_setListenWindowUntil (t : Z) : grows (setListenWindowUntil t).
Proof. unfold setListenWindowUntil. frame_steps. Qed.

Lemma grows_setSpeakingUntil (t : Z) : grows (setSpeakingUntil t).
Proof. unfold setSpeakingUntil. frame_steps. Qed.

Lemma grows_setRecentTtsText (t : jsstring) : grows (setRecentTtsText t).
Proof. unfold setRecentTtsText. frame_steps. Qed.

Lemma grows_call (s : Step) : grows (call env s).
Proof. unfold call. frame_steps. Qed.

Lemma grows_runDispatcher (events : list DispatchEvent) :
  forall c, grows (runDispatcher events c).
Proof.
  induction events as [|[p|] events IH]; intros c; simpl; frame_steps.
Qed.

Hint Resolve grows_setListenWindowUntil grows_setSpeakingUntil
  grows_setRecentTtsText grows_call grows_runDispatcher : handlers.

Lemma grows_processInboundMessage (body : jsstring) (media : option MediaRef) :
  grows (processInboundMessage env body media).
Proof. unfold processInboundMessage. frame_steps. Qed.

Hint Resolve grows_processInboundMessage : handlers.

Lemma grows_apologize (e : Failure) : grows (apologize env e).
Proof. unfold apologize. frame_steps. Qed.

Lemma grows_replyToCommand (cmd : jsstring) : grows (replyToCommand env cmd).
Proof. unfold replyToCommand. frame_steps. Qed.

Lemma grows_respond (cmd : jsstring) : grows (respond env cmd).
Proof.
  unfold respond. apply grows_tryCatch;
    [apply grows_replyToCommand | apply grows_apologize].
Qed.

(** The first thing done for an accepted command is the acknowledgment on
    track 1, whatever happens afterwards. *)
Lemma respond_acknowledges (cmd : jsstring) (w : World) :
  exists l,
    trace (snd (respond env cmd w)) = trace w ++ ESpeak ackText 1 false :: l.
Proof.
  unfold respond, replyToCommand.
  set (rest := bind (call env LoadConfig) _).
  assert (G : grows (tryCatch rest (apologize env))).
  { apply grows_tryCatch; [|apply grows_apologize]. unfold rest. frame_steps. }
  destruct w as [ls tk sp tr]. unfold tryCatch, bind, speak.
  cbn [listen ticks spoken trace].
  destruct (speakRejects env sp).
  - destruct (G (mkWorld ls tk (S sp)
                   (tr ++ [ESpeak ackText 1 false;
                           EUnhandledRejection SpeakFailed]))) as [l E].
    unfold tryCatch in E. exists (EUnhandledRejection SpeakFailed :: l).
    destruct (rest _) as [[[]|e] w1]; cbn [snd trace] in *;
      rewrite E, <- app_assoc; reflexivity.
  - destruct (G (mkWorld ls tk (S sp) (tr ++ [ESpeak ackText 1 false])))
      as [l E].
    unfold tryCatch in E. exists l.
    destruct (rest _) as [[[]|e] w1]; cbn [snd trace] in *;
      rewrite E, <- app_assoc; reflexivity.
Qed.

(** The rejection of the acknowledgment is the one error that no [catch]
    block sees: whenever the device rejects the [speak] that is not awaited,
    the rejection leaves the handler unhandled, right after the request. *)
Lemma acknowledgment_rejection_is_unhandled (cmd : jsstring) (w : World) :
  speakRejects env (spoken w) = true ->
  exists l,
    trace (snd (respond env cmd w))
    = trace w ++ [ESpeak ackText 1 false; EUnhandledRejection SpeakFailed] ++ l.
Proof.
  intros Hs. unfold respond, replyToCommand.
  set (rest := bind (call env LoadConfig) _).
  assert (G : grows (tryCatch rest (apologize env))).
  { apply grows_tryCatch; [|apply grows_apologize]. unfold rest. frame_steps. }
  destruct w as [ls tk sp tr]. cbn [spoken] in Hs.
  unfold tryCatch, bind, speak. cbn [listen ticks spoken trace]. rewrite Hs.
  destruct (G (mkWorld ls tk (S sp)
                 (tr ++ [ESpeak ackText 1 false;
                         EUnhandledRejection SpeakFailed]))) as [l E].
  unfold tryCatch in E. exists l.
  destruct (rest _) as [[[]|e] w1]; cbn [snd trace] in *;
    rewrite E, <- app_assoc; reflexivity.
Qed.

End Frames.

Section GateDecisions.

Variable env : Env.

(** The filter never throws. *)
Lemma voiceGate_returns (data : TranscriptionData) (w : World) :
  exists d w', voiceGate env data w = (Ok d, w').
Proof.
  destruct w as [[lw su rt] tk sp tr]. unfold voiceGate.
  repeat match goal with
         | |- context [if ?c then _ else _] => destruct c; run_m
         end; eauto.
Qed.

(** C10: an event the filter turns down (not final or blank, heard while the
    reply is presumed playing, or without wake word outside the listen
    window) changes none of [listenWindowUntil], [speakingUntil] and
    [recentTtsText]; an echo rejection changes the listen state only by
    clearing [recentTtsText].  In every one of these cases the handler ends
    there: no [speak] is issued (no acknowledgment, no spoken output), and
    the trace grows by console lines only (no dispatch). *)
Theorem C10_rejections_frame (data : TranscriptionData) (w w' : World)
    (d : GateDecision) :
  voiceGate env data w = (Ok d, w') ->
  isRejection d = true ->
  listen w'
  = match d with
    | SuppressedEcho =>
        mkListen (listenWindowUntil (listen w)) (speakingUntil (listen w)) []
    | _ => listen w
    end
  /\ spoken w' = spoken w
  /\ (exists logs, trace w' = trace w ++ logs /\ forallb isLog logs = true)
  /\ onTranscription env data w = (Ok tt, w').
Proof.
  intros H Hrej.
  assert (Hon : onTranscription env data w = (Ok tt, w')).
  { unfold onTranscription, bind. rewrite H.
    destruct d; try discriminate; reflexivity. }
  destruct w as [[lw su rt] tk sp tr]. unfold voiceGate in H.
  repeat match type of H with
         | context [if ?c then _ else _] => destruct c; run_m_in H
         end;
    injection H as <- <-; try discriminate Hrej;
    cbn [listen spoken trace listenWindowUntil speakingUntil];
    (repeat split; try exact Hon);
    first [ exists []; split; [now rewrite app_nil_r | reflexivity]
          | eexists; split; reflexivity ].
Qed.

End GateDecisions.

Lemma C10_rejections_frame_witness :
  listen (snd (voiceGate (sampleEnv (fun _ => 100%Z) noFailure [])
                 (heard "for")
                 (mkWorld (mkListen 0 0 (lit "for you")) 0 0 [])))
  = mkListen 0 0 [].
Proof.
  apply (C10_rejections_frame
    (sampleEnv (fun _ => 100%Z) noFailure []) (heard "for")
    (mkWorld (mkListen 0 0 (lit "for you")) 0 0 [])
    (mkWorld (mkListen 0 0 []) 1 0 [ELog LogSuppressedEcho])
    SuppressedEcho); reflexivity.
Defined.

Section Acceptance.

Variable env : Env.

Lemma dispatch_in_pipelineEffects (body : jsstring) (media : option MediaRef) :
  In (EDispatch body (contextMedia media)) (pipelineEffects env body media).
Proof.
  unfold pipelineEffects. repeat rewrite in_app_iff. simpl. tauto.
Qed.

(** When no call into the host fails, an accepted command reaches the reply
    dispatcher, whether or not the device then takes the spoken reply. *)
Lemma respond_dispatches (cmd : jsstring) (w : World) :
  (forall s, fails env s = false) ->
  In (EDispatch cmd None) (trace (snd (respond env cmd w))).
Proof.
  intros Hf. destruct w as [ls tk sp tr].
  pose proof (dispatch_in_pipelineEffects cmd None) as Hd.
  change (contextMedia None) with (@None MediaRef) in Hd.
  unfold respond, replyToCommand, apologize. run_m.
  destruct (speakRejects env sp); run_m; rewrite !Hf;
    rewrite processInboundMessage_ok by exact Hf; run_m;
    repeat match goal with
           | |- context [if ?c then _ else _] => destruct c; run_m
           end;
    repeat rewrite in_app_iff; tauto.
Qed.

(** The filter lets an event through under the conditions of its last two
    tests. *)
Lemma voiceGate_accepts (data : TranscriptionData) (t : jsstring) (w : World) :
  isFinal data = true ->
  text data = Some t ->
  trim t <> [] ->
  test stopPattern (trim t) = false ->
  (speakingUntil (listen w) <= clock env (ticks w))%Z ->
  isEcho (recentTtsText (listen w)) (trim t) = false ->
  (test wakePattern (trim t) = true
   \/ (clock env (S (ticks w)) < listenWindowUntil (listen w))%Z) ->
  exists followUp,
    voiceGate env data w
    = (Ok (Accepted (extractCommand (trim t))),
       mkWorld (listen w) (S (S (ticks w))) (spoken w)
         (trace w ++ [ELog (LogTranscription followUp
                              (extractCommand (trim t)))])).
Proof.
  intros Hfin Htxt Hne Hstop Hsu Hecho Hwake.
  destruct w as [[lw su rt] tk sp tr].
  cbn [listen ticks speakingUntil recentTtsText listenWindowUntil] in *.
  unfold voiceGate. rewrite Hfin, Htxt. cbn [option_map negb orb].
  remember (trim t) as raw eqn:Eraw.
  destruct raw as [|c r]; [contradiction|].
  cbn [truthy negb]. rewrite Hstop. run_m.
  apply Z.ltb_ge in Hsu. rewrite Hsu, Hecho.
  destruct (test wakePattern (c :: r)) eqn:Ew;
    destruct (clock env (S tk) <? lw)%Z eqn:El; cbn [negb andb];
    try (eexists; reflexivity).
  destruct Hwake as [Hw|Hw]; [discriminate|].
  apply Z.ltb_lt in Hw. congruence.
Qed.

(** Without wake word and at or past the end of the listen window the event
    is turned down. *)
Lemma voiceGate_outside_window (data : TranscriptionData) (t : jsstring)
    (w : World) :
  isFinal data = true ->
  text data = Some t ->
  trim t <> [] ->
  test stopPattern (trim t) = false ->
  (speakingUntil (listen w) <= clock env (ticks w))%Z ->
  isEcho (recentTtsText (listen w)) (trim t) = false ->
  test wakePattern (trim t) = false ->
  (listenWindowUntil (listen w) <= clock env (S (ticks w)))%Z ->
  voiceGate env data w
  = (Ok NoWakeWord,
     mkWorld (listen w) (S (S (ticks w))) (spoken w)
             (trace w ++ [ELog LogNoWake])).
Proof.
  intros Hfin Htxt Hne Hstop Hsu Hecho Hwake Hlw.
  destruct w as [[lw su rt] tk sp tr].
  cbn [listen ticks speakingUntil recentTtsText listenWindowUntil] in *.
  unfold voiceGate. rewrite Hfin, Htxt. cbn [option_map negb orb].
  remember (trim t) as raw eqn:Eraw.
  destruct raw as [|c r]; [contradiction|].
  cbn [truthy negb]. rewrite Hstop. run_m.
  apply Z.ltb_ge in Hsu. apply Z.ltb_ge in Hlw.
  rewrite Hsu, Hecho, Hwake, Hlw. reflexivity.
Qed.

(** The listen window after a reply at [T]: an utterance without wake word
    that gets through the suppression and echo tests is taken as it is when
    the clock reads [T + 29000], and turned down when it reads [T + 31000]. *)
Lemma follow_up_at (data : TranscriptionData) (t : jsstring) (w : World)
    (T time : Z) :
  isFinal data = true ->
  text data = Some t ->
  trim t <> [] ->
  test stopPattern (trim t) = false ->
  isEcho (recentTtsText (listen w)) (trim t) = false ->
  test wakePattern (trim t) = false ->
  listenWindowUntil (listen w) = (T + LISTEN_WINDOW_MS)%Z ->
  clock env (ticks w) = time -> clock env (S (ticks w)) = time ->
  (speakingUntil (listen w) <= time)%Z ->
  (time = (T + 29000)%Z -> fst (voiceGate env data w) = Ok (Accepted (trim t)))
  /\ (time = (T + 31000)%Z -> fst (voiceGate env data w) = Ok NoWakeWord).
Proof.
  intros Hfin Htxt Hne Hstop Hecho Hwake Hlw Hc1 Hc2 Hsu.
  unfold LISTEN_WINDOW_MS in Hlw. split; intros Ht.
  - destruct (voiceGate_accepts data t w) as [f ->]; try assumption.
    + rewrite Hc1. exact Hsu.
    + right. rewrite Hc2, Hlw. lia.
    + cbn [fst]. unfold extractCommand. now rewrite Hwake.
  - rewrite (voiceGate_outside_window data t w); try assumption.
    + reflexivity.
    + rewrite Hc1. exact Hsu.
    + rewrite Hc2, Hlw. lia.
Qed.

(** C1: a final transcription whose trimmed text is not empty and not a stop
    command passes the filter when the clock read for the suppression check
    is at or past [speakingUntil], the echo check does not fire, and the wake
    pattern matches or the clock read for the window check is strictly before
    [listenWindowUntil].  The listen state is left as it was, the command
    text is extracted, the acknowledgment is spoken, and the command goes to
    the agent pipeline, where it reaches the reply dispatcher when no call
    into the host fails. *)
Theorem C1_gate_accepts (data : TranscriptionData) (t : jsstring) (w : World) :
  isFinal data = true ->
  text data = Some t ->
  trim t <> [] ->
  test stopPattern (trim t) = false ->
  (speakingUntil (listen w) <= clock env (ticks w))%Z ->
  isEcho (recentTtsText (listen w)) (trim t) = false ->
  (test wakePattern (trim t) = true
   \/ (clock env (S (ticks w)) < listenWindowUntil (listen w))%Z) ->
  exists followUp l,
    let cmd := extractCommand (trim t) in
    let w1 := mkWorld (listen w) (S (S (ticks w))) (spoken w)
                (trace w ++ [ELog (LogTranscription followUp cmd)]) in
    voiceGate env data w = (Ok (Accepted cmd), w1)
    /\ onTranscription env data w = respond env cmd w1
    /\ trace (snd (onTranscription env data w))
       = trace w1 ++ ESpeak ackText 1 false :: l
    /\ ((forall s, fails env s = false) ->
        In (EDispatch cmd None) (trace (snd (onTranscription env data w)))).
Proof.
  intros Hfin Htxt Hne Hstop Hsu Hecho Hwake.
  set (cmd := extractCommand (trim t)).
  pose proof (voiceGate_accepts data t w Hfin Htxt Hne Hstop Hsu Hecho Hwake)
    as Hgate.
  fold cmd in Hgate.
  destruct Hgate as [followUp Hgate].
  assert (Hon : onTranscription env data w
                = respond env cmd
                    (mkWorld (listen w) (S (S (ticks w))) (spoken w)
                       (trace w ++ [ELog (LogTranscription followUp cmd)]))).
  { unfold onTranscription, bind. now rewrite Hgate. }
  destruct (respond_acknowledges env cmd
              (mkWorld (listen w) (S (S (ticks w))) (spoken w)
                 (trace w ++ [ELog (LogTranscription followUp cmd)])))
    as [l Hl].
  exists followUp, l. cbn zeta. rewrite Hon.
  repeat split; try assumption.
  intros Hf. now apply respond_dispatches.
Qed.

End Acceptance.

Lemma C1_gate_accepts_witness :
  exists followUp l,
    voiceGate (sampleEnv (fun _ => 61000%Z) noFailure [say "Six"])
      (heard "what about three plus three")
      (mkWorld (mkListen 62000 50000 (lit "Four")) 0 0 [])
    = (Ok (Accepted (extractCommand (trim (lit "what about three plus three")))),
       mkWorld (mkListen 62000 50000 (lit "Four")) 2 0
         ([] ++ [ELog (LogTranscription followUp
                  (extractCommand (trim (lit "what about three plus three"))))]))
    /\ onTranscription (sampleEnv (fun _ => 61000%Z) noFailure [say "Six"])
         (heard "what about three plus three")
         (mkWorld (mkListen 62000 50000 (lit "Four")) 0 0 [])
       = respond (sampleEnv (fun _ => 61000%Z) noFailure [say "Six"])
           (extractCommand (trim (lit "what about three plus three")))
           (mkWorld (mkListen 62000 50000 (lit "Four")) 2 0
              ([] ++ [ELog (LogTranscription followUp
                  (extractCommand (trim (lit "what about three plus three"))))]))
    /\ trace (snd (onTranscription
                (sampleEnv (fun _ => 61000%Z) noFailure [say "Six"])
                (heard "what about three plus three")
                (mkWorld (mkListen 62000 50000 (lit "Four")) 0 0 [])))
       = ([] ++ [ELog (LogTranscription followUp
                  (extractCommand (trim (lit "what about three plus three"))))])
         ++ ESpeak ackText 1 false :: l
    /\ ((forall s, fails (sampleEnv (fun _ => 61000%Z) noFailure [say "Six"]) s
                   = false) ->
        In (EDispatch (extractCommand (trim (lit "what about three plus three")))
              None)
           (trace (snd (onTranscription
                (sampleEnv (fun _ => 61000%Z) noFailure [say "Six"])
                (heard "what about three plus three")
                (mkWorld (mkListen 62000 50000 (lit "Four")) 0 0 []))))).
Proof.
  apply (C1_gate_accepts
    (sampleEnv (fun _ => 61000%Z) noFailure [say "Six"])
    (heard "what about three plus three")
    (lit "what about three plus three")
    (mkWorld (mkListen 62000 50000 (lit "Four")) 0 0 []));
    try reflexivity.
  - discriminate.
  - cbn. lia.
  - right. cbn. lia.
Defined.

(* ================================================================== *)
(** * Errors at the utterance and photo boundary *)
(* ================================================================== *)

Section Errors.

Variable env : Env.

(** The [catch] block ends normally whether or not the apology can be
    spoken, and asks the device to speak it on the response track. *)
Lemma apologize_spec (e : Failure) (w : World) :
  exists l,
    apologize env e w
    = (Ok tt,
       mkWorld (listen w) (ticks w) (S (spoken w))
         (trace w ++ [ELog (ErrProcessingTranscription e);
                      ESpeak apologyText 2 true] ++ l))
    /\ forallb isLog l = true.
Proof.
  destruct w as [ls tk sp tr]. unfold apologize. run_m.
  destruct (speakRejects env sp); run_m.
  - exists [ELog (ErrSendingErrorTts SpeakFailed)].
    split; [|reflexivity]. now rewrite <- !app_assoc.
  - exists []. split; [|reflexivity]. now rewrite <- !app_assoc.
Qed.

Lemma apologizePhoto_spec (e : Failure) (w : World) :
  exists l,
    apologizePhoto env e w
    = (Ok tt,
       mkWorld (listen w) (ticks w) (S (spoken w))
         (trace w ++ [ELog (ErrProcessingPhoto e);
                      ESpeak photoApologyText 2 true] ++ l))
    /\ forallb isLog l = true.
Proof.
  destruct w as [ls tk sp tr]. unfold apologizePhoto. run_m.
  destruct (speakRejects env sp); run_m.
  - exists [ELog (ErrSendingPhotoErrorTts SpeakFailed)].
    split; [|reflexivity]. now rewrite <- !app_assoc.
  - exists []. split; [|reflexivity]. now rewrite <- !app_assoc.
Qed.

(** Route resolution, the dispatch and the spoken reply each throw inside
    the [try] block when they fail. *)
Lemma replyToCommand_throws (cmd : jsstring) (w : World) :
  (fails env LoadConfig = false -> fails env ResolveAgentRoute = true ->
   exists w1,
     replyToCommand env cmd w = (Threw (StepFailed ResolveAgentRoute), w1))
  /\ ((forall s, s <> DispatchReply -> fails env s = false) ->
      fails env DispatchReply = true ->
      exists w1,
        replyToCommand env cmd w = (Threw (StepFailed DispatchReply), w1))
  /\ ((forall s, fails env s = false) ->
      truthy (collected (agent env cmd None)) = true ->
      speakRejects env (S (spoken w)) = true ->
      exists w1, replyToCommand env cmd w = (Threw SpeakFailed, w1)).
Proof.
  destruct w as [ls tk sp tr]. repeat split.
  - intros Hl Hr. unfold replyToCommand, processInboundMessage. run_m.
    destruct (speakRejects env sp); run_m;
      rewrite Hl, Hr; run_m; eexists; reflexivity.
  - intros Hf Hd. unfold replyToCommand, processInboundMessage. run_m.
    destruct (speakRejects env sp); run_m;
      repeat match goal with
             | |- context [fails env ?s] =>
                 first [rewrite Hd | rewrite (Hf s) by discriminate]; run_m
             end;
      destruct (recordErrorReported env); run_m;
      rewrite runDispatcher_spec; run_m; eexists; reflexivity.
  - intros Hf Hr Hs. cbn [spoken] in Hs. unfold replyToCommand. run_m.
    destruct (speakRejects env sp); run_m;
      rewrite !Hf; rewrite processInboundMessage_ok by exact Hf; run_m;
      change (contextMedia None) with (@None MediaRef);
      rewrite Hr; run_m; rewrite Hr; run_m; rewrite Hs;
      eexists; reflexivity.
Qed.

(** Both handlers end normally, whatever the event and the environment. *)
Lemma handlers_return :
  (forall data w, exists w', onTranscription env data w = (Ok tt, w'))
  /\ (forall photo w, exists w', onPhoto env photo w = (Ok tt, w')).
Proof.
  split.
  - intros data w. unfold onTranscription, bind.
    destruct (voiceGate_returns env data w) as (d & w1 & ->).
    destruct d; try (eexists; reflexivity).
    unfold respond, tryCatch.
    destruct (replyToCommand env cmd w1) as [[[]|e] w2]; [now eauto|].
    destruct (apologize_spec e w2) as (l & -> & _). now eauto.
  - intros photo w. unfold onPhoto, tryCatch. run_m.
    destruct (replyToPhoto env photo _) as [[[]|e] w1]; [now eauto|].
    destruct (apologizePhoto_spec e w1) as (l & -> & _). now eauto.
Qed.

(** What is thrown inside a [try] block is caught: the handler logs it, asks
    the device to speak its apology on the response track, keeps the listen
    state it had at the throw, and ends normally, also when the apology
    itself cannot be spoken.  For the photo handler the [try] block starts
    after the line that announces the photo. *)
Lemma thrown_errors_are_answered :
  (forall cmd w e w1,
     replyToCommand env cmd w = (Threw e, w1) ->
     exists l,
       respond env cmd w
       = (Ok tt,
          mkWorld (listen w1) (ticks w1) (S (spoken w1))
            (trace w1 ++ [ELog (ErrProcessingTranscription e);
                          ESpeak apologyText 2 true] ++ l))
       /\ forallb isLog l = true)
  /\ (forall photo w e w1,
        replyToPhoto env photo
          (mkWorld (listen w) (ticks w) (spoken w) (trace w ++ [ELog LogPhoto]))
        = (Threw e, w1) ->
        exists l,
          onPhoto env photo w
          = (Ok tt,
             mkWorld (listen w1) (ticks w1) (S (spoken w1))
               (trace w1 ++ [ELog (ErrProcessingPhoto e);
                             ESpeak photoApologyText 2 true] ++ l))
          /\ forallb isLog l = true)
  /\ apologyText <> photoApologyText.
Proof.
  split; [|split].
  - intros cmd w e w1 H. unfold respond, tryCatch. rewrite H.
    apply apologize_spec.
  - intros photo w e w1 H. unfold onPhoto, tryCatch. run_m.
    destruct w as [ls tk sp tr]. cbn [listen ticks spoken trace] in H.
    rewrite H. apply apologizePhoto_spec.
  - discriminate.
Qed.

End Errors.

(** C9 fails on the code for the acknowledgment.  The [speak] of "Hmm" is
    not awaited and has no rejection handler, so when the device rejects it
    the error is not caught at the utterance boundary: it leaves the handler
    as an unhandled rejection, nothing is logged for it and no apology is
    spoken.  The same rejection of the awaited [speak] of the reply, one
    call later, is caught, logged and answered with the apology. *)
Theorem C9_acknowledgment_rejection_escapes :
  let utterance := heard "Hey Mentra what's two plus two" in
  let ackRejected := rejectingSpeak 0 (fun _ => 5000%Z) [say "Four"] in
  let replyRejected := rejectingSpeak 1 (fun _ => 5000%Z) [say "Four"] in
  onTranscription ackRejected utterance initialWorld
  = (Ok tt,
     mkWorld (mkListen 35000 7000 (lit "Four")) 7 2
       ([ELog (LogTranscription false (lit "what's two plus two"));
         ESpeak ackText 1 false; EUnhandledRejection SpeakFailed;
         ECall LoadConfig; ECall LoadConfig]
        ++ pipelineEffects ackRejected (lit "what's two plus two") None
        ++ [ELog LogSendingReply; ESpeak (lit "Four") 2 true]))
  /\ onTranscription replyRejected utterance initialWorld
     = (Ok tt,
        mkWorld (mkListen 0 7000 (lit "Four")) 6 3
          ([ELog (LogTranscription false (lit "what's two plus two"));
            ESpeak ackText 1 false; ECall LoadConfig; ECall LoadConfig]
           ++ pipelineEffects replyRejected (lit "what's two plus two") None
           ++ [ELog LogSendingReply; ESpeak (lit "Four") 2 true;
               ELog (ErrProcessingTranscription SpeakFailed);
               ESpeak apologyText 2 true])).
Proof. split; reflexivity. Qed.

Example errors_are_answered_with_the_apology :
  (* route resolution throws *)
  trace (snd (onTranscription
    (sampleEnv (fun _ => 0%Z) (failingAt ResolveAgentRoute) [say "Four"])
    (heard "Hey Mentra what's two plus two") initialWorld))
  = [ELog (LogTranscription false (lit "what's two plus two"));
     ESpeak ackText 1 false; ECall LoadConfig; ECall LoadConfig;
     ECall ResolveAgentRoute;
     ELog (ErrProcessingTranscription (StepFailed ResolveAgentRoute));
     ESpeak apologyText 2 true]
  (* the device rejects the spoken reply, and then the apology as well *)
  /\ respond
       (mkEnv (fun _ => 0%Z) noFailure false (fun _ _ => [say "Four"])
              (lit "/tmp/photo.jpg") (fun k => Nat.leb 1 k))
       (lit "what's two plus two") initialWorld
     = (Ok tt,
        mkWorld (mkListen 0 2000 (lit "Four")) 4 3
          ([ESpeak ackText 1 false; ECall LoadConfig; ECall LoadConfig]
           ++ pipelineEffects
                (mkEnv (fun _ => 0%Z) noFailure false (fun _ _ => [say "Four"])
                       (lit "/tmp/photo.jpg") (fun k => Nat.leb 1 k))
                (lit "what's two plus two") None
           ++ [ELog LogSendingReply; ESpeak (lit "Four") 2 true;
               ELog (ErrProcessingTranscription SpeakFailed);
               ESpeak apologyText 2 true;
               ELog (ErrSendingErrorTts SpeakFailed)])).
Proof. split; reflexivity. Qed.

(* ================================================================== *)
(** * Echo state around a spoken reply *)
(* ================================================================== *)

Section PhotoFrame.

Variable env : Env.

Lemma keeps_ret {A} (a : A) : keepsListen (ret a).
Proof. intros w. reflexivity. Qed.

Lemma keeps_throw {A} (e : Failure) : keepsListen (@throw A e).
Proof. intros w. reflexivity. Qed.

Lemma keeps_bind {A B} (c : M A) (f : A -> M B) :
  keepsListen c -> (forall a, keepsListen (f a)) -> keepsListen (bind c f).
Proof.
  intros Hc Hf w. unfold bind. specialize (Hc w).
  destruct (c w) as [[a|e] w1]; simpl in *; [|exact Hc].
  now rewrite Hf.
Qed.

Lemma keeps_tryCatch {A} (c : M A) (h : Failure -> M A) :
  keepsListen c -> (forall e, keepsListen (h e)) -> keepsListen (tryCatch c h).
Proof.
  intros Hc Hh w. unfold tryCatch. specialize (Hc w).
  destruct (c w) as [[a|e] w1]; simpl in *; [exact Hc|].
  now rewrite Hh.
Qed.

Lemma keeps_emit (e : Effect) : keepsListen (emit e).
Proof. intros w. reflexivity. Qed.

Lemma keeps_log (l : LogLine) : keepsListen (log l).
Proof. intros w. reflexivity. Qed.

Lemma keeps_now : keepsListen (now env).
Proof. intros w. reflexivity. Qed.

Lemma keeps_speak (a : bool) (t : jsstring) (k : Z) (b : bool) :
  keepsListen (speak env a t k b).
Proof.
  intros w. unfold speak.
  destruct a, (speakRejects env (spoken w)); reflexivity.
Qed.

Hint Resolve keeps_ret keeps_throw keeps_emit keeps_log keeps_now
  keeps_speak : handlers.

Ltac keep_steps :=
  repeat first
    [ progress auto with handlers
    | apply keeps_bind; [|intros]
    | apply keeps_tryCatch; [|intros]
    | match goal with
      | |- keepsListen (if ?b then _ else _) => destruct b
      | |- keepsListen (match ?x with _ => _ end) => destruct x
      end ].

Lemma keeps_call (s : Step) : keepsListen (call env s).
Proof. unfold call. keep_steps. Qed.

Lemma keeps_runDispatcher (events : list DispatchEvent) :
  forall c, keepsListen (runDispatcher events c).
Proof.
  induction events as [|[p|] events IH]; intros c; simpl; keep_steps.
Qed.

Hint Resolve keeps_call keeps_runDispatcher : handlers.

(** The pipeline never touches the listen state. *)
Lemma keeps_processInboundMessage (body : jsstring) (media : option MediaRef) :
  keepsListen (processInboundMessage env body media).
Proof. unfold processInboundMessage. keep_steps. Qed.

Hint Resolve keeps_processInboundMessage : handlers.

(** The photo handler leaves [listenWindowUntil], [speakingUntil] and
    [recentTtsText] as they were, whether or not it speaks a reply. *)
Lemma keeps_onPhoto (photo : PhotoTaken) : keepsListen (onPhoto env photo).
Proof. unfold onPhoto, replyToPhoto, apologizePhoto. keep_steps. Qed.

(** The reply to an accepted command: with no failing call and a device that
    takes the acknowledgment and the reply, the echo text is the reply, [speakingUntil] is the clock
    read before speaking plus the estimate, and [listenWindowUntil] is the
    clock read after speaking plus the window. *)
Lemma voice_reply_sets_listen_state (cmd : jsstring) (w : World) :
  (forall s, fails env s = false) ->
  speakRejects env (spoken w) = false ->
  speakRejects env (S (spoken w)) = false ->
  let reply := collected (agent env cmd None) in
  truthy reply = true ->
  respond env cmd w
  = (Ok tt,
     mkWorld
       (mkListen (clock env (4 + ticks w) + LISTEN_WINDOW_MS)
                 (clock env (3 + ticks w) + estimateTtsDurationMs reply)
                 reply)
       (5 + ticks w) (2 + spoken w)
       (trace w ++ [ESpeak ackText 1 false; ECall LoadConfig; ECall LoadConfig]
          ++ pipelineEffects env cmd None
          ++ [ELog LogSendingReply; ESpeak reply 2 true])).
Proof.
  intros Hf Hs0 Hs reply Hr. destruct w as [[lw su rt] tk sp tr].
  cbn [spoken] in Hs0, Hs.
  unfold respond, replyToCommand. run_m. rewrite Hs0. run_m. rewrite !Hf.
  rewrite processInboundMessage_ok by exact Hf. run_m.
  change (contextMedia None) with (@None MediaRef). fold reply.
  rewrite Hr. run_m. rewrite Hr. run_m. rewrite Hs.
  repeat rewrite <- app_assoc. reflexivity.
Qed.

End PhotoFrame.

Example follow_up_window :
  (* after a reply spoken at T = 5000 the window closes at 35000 *)
  let env := sampleEnv (fun _ => 5000%Z) noFailure [say "Four"] in
  let afterReply :=
    snd (onTranscription env (heard "Hey Mentra what's two plus two")
           initialWorld) in
  listen afterReply = mkListen 35000 7000 (lit "Four")
  /\ fst (voiceGate (sampleEnv (fun _ => 34000%Z) noFailure [say "Six"])
            (heard "what about three plus three") afterReply)
     = Ok (Accepted (lit "what about three plus three"))
  /\ fst (voiceGate (sampleEnv (fun _ => 36000%Z) noFailure [say "Six"])
            (heard "what about three plus three") afterReply)
     = Ok NoWakeWord.
Proof. repeat split; reflexivity. Qed.

(** C6 fails on the photo path: the photo handler speaks the reply without
    recording it as the echo text and without moving [speakingUntil] or
    [listenWindowUntil], which the transcription handler does for the same
    reply at the same clock. *)
Theorem C6_photo_reply_leaves_listen_state :
  let env := sampleEnv (fun _ => 5000%Z) noFailure [say "A red mug on a desk"] in
  let afterPhoto := snd (onPhoto env (mkPhoto [] None) initialWorld) in
  let afterVoice :=
    snd (onTranscription env (heard "Hey Mentra what do you see") initialWorld) in
  trace afterPhoto
  = [ELog LogPhoto; ECall SaveMediaBuffer; ECall LoadConfig; ECall LoadConfig;
     ECall ResolveAgentRoute; ECall ResolveStorePath;
     ECall ResolveEnvelopeFormatOptions; ECall FormatInboundEnvelope;
     ECall FinalizeInboundContext; ECall RecordInboundSession;
     ECall RecordSessionMetaFromInbound; ECall RecordActivity;
     ECall ResolveEffectiveMessagesConfig; ECall ResolveHumanDelayConfig;
     EDispatch photoBody
       (Some (mkMedia (lit "/tmp/photo.jpg") (lit "image/jpeg")));
     ELog LogReplyDispatched;
     ESpeak (lit "A red mug on a desk") 2 true]
  /\ listen afterPhoto = mkListen 0 0 []
  /\ listen afterVoice = mkListen 35000 7000 (lit "A red mug on a desk").
Proof. repeat split; reflexivity. Qed.

(* ================================================================== *)
(** * Failures of the recording steps *)
(* ================================================================== *)

Section Recording.

Variable env : Env.

(** A failure that [recordInboundSession] reports through [onRecordError] is
    written to the console and the pipeline goes on. *)
Lemma reported_record_error_continues (body : jsstring)
    (media : option MediaRef) (w : World) :
  (forall s, fails env s = false) ->
  recordErrorReported env = true ->
  exists r w',
    processInboundMessage env body media w = (Ok r, w')
    /\ In (ELog ErrRecordingSession) (trace w')
    /\ In (EDispatch body (contextMedia media)) (trace w').
Proof.
  intros Hf Hr. rewrite processInboundMessage_ok by exact Hf.
  do 2 eexists. split; [reflexivity|].
  unfold pipelineEffects. rewrite Hr. cbn [trace].
  repeat rewrite in_app_iff. simpl. tauto.
Qed.

(** A rejection of [recordSessionMetaFromInbound] ends the pipeline before
    the dispatch. *)
Lemma record_meta_rejection_aborts (body : jsstring)
    (media : option MediaRef) (w : World) :
  fails env RecordSessionMetaFromInbound = true ->
  (exists e, fst (processInboundMessage env body media w) = Threw e)
  /\ (forall b md, ~ In (EDispatch b md) (trace w) ->
      ~ In (EDispatch b md)
           (trace (snd (processInboundMessage env body media w)))).
Proof.
  intros Hm. destruct w as [ls tk sp tr].
  unfold processInboundMessage. run_m. rewrite Hm.
  repeat match goal with
         | |- context [fails env ?s] => destruct (fails env s); run_m
         end;
    destruct (recordErrorReported env); run_m;
    (split; [eexists; reflexivity|]);
    intros b md Hn; repeat rewrite in_app_iff; simpl;
    intuition discriminate.
Qed.

End Recording.

(** C8 fails on the code: when the session-metadata write rejects, the
    pipeline throws at that step, the dispatch never runs, and the user
    hears the apology instead of the agent's reply. *)
Theorem C8_record_meta_failure_aborts :
  let env := sampleEnv (fun _ => 5000%Z)
               (failingAt RecordSessionMetaFromInbound) [say "Four"] in
  fst (processInboundMessage env (lit "what's two plus two") None initialWorld)
  = Threw (StepFailed RecordSessionMetaFromInbound)
  /\ onTranscription env (heard "Hey Mentra what's two plus two") initialWorld
     = (Ok tt,
        mkWorld initialListen 5 2
          [ELog (LogTranscription false (lit "what's two plus two"));
           ESpeak ackText 1 false; ECall LoadConfig; ECall LoadConfig;
           ECall ResolveAgentRoute; ECall ResolveStorePath;
           ECall ResolveEnvelopeFormatOptions; ECall FormatInboundEnvelope;
           ECall FinalizeInboundContext; ECall RecordInboundSession;
           ECall RecordSessionMetaFromInbound;
           ELog (ErrProcessingTranscription
                   (StepFailed RecordSessionMetaFromInbound));
           ESpeak apologyText 2 true]).
Proof. split; reflexivity. Qed.

(* ================================================================== *)
(** * The echo check *)
(* ================================================================== *)

Example norm_examples :
  norm (lit "The weather, today: is SUNNY!") = lit "the weather today is sunny"
  /\ norm (lit "unhappy - endless") = lit "unhappy  endless"
  /\ normSpec (lit "unhappy - endless") = lit "unhappy endless".
Proof. repeat split; reflexivity. Qed.

(** C3, as stated, fails twice.  The code trims but does not collapse white
    space: stripping the dash leaves two spaces in the spoken text, so the
    candidate is not found in it although it is found after collapsing.  And
    while [recentTtsText] is empty nothing is an echo, although every
    normalised string contains the empty one. *)
Lemma C3_counterexample :
  (isEchoSpec (lit "unhappy - endless") (lit "happy end") = true
   /\ isEcho (lit "unhappy - endless") (lit "happy end") = false)
  /\ (isEchoSpec [] (lit "hello") = true /\ isEcho [] (lit "hello") = false).
Proof. repeat split; reflexivity. Qed.

Lemma splitWs_length (s : jsstring) : Nat.eqb (length (splitWs s)) 0 = false.
Proof.
  unfold splitWs. destruct (splitGo_cons false s) as (p & ps & ->). reflexivity.
Qed.

(** C3 (amended): the echo check lower-cases both texts, strips every unit
    other than a-z, 0-9 and white space, and trims them (runs of white space
    inside are kept).  With a non-empty [recentTtsText] it rejects the
    candidate exactly when either normalised string contains the other or
    more than 0.6 of the candidate words are words of the spoken text; with
    an empty [recentTtsText] it rejects nothing.  A rejection by echo clears
    [recentTtsText], after which no utterance is an echo.  With the spoken
    text "the weather today is sunny", "weather today is sunny" is rejected
    and "what time is it" is not. *)
Theorem C3_echo_check (recent candidate : jsstring) :
  let ttsNorm := norm recent in
  let textNorm := norm candidate in
  let textWords := splitWs textNorm in
  let overlap := length (filter (has (splitWs ttsNorm)) textWords) in
  (isEcho recent candidate = true <->
   recent <> []
   /\ (contains ttsNorm textNorm \/ contains textNorm ttsNorm
       \/ (3 * Z.of_nat (length textWords) < 5 * Z.of_nat overlap)%Z))
  /\ (forall env data t w,
        isFinal data = true ->
        text data = Some t ->
        trim t <> [] ->
        test stopPattern (trim t) = false ->
        (speakingUntil (listen w) <= clock env (ticks w))%Z ->
        isEcho (recentTtsText (listen w)) (trim t) = true ->
        voiceGate env data w
        = (Ok SuppressedEcho,
           mkWorld (mkListen (listenWindowUntil (listen w))
                             (speakingUntil (listen w)) [])
                   (S (ticks w)) (spoken w)
                   (trace w ++ [ELog LogSuppressedEcho])))
  /\ (forall x, isEcho [] x = false)
  /\ isEcho (lit "the weather today is sunny") (lit "weather today is sunny")
     = true
  /\ isEcho (lit "the weather today is sunny") (lit "what time is it") = false.
Proof.
  intros ttsNorm textNorm textWords overlap.
  split; [|split; [|repeat split]].
  - unfold isEcho. destruct recent as [|c r].
    + cbn [truthy negb]. split; [discriminate | intros [H _]; contradiction].
    + cbn [truthy negb]. fold ttsNorm textNorm textWords. fold overlap.
      destruct (includes ttsNorm textNorm) eqn:E1.
      { cbn [orb]. split; [intros _ | reflexivity].
        split; [discriminate | left; now apply includes_contains]. }
      destruct (includes textNorm ttsNorm) eqn:E2.
      { cbn [orb]. split; [intros _ | reflexivity].
        split; [discriminate | right; left; now apply includes_contains]. }
      cbn [orb]. unfold textWords at 1. rewrite splitWs_length.
      fold textWords. rewrite Z.ltb_lt. split.
      * intros H. split; [discriminate | now right; right].
      * intros [_ [H|[H|H]]]; [| |exact H];
          apply includes_contains in H; congruence.
  - intros env data t w Hfin Htxt Hne Hstop Hsu Hecho.
    destruct w as [[lw su rt] tk sp tr].
    cbn [listen ticks speakingUntil recentTtsText listenWindowUntil] in *.
    unfold voiceGate. rewrite Hfin, Htxt. cbn [option_map negb orb].
    remember (trim t) as raw eqn:Eraw.
    destruct raw as [|c r]; [contradiction|].
    cbn [truthy negb]. rewrite Hstop. run_m.
    apply Z.ltb_ge in Hsu. rewrite Hsu, Hecho. run_m.
    reflexivity.
Qed.

Lemma C3_echo_check_witness :
  voiceGate (sampleEnv (fun _ => 9000%Z) noFailure [])
    (heard "weather today is sunny")
    (mkWorld (mkListen 38000 8000 (lit "the weather today is sunny")) 0 0 [])
  = (Ok SuppressedEcho,
     mkWorld (mkListen 38000 8000 []) 1 0 ([] ++ [ELog LogSuppressedEcho])).
Proof.
  apply (proj1 (proj2 (C3_echo_check [] []))
    (sampleEnv (fun _ => 9000%Z) noFailure [])
    (heard "weather today is sunny") (lit "weather today is sunny")
    (mkWorld (mkListen 38000 8000 (lit "the weather today is sunny")) 0 0 []));
    try reflexivity.
  - discriminate.
  - cbn. lia.
Defined.


(* ================================================================== *)
(** * The configuration adapter *)
(* ================================================================== *)

Section ConfigAdapter.

Import Config.

Variable DEFAULT_ACCOUNT_ID : jsstring.

Let resolve := resolveMentraOSAccount DEFAULT_ACCOUNT_ID.

(** X1: enabling or disabling the account is read back by the resolver
    whatever the configuration was (no [channels], no [mentraos] section, or
    any value in [enabled]); the API key, URL and port the resolver reports
    are untouched, the other channels are kept, and of two calls the last
    one decides. *)
Theorem X1_set_enabled_round_trip (cfg : OpenClawConfig) (value other : bool) :
  enabled (resolve (setAccountEnabled cfg value)) = value
  /\ apiKey (resolve (setAccountEnabled cfg value)) = apiKey (resolve cfg)
  /\ apiUrl (resolve (setAccountEnabled cfg value)) = apiUrl (resolve cfg)
  /\ webhookPort (resolve (setAccountEnabled cfg value))
     = webhookPort (resolve cfg)
  /\ option_map otherChannels (channels (setAccountEnabled cfg value))
     = Some (match channels cfg with
             | Some ch => otherChannels ch
             | None => []
             end)
  /\ setAccountEnabled (setAccountEnabled cfg other) value
     = setAccountEnabled cfg value.
Proof.
  destruct cfg as [[[[[e k u p]|] others]|]]; destruct value;
    repeat split; reflexivity.
Qed.

(** X2: deleting the account forgets its settings.  The resolver then
    reports a disabled account without API key, with the default URL and
    port; enabling it again does not make it configured; the other channels
    are kept; and deleting twice is deleting once. *)
Theorem X2_delete_account_forgets (cfg : OpenClawConfig) :
  resolve (deleteAccount cfg)
  = mkAccount DEFAULT_ACCOUNT_ID false VUndefined (VStr defaultApiUrl)
      (VNum defaultWebhookPort)
      (mkAccountConfig false VUndefined (VStr defaultApiUrl)
         (VNum defaultWebhookPort) (lit "open") [lit "*"])
  /\ isConfigured (resolve (setAccountEnabled (deleteAccount cfg) true)) = false
  /\ option_map otherChannels (channels (deleteAccount cfg))
     = option_map otherChannels (channels cfg)
  /\ deleteAccount (deleteAccount cfg) = deleteAccount cfg.
Proof.
  destruct cfg as [[[[[e k u p]|] others]|]]; repeat split; reflexivity.
Qed.

(** X3: the resolver never reports an empty URL or a port of 0: a missing,
    empty or zero setting gives way to the default, "https://api.mentra.glass"
    for the URL and 3335 for the port, and every other setting is passed
    through.  The account is enabled only by the boolean [true] (not by a
    truthy string or number), and it is configured exactly when it is
    enabled and has a non-empty API key. *)
Theorem X3_resolved_account (cfg : OpenClawConfig) :
  truthyV (apiUrl (resolve cfg)) = true
  /\ truthyV (webhookPort (resolve cfg)) = true
  /\ (truthyV (field cfg apiUrlField) = true ->
      apiUrl (resolve cfg) = field cfg apiUrlField)
  /\ (truthyV (field cfg apiUrlField) = false ->
      apiUrl (resolve cfg) = VStr (lit "https://api.mentra.glass"))
  /\ (truthyV (field cfg webhookPortField) = true ->
      webhookPort (resolve cfg) = field cfg webhookPortField)
  /\ (truthyV (field cfg webhookPortField) = false ->
      webhookPort (resolve cfg) = VNum 3335)
  /\ (enabled (resolve cfg) = true <-> field cfg enabledField = VBool true)
  /\ (isConfigured (resolve cfg) = true <->
      field cfg enabledField = VBool true
      /\ truthyV (field cfg apiKeyField) = true).
Proof.
  unfold resolve, resolveMentraOSAccount, isConfigured, orElse.
  cbn [apiUrl webhookPort enabled apiKey].
  destruct (truthyV (field cfg apiUrlField)) eqn:Eu;
    destruct (truthyV (field cfg webhookPortField)) eqn:Ep;
    (repeat split; try assumption; try reflexivity; try discriminate);
    destruct (field cfg enabledField) as [| |[]| |]; try discriminate;
    try reflexivity; intuition discriminate.
Qed.

(** X4: for the account described from a configuration, the status adapter
    reports no issue exactly when the account is configured; a disabled
    account always gets the notice that it is disabled, and an account
    without API key the error that it is missing, in that order. *)
Theorem X4_status_issues_of_described_account (cfg : OpenClawConfig) :
  let described := describeAccount (resolve cfg) in
  let issues := collectStatusIssues DEFAULT_ACCOUNT_ID [described] in
  (issues = [] <-> isConfigured (resolve cfg) = true)
  /\ issues
     = (if truthyV (apiKey (resolve cfg)) then []
        else [configIssue DEFAULT_ACCOUNT_ID])
       ++ (if enabled (resolve cfg) then []
           else [disabledIssue DEFAULT_ACCOUNT_ID]).
Proof.
  intros described issues. subst described issues.
  unfold collectStatusIssues, describeAccount, isConfigured.
  cbn [find snapAccountId snapConfigured snapEnabled truthyB].
  assert (E : eqbs (accountId (resolve cfg)) DEFAULT_ACCOUNT_ID = true).
  { unfold resolve, resolveMentraOSAccount. cbn [accountId]. unfold eqbs.
    destruct (list_eq_dec ascii_dec DEFAULT_ACCOUNT_ID DEFAULT_ACCOUNT_ID);
      [reflexivity | contradiction]. }
  rewrite E.
  destruct (truthyV (apiKey (resolve cfg))), (enabled (resolve cfg));
    cbn; (split; [split; intros; first [reflexivity | discriminate] | reflexivity]).
Qed.

End ConfigAdapter.

(* ================================================================== *)
(** * The session registry and the outbound adapter *)
(* ================================================================== *)

(** Runs the operations of the gateway module on an explicit world. *)
Ltac run_g :=
  cbv beta iota zeta delta
    [Gateway.gbind Gateway.gret Gateway.gthrow Gateway.gtry Gateway.gemit
     Gateway.getGlobal Gateway.putGlobal Gateway.setSessions
     Gateway.setInstance Gateway.setRuntimeStatus Gateway.console
     Gateway.gnow Gateway.gspeak Gateway.recordActivity
     Gateway.newMessageId Gateway.ctxLog
     Gateway.global Gateway.gticks Gateway.gtrace Gateway.activeSessions
     Gateway.appServerInstance Gateway.accountRuntimeStatus fst snd].

Section Registry.

Import Config Gateway.

Lemma eqbs_eq (a b : jsstring) : eqbs a b = true <-> a = b.
Proof.
  unfold eqbs. destruct (list_eq_dec ascii_dec a b); split;
    intros; congruence.
Qed.

Lemma eqbs_refl (a : jsstring) : eqbs a a = true.
Proof. now apply eqbs_eq. Qed.

Lemma eqbs_neq (a b : jsstring) : a <> b -> eqbs a b = false.
Proof.
  intros H. destruct (eqbs a b) eqn:E; [|reflexivity].
  apply eqbs_eq in E. contradiction.
Qed.

Lemma mapGet_mapSet_same (k : jsstring) (v : Session) (m : SessionMap) :
  mapGet k (mapSet k v m) = Some v.
Proof.
  induction m as [|[k' v'] m IH]; simpl.
  - now rewrite eqbs_refl.
  - destruct (eqbs k' k) eqn:E; simpl; [now rewrite eqbs_refl|].
    now rewrite E.
Qed.

Lemma mapGet_mapSet_other (k k0 : jsstring) (v : Session) (m : SessionMap) :
  k0 <> k -> mapGet k0 (mapSet k v m) = mapGet k0 m.
Proof.
  intros Hne. induction m as [|[k' v'] m IH]; simpl.
  - rewrite eqbs_neq; [reflexivity | congruence].
  - destruct (eqbs k' k) eqn:E; simpl.
    + apply eqbs_eq in E. subst k'.
      rewrite !(eqbs_neq k k0) by congruence. reflexivity.
    + now rewrite IH.
Qed.

Lemma mapGet_mapDelete_same (k : jsstring) (m : SessionMap) :
  mapGet k (mapDelete k m) = None.
Proof.
  induction m as [|[k' v'] m IH]; simpl; [reflexivity|].
  destruct (eqbs k' k) eqn:E; simpl; [exact IH|]. now rewrite E.
Qed.

Lemma mapGet_mapDelete_other (k k0 : jsstring) (m : SessionMap) :
  k0 <> k -> mapGet k0 (mapDelete k m) = mapGet k0 m.
Proof.
  intros Hne. induction m as [|[k' v'] m IH]; simpl; [reflexivity|].
  destruct (eqbs k' k) eqn:E; simpl.
  - apply eqbs_eq in E. subst k'. rewrite (eqbs_neq k k0) by congruence.
    exact IH.
  - now rewrite IH.
Qed.

Lemma mapSize_mapSet (k : jsstring) (v : Session) (m : SessionMap) :
  mapSize (mapSet k v m)
  = match mapGet k m with Some _ => mapSize m | None => S (mapSize m) end.
Proof.
  unfold mapSize. induction m as [|[k' v'] m IH]; simpl; [reflexivity|].
  destruct (eqbs k' k); simpl; [reflexivity|].
  rewrite IH. now destruct (mapGet k m).
Qed.

Variable DEFAULT_ACCOUNT_ID : jsstring.
Variable env : GEnv.

(** X5: a connecting session becomes the one session of its user.  After
    [onSession] the registry maps the user to the new session, replacing an
    older one without adding an entry, and leaves every other user alone.
    This holds also when loading the configuration throws: the session is
    then registered although neither handler was subscribed. *)
Theorem X5_onSession_registers (hasGatewayLog : bool) (session : Session)
    (sessionId userId : jsstring) (w : GWorld) :
  let r := onSession env hasGatewayLog session sessionId userId w in
  let before := activeSessions (global w) in
  let after := activeSessions (global (snd r)) in
  mapGet userId after = Some session
  /\ (forall u, u <> userId -> mapGet u after = mapGet u before)
  /\ mapSize after
     = match mapGet userId before with
       | Some _ => mapSize before
       | None => S (mapSize before)
       end
  /\ fst r
     = (if loadConfigThrows env then Thrown LoadConfigFailed else Returned tt)
  /\ gtrace (snd r)
     = gtrace w
       ++ [GLog Console Info (NewSession userId sessionId)]
       ++ (if hasGatewayLog
           then [GLog GatewayLog Info (NewSession userId sessionId)] else [])
       ++ [GLoadConfig]
       ++ (if loadConfigThrows env then []
           else [GSubscribeTranscription session; GSubscribePhoto session;
                 GLog Console Info (SessionInitialized userId)]).
Proof.
  destruct w as [[sessions inst st] tk tr]. cbv zeta.
  unfold onSession.
  destruct hasGatewayLog, (loadConfigThrows env) eqn:El; run_g;
    (split; [apply mapGet_mapSet_same|]);
    (split; [intros u Hu; now apply mapGet_mapSet_other|]);
    (split; [apply mapSize_mapSet|]);
    (split; [reflexivity|]);
    repeat rewrite <- app_assoc; reflexivity.
Qed.

(** X6: after [onStop] for a user, for whichever session it is called and
    whatever was registered (a newer session of the same user included), a
    reply sent to that user is not spoken: [sendText] writes a warning,
    still records the outbound activity, and returns its result; the other
    users keep their sessions. *)
Theorem X6_send_after_disconnect (hasGatewayLog : bool)
    (sessionId userId reason txt : jsstring) (account : option jsstring)
    (w : GWorld) :
  let w1 := snd (onStop hasGatewayLog sessionId userId reason w) in
  let r := sendText DEFAULT_ACCOUNT_ID env userId txt account w1 in
  mapGet userId (activeSessions (global w1)) = None
  /\ (forall u, u <> userId ->
      mapGet u (activeSessions (global w1))
      = mapGet u (activeSessions (global w)))
  /\ gtrace (snd r)
     = gtrace w1
       ++ [GLog Console Warn (NoActiveSession userId);
           GActivity (match account with
                      | Some a => a
                      | None => DEFAULT_ACCOUNT_ID
                      end) Outbound]
  /\ global (snd r) = global w1
  /\ (activityThrows env = false ->
      fst r
      = Returned
          (mkSendResult (lit "mentraos")
             (lit "mentra-" ++ showZ (gclock env (gticks w1)) ++ lit "-"
                ++ randomSuffix env))).
Proof.
  destruct w as [[sessions inst st] tk tr]. cbv zeta.
  unfold onStop. destruct hasGatewayLog; run_g;
    (split; [apply mapGet_mapDelete_same|]);
    (split; [intros u Hu; now apply mapGet_mapDelete_other|]);
    unfold sendText; run_g; rewrite mapGet_mapDelete_same; run_g;
    destruct (activityThrows env); run_g;
    repeat rewrite <- app_assoc;
    (repeat split; try reflexivity; intros H; discriminate H).
Qed.

(** X7: a failure of the device's audio channel never fails a send.  With a
    session registered for the recipient, [sendText] asks that session to
    speak the text, as it is, on track 2 with the other audio stopped; if
    the speak rejects, the error is written to the console, and in both
    cases the outbound activity is recorded, the module variables are left
    alone and, unless recording the activity throws, the result is
    returned. *)
Theorem X7_send_text_swallows_speak_failure (to txt : jsstring)
    (account : option jsstring) (session : Session) (w : GWorld) :
  mapGet to (activeSessions (global w)) = Some session ->
  let r := sendText DEFAULT_ACCOUNT_ID env to txt account w in
  gtrace (snd r)
  = gtrace w
    ++ [GLog Console Info (Speaking to); GSpeak session txt 2 true;
        (if speakRejectsOn env session
         then GLog Console Error (TtsError to)
         else GLog Console Info (TtsSent to));
        GActivity (match account with
                   | Some a => a
                   | None => DEFAULT_ACCOUNT_ID
                   end) Outbound]
  /\ global (snd r) = global w
  /\ (activityThrows env = false -> exists result, fst r = Returned result)
  /\ (activityThrows env = true -> fst r = Thrown ActivityFailed).
Proof.
  intros Hs. destruct w as [[sessions inst st] tk tr].
  cbn [global activeSessions] in Hs. cbv zeta.
  unfold sendText. run_g. rewrite Hs. run_g.
  destruct (speakRejectsOn env session), (activityThrows env); run_g;
    repeat rewrite <- app_assoc;
    (repeat split; try reflexivity; intros H; try discriminate H);
    eexists; reflexivity.
Qed.

(** X8: [sendMedia] speaks only a non-empty text.  Without text, or with the
    empty text, nothing is spoken even to a connected user, and the activity
    is recorded all the same; [sendText] with the empty text does ask the
    session to speak it. *)
Theorem X8_send_media_without_text (to mediaUrl : jsstring)
    (txt account : option jsstring) (session : Session) (w : GWorld) :
  mapGet to (activeSessions (global w)) = Some session ->
  match txt with Some t => truthy t | None => false end = false ->
  gtrace (snd (sendMedia DEFAULT_ACCOUNT_ID env to txt mediaUrl account w))
  = gtrace w
    ++ [GActivity (match account with
                   | Some a => a
                   | None => DEFAULT_ACCOUNT_ID
                   end) Outbound]
  /\ In (GSpeak session [] 2 true)
        (gtrace (snd (sendText DEFAULT_ACCOUNT_ID env to [] account w))).
Proof.
  intros Hs He. destruct w as [[sessions inst st] tk tr].
  cbn [global activeSessions] in Hs. split.
  - unfold sendMedia. run_g. rewrite Hs.
    destruct txt as [[|c t]|]; try discriminate He; run_g;
      destruct (activityThrows env); reflexivity.
  - unfold sendText. run_g. rewrite Hs. run_g.
    destruct (speakRejectsOn env session), (activityThrows env); run_g;
      repeat rewrite in_app_iff; simpl; tauto.
Qed.

(** X20: a reply reaches the session registered last for its recipient.
    [onSession] registers the session before it loads the configuration, so
    this holds also when loading the configuration throws and the session's
    events are never subscribed: such a user is spoken to and not heard. *)
Theorem X20_send_reaches_latest_session (hasGatewayLog : bool)
    (session : Session) (sessionId userId txt : jsstring)
    (account : option jsstring) (w : GWorld) :
  let r1 := onSession env hasGatewayLog session sessionId userId w in
  let r2 := sendText DEFAULT_ACCOUNT_ID env userId txt account (snd r1) in
  filter (fun e => match e with GSpeak _ _ _ _ => true | _ => false end)
         (gtrace (snd r2))
  = filter (fun e => match e with GSpeak _ _ _ _ => true | _ => false end)
           (gtrace w)
    ++ [GSpeak session txt 2 true]
  /\ (loadConfigThrows env = true ->
      fst r1 = Thrown LoadConfigFailed
      /\ ~ In (GSubscribeTranscription session)
              (skipn (length (gtrace w)) (gtrace (snd r2)))).
Proof.
  destruct w as [[sessions inst st] tk tr]. cbv zeta.
  unfold onSession, sendText.
  destruct hasGatewayLog, (loadConfigThrows env) eqn:El; run_g;
    rewrite mapGet_mapSet_same; run_g;
    destruct (speakRejectsOn env session), (activityThrows env); run_g;
    repeat rewrite <- app_assoc;
    (split;
     [ repeat rewrite filter_app; cbn [filter app];
       repeat rewrite app_nil_r; reflexivity
     | intros Ht;
       first [ discriminate Ht
             | split; [reflexivity|];
               rewrite skipn_app, skipn_all, Nat.sub_diag; cbn [skipn app];
               simpl; intuition discriminate ] ]).
Qed.

End Registry.

Section RegistryWitnesses.

Import Config Gateway.

Lemma X7_send_text_swallows_speak_failure_witness :
  gtrace (snd (sendText (lit "default") deafEnv (lit "u1") (lit "Four") None
                 (worldWith (mkGlobal [(lit "u1", lit "s1")] None
                               (initialRuntimeStatus (lit "default"))))))
  = [] ++ [GLog Console Info (Speaking (lit "u1"));
           GSpeak (lit "s1") (lit "Four") 2 true;
           GLog Console Error (TtsError (lit "u1"));
           GActivity (lit "default") Outbound].
Proof.
  apply (X7_send_text_swallows_speak_failure (lit "default") deafEnv
           (lit "u1") (lit "Four") None (lit "s1")
           (worldWith (mkGlobal [(lit "u1", lit "s1")] None
                         (initialRuntimeStatus (lit "default"))))).
  reflexivity.
Defined.

Lemma X8_send_media_without_text_witness :
  gtrace (snd (sendMedia (lit "default") quietEnv (lit "u1") (Some [])
                 (lit "https://example.org/cat.png") (Some (lit "acct"))
                 (worldWith (mkGlobal [(lit "u1", lit "s1")] None
                               (initialRuntimeStatus (lit "default"))))))
  = [] ++ [GActivity (lit "acct") Outbound].
Proof.
  apply (X8_send_media_without_text (lit "default") quietEnv (lit "u1")
           (lit "https://example.org/cat.png") (Some []) (Some (lit "acct"))
           (lit "s1")
           (worldWith (mkGlobal [(lit "u1", lit "s1")] None
                         (initialRuntimeStatus (lit "default")))));
    reflexivity.
Defined.

End RegistryWitnesses.

(* ================================================================== *)
(** * The gateway lifecycle *)
(* ================================================================== *)

Section Lifecycle.

Import Config Gateway.

Variable env : GEnv.
Variable noApiKeyMessage : jsstring.

(** The status with [running] and [lastError] replaced, as the spread
    [{ ...accountRuntimeStatus, running: false, lastError }] builds it. *)
Let stopped (st : Snapshot) (err : option jsstring) : Snapshot :=
  mkSnapshot (snapAccountId st) (snapName st) (snapEnabled st)
    (snapConfigured st) (Some false) (lastStartAt st) (lastStopAt st) err
    (lastInboundAt st) (lastOutboundAt st).

(** X9: without an API key (absent or empty) [startAccount] starts nothing:
    no route is registered, no server is created, no status is published.
    It returns at once, and the module's status says not running with the
    missing-key message as the last error; the start and stop times, the
    registry and the server instance are as before. *)
Theorem X9_start_without_key (hasLog : bool)
    (account : MentraOSResolvedAccount) (w : GWorld) :
  truthyV (apiKey account) = false ->
  startAccount env noApiKeyMessage hasLog account w
  = (Returned ReturnedAtOnce,
     mkGWorld
       (mkGlobal (activeSessions (global w)) (appServerInstance (global w))
          (stopped (accountRuntimeStatus (global w)) (Some noApiKeyMessage)))
       (gticks w)
       (gtrace w ++ (if hasLog then [GLog CtxLog Warn NoApiKey] else []))).
Proof.
  intros Hk. destruct w as [[sessions inst st] tk tr].
  unfold startAccount. rewrite Hk. cbn [negb].
  destruct hasLog; run_g; [reflexivity | now rewrite app_nil_r].
Qed.

(** X10: with an API key and a server that starts, [startAccount] registers
    the health route, creates the server with the account's key and port
    (3335 when the account has none), and publishes a fresh status: running,
    started at the clock's reading, no stop time and no error, whatever the
    status held before.  It then waits for the abort signal.  The snapshot
    built from that status reports the account as running. *)
Theorem X10_start_publishes_running (hasLog : bool)
    (account : MentraOSResolvedAccount) (w : GWorld) :
  truthyV (apiKey account) = true ->
  constructorThrows env = None ->
  startThrows env = None ->
  let srv := mkServer (lit "com.openclaw.faceclaw") (apiKey account)
               (orElse (cfgWebhookPort (config account)) (VNum 3335)) in
  let st := mkSnapshot (accountId account) None None None (Some true)
              (Some (gclock env (gticks w))) None None None None in
  let r := startAccount env noApiKeyMessage hasLog account w in
  fst r = Returned WaitingForAbort
  /\ global (snd r) = mkGlobal (activeSessions (global w)) (Some srv) st
  /\ filter (fun e => match e with GLog _ _ _ => false | _ => true end)
            (gtrace (snd r))
     = filter (fun e => match e with GLog _ _ _ => false | _ => true end)
              (gtrace w)
       ++ [GRegisterRoute (lit "/webhook"); GServerStart srv; GSetStatus st]
  /\ truthyV (serverPort srv) = true
  /\ running (buildAccountSnapshot (accountRuntimeStatus (global (snd r)))
                account None) = Some true
  /\ lastError (buildAccountSnapshot (accountRuntimeStatus (global (snd r)))
                  account None) = None.
Proof.
  intros Hk Hc Hs. destruct w as [[sessions inst old] tk tr]. cbv zeta.
  unfold startAccount. rewrite Hk, Hc, Hs. cbn [negb].
  destruct hasLog; run_g; repeat rewrite filter_app; cbn [filter app];
    repeat rewrite app_nil_r; repeat rewrite <- app_assoc;
    (repeat split; try reflexivity);
    cbn [serverPort]; unfold orElse;
    destruct (truthyV (cfgWebhookPort (config account))) eqn:E;
    first [exact E | reflexivity].
Qed.

(** X11: when the server fails to start, [startAccount] writes the error's
    message into the status (not running), publishes it and returns at once,
    without a listener for the abort signal.  The health route registered
    before stays registered, and the server object created before the start
    stays in [appServerInstance], so the health route goes on answering that
    the server is running.  When already the constructor throws, the
    instance is the one from before. *)
Theorem X11_failed_start (hasLog : bool) (account : MentraOSResolvedAccount)
    (message : jsstring) (w : GWorld) :
  truthyV (apiKey account) = true ->
  (constructorThrows env = Some message
   \/ constructorThrows env = None /\ startThrows env = Some message) ->
  let srv := mkServer (lit "com.openclaw.faceclaw") (apiKey account)
               (orElse (cfgWebhookPort (config account)) (VNum 3335)) in
  let st := stopped (accountRuntimeStatus (global w)) (Some message) in
  let r := startAccount env noApiKeyMessage hasLog account w in
  fst r = Returned ReturnedAtOnce
  /\ accountRuntimeStatus (global (snd r)) = st
  /\ activeSessions (global (snd r)) = activeSessions (global w)
  /\ In (GRegisterRoute (lit "/webhook")) (gtrace (snd r))
  /\ In (GSetStatus st) (gtrace (snd r))
  /\ (~ In GUnregisterRoute (gtrace w) ->
      ~ In GUnregisterRoute (gtrace (snd r)))
  /\ (constructorThrows env = Some message ->
      appServerInstance (global (snd r)) = appServerInstance (global w))
  /\ (constructorThrows env = None ->
      appServerInstance (global (snd r)) = Some srv
      /\ fst (healthHandler env (lit "GET") (snd r))
         = Returned (HealthStatus (gclock env (gticks w)) true
                       (mapSize (activeSessions (global w))))).
Proof.
  intros Hk Hf. destruct w as [[sessions inst old] tk tr]. cbv zeta.
  unfold startAccount. rewrite Hk. cbn [negb].
  destruct Hf as [Hc|[Hc Hs]]; rewrite Hc; try rewrite Hs;
    destruct hasLog; run_g;
    (repeat split; try reflexivity; try discriminate);
    repeat rewrite in_app_iff; simpl;
    try tauto;
    try (intros Hn [H|H]; [tauto | intuition discriminate]);
    try (intros Hn H; intuition discriminate).
Qed.

(** X12: the abort listener always tears everything down, whether or not
    stopping the server throws.  It unregisters the health route, stops the
    server if there is one, empties the registry, clears
    [appServerInstance], and publishes the status with [running] false and
    the stop time read from the clock, the other fields kept; it never
    throws.  The health route of the module then reports a stopped server
    and no session. *)
Theorem X12_abort_tears_down (hasLog : bool) (w : GWorld) :
  let old := accountRuntimeStatus (global w) in
  let st := mkSnapshot (snapAccountId old) (snapName old) (snapEnabled old)
              (snapConfigured old) (Some false) (lastStartAt old)
              (Some (gclock env (gticks w))) (lastError old)
              (lastInboundAt old) (lastOutboundAt old) in
  let r := onAbort env hasLog w in
  fst r = Returned tt
  /\ global (snd r) = mkGlobal [] None st
  /\ filter (fun e => match e with GLog _ _ _ => false | _ => true end)
            (gtrace (snd r))
     = filter (fun e => match e with GLog _ _ _ => false | _ => true end)
              (gtrace w)
       ++ [GUnregisterRoute]
       ++ (match appServerInstance (global w) with
           | Some _ => [GServerStop]
           | None => []
           end)
       ++ [GSetStatus st]
  /\ fst (healthHandler env (lit "GET") (snd r))
     = Returned (HealthStatus (gclock env (S (gticks w))) false 0).
Proof.
  destruct w as [[sessions inst old] tk tr]. cbv zeta.
  unfold onAbort, healthHandler.
  destruct hasLog, inst as [srv|], (stopThrows env); run_g;
    repeat rewrite filter_app; cbn [filter app];
    repeat rewrite app_nil_r; repeat rewrite <- app_assoc;
    repeat split; reflexivity.
Qed.

End Lifecycle.

Section LifecycleWitnesses.

Import Config Gateway.

Lemma X9_start_without_key_witness :
  fst (startAccount quietEnv (lit "MentraOS API key not configured") true
         (accountWithKey (lit "default") VUndefined)
         (worldWith (emptyGlobal (lit "default"))))
  = Returned ReturnedAtOnce.
Proof.
  rewrite (X9_start_without_key quietEnv
             (lit "MentraOS API key not configured") true
             (accountWithKey (lit "default") VUndefined)
             (worldWith (emptyGlobal (lit "default"))));
    reflexivity.
Defined.

Lemma X10_start_publishes_running_witness :
  fst (startAccount quietEnv (lit "MentraOS API key not configured") true
         (accountWithKey (lit "default") (VStr (lit "key-1")))
         (worldWith (emptyGlobal (lit "default"))))
  = Returned WaitingForAbort.
Proof.
  destruct (X10_start_publishes_running quietEnv
              (lit "MentraOS API key not configured") true
              (accountWithKey (lit "default") (VStr (lit "key-1")))
              (worldWith (emptyGlobal (lit "default"))))
    as [H _]; [reflexivity | reflexivity | reflexivity | exact H].
Defined.

Lemma X11_failed_start_witness :
  fst (startAccount (brokenEnv "listen EADDRINUSE")
         (lit "MentraOS API key not configured") true
         (accountWithKey (lit "default") (VStr (lit "key-1")))
         (worldWith (emptyGlobal (lit "default"))))
  = Returned ReturnedAtOnce.
Proof.
  destruct (X11_failed_start (brokenEnv "listen EADDRINUSE")
              (lit "MentraOS API key not configured") true
              (accountWithKey (lit "default") (VStr (lit "key-1")))
              (lit "listen EADDRINUSE")
              (worldWith (emptyGlobal (lit "default"))))
    as [H _];
    [reflexivity | right; split; reflexivity | exact H].
Defined.

End LifecycleWitnesses.

(* ================================================================== *)
(** * The webhook relay *)
(* ================================================================== *)

(** Runs the operations of the webhook handler on an explicit trace. *)
Ltac run_w :=
  cbv beta iota zeta delta
    [Webhook.wbind Webhook.wret Webhook.wthrow Webhook.wtry Webhook.wemit
     Webhook.wlog Webhook.werror fst snd].

Section Relay.

Import Webhook.

Variable network : FetchRequest -> FetchResult.
Variable noBodyMessage photoCaptured : jsstring.

Let handle := handler network noBodyMessage photoCaptured.

Let baseUrl (env : ProcessEnv) : jsstring :=
  match OPENCLAW_URL env with
  | Some u => if truthy u then u else defaultOpenclawUrl
  | None => defaultOpenclawUrl
  end.

(** The request [sendToOpenClaw] posts for a transcription. *)
Let textRequest (env : ProcessEnv) (token user txt : jsstring) : FetchRequest :=
  mkFetch (baseUrl env ++ lit "/api/message") (lit "Bearer " ++ token)
    (lit "application/json")
    (mkMessage (lit "send") (lit "mentraos:" ++ user) txt None
       (lit "mentra-bridge-vercel")).

(** X14: a final transcription with a text that is not blank, posted with
    both settings present, is sent to OpenClaw once, with the text as it
    came (not trimmed), to the configured URL or the local default.  The
    answer follows the outcome: a network error, a status outside 200-299
    or a body that is not JSON gives 500 with the error's message (for a
    bad status, "OpenClaw API error:", the status and its text); otherwise
    200 with the message of the reply, or "Processed successfully" when the
    reply has none. *)
Theorem X14_transcription_is_relayed (env : ProcessEnv) (req : Request)
    (payload : MentraWebhookPayload) (d : WebhookData)
    (token txt : jsstring) :
  method req = lit "POST" ->
  OPENCLAW_TOKEN env = Some token -> token <> [] ->
  optTruthy (MENTRAOS_API_KEY env) = true ->
  body req = Some payload ->
  payloadType payload = Transcription ->
  data payload = Some d ->
  dataIsFinal d = Some true ->
  dataText d = Some txt ->
  trim txt <> [] ->
  let request := textRequest env token (userId payload) txt in
  let failed (e : jsstring) :=
    mkResponse 500 (ErrorWithMessage (lit "Internal server error") e) in
  filter (fun e => match e with WFetch _ => true | WLog _ => false end)
         (snd (handle env req []))
  = [WFetch request]
  /\ fst (handle env req [])
     = inl (match network request with
            | NetworkError e => failed e
            | HttpResponse status statusText json =>
                if responseOk status
                then match json with
                     | JsonInvalid e => failed e
                     | _ => mkResponse 200
                              (TtsResponse
                                 (replyOr json (lit "Processed successfully")))
                     end
                else failed (lit "OpenClaw API error: " ++ showNat status
                               ++ lit " " ++ statusText)
            end).
Proof.
  intros Hm Ht Hne Hk Hb Hty Hd Hf Htx Htrim. cbv zeta.
  unfold handle, handler, sendToOpenClaw, post, textRequest, baseUrl.
  rewrite Hm, Ht, Hk, Hb, Hty, Hd, Hf, Htx.
  destruct token as [|c token]; [contradiction|].
  destruct (trim txt) as [|c' r'] eqn:E; [contradiction|].
  cbn [eqbs negb truthy]. run_w.
  replace (eqbs (lit "POST") (lit "POST")) with true by reflexivity.
  cbn [negb]. run_w.
  destruct (network _) as [e|status statusText json]; run_w;
    [split; reflexivity|].
  destruct (responseOk status); cbn [negb]; run_w;
    [|split; reflexivity].
  destruct json; run_w; split; reflexivity.
Qed.

Ltac run_w_in H :=
  cbv beta iota zeta delta
    [Webhook.wbind Webhook.wret Webhook.wthrow Webhook.wtry Webhook.wemit
     Webhook.wlog Webhook.werror fst snd] in H.

(** Splits the handler on its request, its settings and the outcome of the
    network, down to explicit traces. *)
Ltac relay_cases :=
  repeat match goal with
         | |- context [match network ?r with _ => _ end] =>
             destruct (network r) as [?e|?status ?statusText [?e| |[?m|]]]
         | |- context [if negb (responseOk ?s) then _ else _] =>
             destruct (responseOk s); cbn [negb]
         | |- context [if truthy (trim ?t) then _ else _] =>
             let E := fresh "Etrim" in destruct (truthy (trim t)) eqn:E
         | |- context [if truthy ?t then _ else _] =>
             destruct (truthy t)
         end; run_w.

(** X13: the relay contacts OpenClaw only for a POST, with both settings
    present and not empty, and only for a final transcription whose text is
    not blank or for a photo with image data; the request then goes to the
    configured URL (or the local default) with the token as bearer, is
    addressed to the user of the payload, and carries the transcribed text
    as it came.  No request posts more than once. *)
Theorem X13_relay_contacts_openclaw_only_when (env : ProcessEnv)
    (req : Request) (f : FetchRequest) :
  In (WFetch f) (snd (handle env req [])) ->
  method req = lit "POST"
  /\ (exists token,
        OPENCLAW_TOKEN env = Some token /\ token <> []
        /\ authorization f = lit "Bearer " ++ token)
  /\ optTruthy (MENTRAOS_API_KEY env) = true
  /\ url f = baseUrl env ++ lit "/api/message"
  /\ (exists payload d,
        body req = Some payload /\ data payload = Some d
        /\ target (fetchBody f) = lit "mentraos:" ++ userId payload
        /\ (payloadType payload = Transcription
            /\ dataIsFinal d = Some true
            /\ dataText d = Some (message (fetchBody f))
            /\ trim (message (fetchBody f)) <> []
            \/ payloadType payload = Photo
               /\ exists image,
                    imageBuffer d = Some image /\ image <> []
                    /\ message (fetchBody f) = photoCaptured
                    /\ media (fetchBody f)
                       = Some (lit "data:"
                                 ++ match dataMimeType d with
                                    | Some t => if truthy t then t
                                                else lit "image/jpeg"
                                    | None => lit "image/jpeg"
                                    end
                                 ++ lit ";base64," ++ image)))
  /\ (length (filter (fun e => match e with WFetch _ => true | WLog _ => false end)
                     (snd (handle env req []))) <= 1)%nat.
Proof.
  unfold handle, handler, sendToOpenClaw, sendImageToOpenClaw, post, baseUrl.
  destruct req as [m b], env as [tok ourl key].
  cbn [method body OPENCLAW_TOKEN OPENCLAW_URL MENTRAOS_API_KEY].
  destruct (eqbs m (lit "POST")) eqn:Em; cbn [negb]; run_w;
    [|simpl; intuition discriminate].
  apply eqbs_eq in Em. subst m.
  destruct tok as [[|c tok]|]; cbn [truthy negb]; run_w;
    try (simpl; intuition discriminate).
  destruct key as [[|c2 key]|]; cbn [optTruthy truthy negb]; run_w;
    try (simpl; intuition discriminate).
  destruct b as [[ty user sid [[tx fin img mime]|]]|];
    cbn [payloadType data userId dataText dataIsFinal imageBuffer dataMimeType];
    run_w; try (simpl; intuition discriminate);
    destruct ty; run_w; try (simpl; intuition discriminate).
  - (* transcription *)
    destruct fin as [[]|]; try (simpl; intuition discriminate);
      destruct tx as [tx|]; try (simpl; intuition discriminate).
    destruct (truthy (trim tx)) eqn:Et; run_w;
      [|simpl; intuition discriminate].
    assert (Hne : trim tx <> []) by (intros E; rewrite E in Et; discriminate).
    intros Hin.
    assert (Hf : f = mkFetch
               (match ourl with
                | Some u => if truthy u then u else defaultOpenclawUrl
                | None => defaultOpenclawUrl
                end ++ lit "/api/message")
               (lit "Bearer " ++ c :: tok) (lit "application/json")
               (mkMessage (lit "send") (lit "mentraos:" ++ user) tx None
                  (lit "mentra-bridge-vercel"))).
    { revert Hin. relay_cases; simpl; intros Hin;
        repeat (destruct Hin as [Hin|Hin]; try discriminate Hin;
                try contradiction);
        injection Hin as <-; reflexivity. }
    subst f. cbn [url authorization fetchBody target message].
    split; [reflexivity|]. split.
    { exists (c :: tok). split; [reflexivity|].
      split; [discriminate | reflexivity]. }
    split; [reflexivity|]. split; [reflexivity|]. split.
    { do 2 eexists. cbn [body data userId payloadType dataIsFinal dataText].
      split; [reflexivity|]. split; [reflexivity|]. split; [reflexivity|].
      left. split; [reflexivity|]. split; [reflexivity|].
      split; [reflexivity | exact Hne]. }
    relay_cases; simpl; lia.
  - (* photo *)
    destruct img as [[|ci img]|]; cbn [truthy]; run_w;
      try (simpl; intuition discriminate).
    intros Hin.
    assert (Hf : f = mkFetch
               (match ourl with
                | Some u => if truthy u then u else defaultOpenclawUrl
                | None => defaultOpenclawUrl
                end ++ lit "/api/message")
               (lit "Bearer " ++ c :: tok) (lit "application/json")
               (mkMessage (lit "send") (lit "mentraos:" ++ user) photoCaptured
                  (Some (lit "data:"
                           ++ match mime with
                              | Some t => if truthy t then t else lit "image/jpeg"
                              | None => lit "image/jpeg"
                              end
                           ++ lit ";base64," ++ ci :: img))
                  (lit "mentra-bridge-vercel"))).
    { revert Hin. destruct mime as [[|cm mime]|]; cbn [truthy];
        relay_cases; simpl; intros Hin;
        repeat (destruct Hin as [Hin|Hin]; try discriminate Hin;
                try contradiction);
        injection Hin as <-; reflexivity. }
    subst f.
    cbn [url authorization fetchBody target message media].
    split; [reflexivity|]. split.
    { exists (c :: tok). split; [reflexivity|].
      split; [discriminate | reflexivity]. }
    split; [reflexivity|]. split; [reflexivity|]. split.
    { do 2 eexists.
      cbn [body data userId payloadType imageBuffer dataMimeType].
      split; [reflexivity|]. split; [reflexivity|]. split; [reflexivity|].
      right. split; [reflexivity|].
      eexists. split; [reflexivity|]. split; [discriminate|].
      split; reflexivity. }
    destruct mime as [[|cm mime]|]; cbn [truthy];
      relay_cases; simpl; lia.
Qed.

(** X15: the handler always answers and never throws, whatever the request,
    the settings and the network do.  It answers 405 exactly to the methods
    other than POST; a POST with a missing or empty token or API key gets
    500 "Server configuration error" whatever its payload, and a POST
    without a body 500 with the message of the error; every answer has
    status 200, 405 or 500. *)
Theorem X15_relay_always_answers (env : ProcessEnv) (req : Request) :
  exists resp,
    fst (handle env req []) = inl resp
    /\ (statusCode resp = 405%nat <-> method req <> lit "POST")
    /\ (statusCode resp = 200 \/ statusCode resp = 405 \/ statusCode resp = 500)%nat
    /\ (method req = lit "POST" ->
        optTruthy (OPENCLAW_TOKEN env) = false
        \/ optTruthy (MENTRAOS_API_KEY env) = false ->
        resp = configError)
    /\ (method req = lit "POST" ->
        optTruthy (OPENCLAW_TOKEN env) = true ->
        optTruthy (MENTRAOS_API_KEY env) = true ->
        body req = None ->
        resp = mkResponse 500
                 (ErrorWithMessage (lit "Internal server error") noBodyMessage)).
Proof.
  unfold handle, handler, sendToOpenClaw, sendImageToOpenClaw, post, baseUrl.
  destruct req as [m b], env as [tok ourl key].
  cbn [method body OPENCLAW_TOKEN OPENCLAW_URL MENTRAOS_API_KEY].
  destruct (eqbs m (lit "POST")) eqn:Em; cbn [negb]; run_w.
  2:{ eexists. split; [reflexivity|]. cbn [statusCode].
      assert (m <> lit "POST")
        by (intros E; apply eqbs_eq in E; congruence).
      repeat split; try tauto; try (intros; contradiction). }
  apply eqbs_eq in Em. subst m.
  destruct tok as [[|c tok]|]; cbn [optTruthy truthy negb]; run_w;
    try (eexists; split; [reflexivity|]; cbn [statusCode];
         repeat split; try tauto; try discriminate;
         intros; intuition discriminate).
  destruct key as [[|c2 key]|]; cbn [optTruthy truthy negb]; run_w;
    try (eexists; split; [reflexivity|]; cbn [statusCode];
         repeat split; try tauto; try discriminate;
         intros; intuition discriminate).
  destruct b as [[ty user sid [[tx fin img mime]|]]|];
    cbn [payloadType data userId dataText dataIsFinal imageBuffer dataMimeType];
    run_w;
    try destruct ty; run_w;
    try destruct fin as [[]|]; try destruct tx as [tx|];
    try destruct img as [[|ci img]|]; try destruct mime as [[|cm mime]|];
    cbn [truthy]; relay_cases;
    (eexists; split; [reflexivity|]; cbn [statusCode];
     repeat split; try tauto; try discriminate;
     intros; intuition discriminate).
Qed.

(** X16: the health endpoint and the relay read the settings alike.  The
    health endpoint reports both OpenClaw and MentraOS as configured exactly
    when the relay does not turn a POST down with "Server configuration
    error"; and every request of the relay goes to the URL that the health
    endpoint reports, followed by /api/message. *)
Theorem X16_health_agrees_with_relay (isoNow version : jsstring)
    (env : ProcessEnv) :
  let report := HealthEndpoint.environment
                  (HealthEndpoint.handler isoNow version env) in
  (HealthEndpoint.openclawConfigured report = true
   /\ HealthEndpoint.mentraosConfigured report = true
   <-> forall req, method req = lit "POST" ->
         fst (handle env req []) <> inl configError)
  /\ (forall req f,
        In (WFetch f) (snd (handle env req [])) ->
        url f = HealthEndpoint.openclawUrl report ++ lit "/api/message").
Proof.
  cbv zeta. unfold HealthEndpoint.handler.
  cbn [HealthEndpoint.environment HealthEndpoint.openclawConfigured
       HealthEndpoint.mentraosConfigured HealthEndpoint.openclawUrl].
  split; [split|].
  - intros [Ht Hk] [m b] Hm. cbn [method] in Hm. subst m.
    unfold handle, handler, sendToOpenClaw, sendImageToOpenClaw, post.
    destruct env as [tok ourl key].
    cbn [method body OPENCLAW_TOKEN OPENCLAW_URL MENTRAOS_API_KEY] in *.
    rewrite eqbs_refl. cbn [negb].
    destruct tok as [[|c tok]|]; try discriminate Ht.
    destruct key as [[|c2 key]|]; try discriminate Hk.
    cbn [optTruthy truthy negb]. run_w.
    destruct b as [[ty user sid [[tx fin img mime]|]]|];
      cbn [payloadType data userId dataText dataIsFinal imageBuffer
           dataMimeType];
      run_w;
      try destruct ty; run_w;
      try destruct fin as [[]|]; try destruct tx as [tx|];
      try destruct img as [[|ci img]|]; try destruct mime as [[|cm mime]|];
      cbn [truthy]; relay_cases; discriminate.
  - intros H.
    specialize (H (mkRequest (lit "POST") None) eq_refl).
    unfold handle, handler in H. destruct env as [tok ourl key].
    cbn [method body OPENCLAW_TOKEN OPENCLAW_URL MENTRAOS_API_KEY] in *.
    destruct tok as [[|c tok]|];
      try (exfalso; apply H; reflexivity).
    destruct key as [[|c2 key]|];
      try (exfalso; apply H; reflexivity).
    split; reflexivity.
  - intros req f Hin.
    unfold handle, handler, sendToOpenClaw, sendImageToOpenClaw, post in Hin.
    destruct req as [m b], env as [tok ourl key].
    cbn [method body OPENCLAW_TOKEN OPENCLAW_URL MENTRAOS_API_KEY] in *.
    revert Hin.
    destruct (eqbs m (lit "POST")); cbn [negb]; run_w;
      [|simpl; intuition discriminate].
    destruct tok as [[|c tok]|]; cbn [truthy negb]; run_w;
      try (simpl; intuition discriminate).
    destruct key as [[|c2 key]|]; cbn [optTruthy truthy negb]; run_w;
      try (simpl; intuition discriminate).
    destruct b as [[ty user sid [[tx fin img mime]|]]|];
      cbn [payloadType data userId dataText dataIsFinal imageBuffer
           dataMimeType];
      run_w; try (simpl; intuition discriminate);
      destruct ty; run_w; try (simpl; intuition discriminate);
      try destruct fin as [[]|]; try destruct tx as [tx|];
      try destruct img as [[|ci img]|]; try destruct mime as [[|cm mime]|];
      cbn [truthy]; relay_cases; simpl; intros Hin;
      repeat (destruct Hin as [Hin|Hin]; try discriminate Hin;
              try contradiction);
      injection Hin as <-; reflexivity.
Qed.

End Relay.

Section RelayWitnesses.

Import Webhook.

Lemma X13_relay_contacts_openclaw_only_when_witness :
  method finalTranscription = lit "POST".
Proof.
  apply (X13_relay_contacts_openclaw_only_when (answering "Noon")
           (lit "Cannot read properties of undefined (reading 'type')")
           (lit "Photo captured") deployment finalTranscription
           (mkFetch (lit "http://localhost:18789/api/message")
              (lit "Bearer secret") (lit "application/json")
              (mkMessage (lit "send") (lit "mentraos:u1")
                 (lit "what time is it") None
                 (lit "mentra-bridge-vercel")))).
  simpl. auto 10.
Defined.

Lemma X14_transcription_is_relayed_witness :
  fst (handler (answering "Noon")
         (lit "Cannot read properties of undefined (reading 'type')")
         (lit "Photo captured") deployment finalTranscription [])
  = inl (mkResponse 200 (TtsResponse (lit "Noon"))).
Proof.
  apply (X14_transcription_is_relayed (answering "Noon")
           (lit "Cannot read properties of undefined (reading 'type')")
           (lit "Photo captured") deployment finalTranscription
           (mkPayload Transcription (lit "u1") (lit "s1")
              (Some (mkData (Some (lit "what time is it")) (Some true)
                       None None)))
           (mkData (Some (lit "what time is it")) (Some true) None None)
           (lit "secret") (lit "what time is it"));
    first [reflexivity | discriminate].
Defined.

End RelayWitnesses.

(* ================================================================== *)
(** * The voice filter over a whole session *)
(* ================================================================== *)

Section AcceptedCommand.

Variable env : Env.

Lemma extractCommand_shape (raw : jsstring) :
  raw <> [] -> trim raw = raw ->
  extractCommand raw <> [] /\ trim (extractCommand raw) = extractCommand raw.
Proof.
  intros Hne Htrim. unfold extractCommand.
  destruct (test wakePattern raw); [|now split].
  destruct (trim (removeFirst leadingSepPattern (removeFirst wakePattern raw)))
    as [|c r] eqn:E; cbn [truthy].
  - split; [discriminate | reflexivity].
  - split; [discriminate|]. rewrite <- E. apply trim_idem.
Qed.

Lemma dropWhile_all (f : ascii -> bool) (s : jsstring) :
  forallb f s = true -> dropWhile f s = [].
Proof.
  induction s as [|c s IH]; [reflexivity|]. cbn [forallb dropWhile].
  intros H. apply andb_prop in H as [Hc Hs]. rewrite Hc. now apply IH.
Qed.

(** With the match at the start of a trimmed text, the command is what
    follows the commas, periods and white space after the match, or the
    default greeting. *)
Lemma extractCommand_at_start (raw : jsstring) (e : nat) :
  trim raw = raw ->
  exec wakePattern raw = Some (0%nat, e) ->
  extractCommand raw
  = (if truthy (dropWhile isSepChar (skipn e raw))
     then dropWhile isSepChar (skipn e raw) else defaultGreeting).
Proof.
  intros Ht He.
  assert (Hcut : removeFirst wakePattern raw = skipn e raw)
    by (unfold removeFirst; now rewrite He).
  unfold extractCommand, test. rewrite He, Hcut.
  rewrite removeFirst_leadingSep.
  rewrite (trim_after_separators (firstn e raw) (skipn e raw))
    by (rewrite firstn_skipn; exact Ht).
  reflexivity.
Qed.

(** X17: whatever the filter lets through is a command: the text handed to
    the agent is never empty and has no white space at either end.  When the
    wake words at the start of the text are followed by nothing, or by
    commas, periods and white space only, the command is the default
    greeting "Hey"; any other sign stays, so that "Hey Mentra?" gives the
    command "?". *)
Theorem X17_accepted_command_is_a_command (data : TranscriptionData)
    (w w' : World) (cmd : jsstring) :
  voiceGate env data w = (Ok (Accepted cmd), w') ->
  cmd <> [] /\ trim cmd = cmd
  /\ (exists t,
        text data = Some t /\ cmd = extractCommand (trim t)
        /\ (forall e,
              exec wakePattern (trim t) = Some (0%nat, e) ->
              forallb isSepChar (skipn e (trim t)) = true ->
              cmd = lit "Hey"))
  /\ extractCommand (lit "Hey Mentra?") = lit "?".
Proof.
  intros H. destruct w as [[lw su rt] tk sp tr]. unfold voiceGate in H.
  destruct data as [fin [t|]]; cbn [isFinal text option_map] in H.
  2:{ rewrite orb_true_r in H. run_m_in H. discriminate H. }
  destruct fin; cbn [negb orb] in H; [|run_m_in H; discriminate H].
  destruct (trim t) as [|c r] eqn:Et; cbn [truthy negb] in H;
    [run_m_in H; discriminate H|].
  assert (Htrim : trim (c :: r) = c :: r)
    by (rewrite <- Et; apply trim_idem).
  assert (Hshape : extractCommand (c :: r) <> []
                   /\ trim (extractCommand (c :: r)) = extractCommand (c :: r)).
  { apply extractCommand_shape; [discriminate | exact Htrim]. }
  assert (Hgreet : forall e,
             exec wakePattern (c :: r) = Some (0%nat, e) ->
             forallb isSepChar (skipn e (c :: r)) = true ->
             extractCommand (c :: r) = lit "Hey").
  { intros e He Hall.
    rewrite (extractCommand_at_start (c :: r) e Htrim He).
    now rewrite (dropWhile_all isSepChar _ Hall). }
  repeat match type of H with
         | context [if ?c then _ else _] => destruct c; run_m_in H
         end;
    try discriminate H; injection H as <- _;
    (split; [apply Hshape | split; [apply Hshape|]]);
    (split; [|reflexivity]);
    exists t; rewrite Et; (split; [reflexivity|]);
    split; [reflexivity | exact Hgreet].
Qed.

End AcceptedCommand.

Lemma X17_accepted_command_is_a_command_witness :
  voiceGate (sampleEnv (fun _ => 100%Z) noFailure []) (heard "Hey Mentra.")
    initialWorld
  = (Ok (Accepted (lit "Hey")),
     mkWorld initialListen 2 0 [ELog (LogTranscription false (lit "Hey"))])
  /\ lit "Hey" <> [].
Proof.
  split; [reflexivity|].
  apply (X17_accepted_command_is_a_command
           (sampleEnv (fun _ => 100%Z) noFailure []) (heard "Hey Mentra.")
           initialWorld
           (mkWorld initialListen 2 0
              [ELog (LogTranscription false (lit "Hey"))])
           (lit "Hey")).
  reflexivity.
Defined.

Section Echo.

Lemma includes_empty (s : jsstring) : includes s [] = true.
Proof. destruct s; reflexivity. Qed.

Lemma includes_self (s : jsstring) : includes s s = true.
Proof.
  apply includes_contains. exists [], []. now rewrite app_nil_r.
Qed.

(** X18: with a remembered reply, the echo check turns down every utterance
    that differs from the reply in letter case and punctuation only, every
    utterance without any letter or digit, and, when the reply itself has
    no letter or digit, every utterance at all. *)
Theorem X18_echo_of_normal_forms (recent candidate : jsstring) :
  recent <> [] ->
  norm candidate = norm recent \/ norm candidate = [] \/ norm recent = [] ->
  isEcho recent candidate = true.
Proof.
  intros Hne H. unfold isEcho.
  destruct recent as [|c r]; [contradiction|]. cbn [truthy negb].
  destruct H as [H|[H|H]]; rewrite H.
  - now rewrite includes_self.
  - now rewrite includes_empty.
  - now rewrite includes_empty, orb_true_r.
Qed.

End Echo.

Lemma X18_echo_of_normal_forms_witness :
  isEcho (lit "It's 5 o'clock.") (lit "its 5 OCLOCK") = true
  /\ isEcho (lit "It's 5 o'clock.") (lit "?!") = true
  /\ isEcho (lit "...") (lit "what time is it") = true.
Proof.
  split; [|split]; apply X18_echo_of_normal_forms;
    first [discriminate | left; reflexivity | right; left; reflexivity
          | right; right; reflexivity].
Defined.

Section ListenTimers.

Import Session.

Variable env : Env.

(** The clock does not run backwards and starts at or after the epoch. *)
Hypothesis monotone : forall k, (clock env k <= clock env (S k))%Z.
Hypothesis started : (0 <= clock env 0)%Z.

Lemma clock_nonneg (k : nat) : (0 <= clock env k)%Z.
Proof.
  induction k as [|k IH]; [exact started|].
  pose proof (monotone k). lia.
Qed.

Lemma estimate_nonneg (t : jsstring) : (0 <= estimateTtsDurationMs t)%Z.
Proof. unfold estimateTtsDurationMs. lia. Qed.

(** Closes a goal on the timers of an explicit world. *)
Ltac timers tk rt :=
  unfold settled, LISTEN_WINDOW_MS in *;
  cbn [listen ticks listenWindowUntil speakingUntil recentTtsText] in *;
  pose proof (monotone tk); pose proof (monotone (S tk));
  pose proof (clock_nonneg tk);
  pose proof (estimate_nonneg rt); pose proof (estimate_nonneg []);
  lia.

Lemma preserves_ret {A} (a : A) : preserves env (ret a).
Proof. intros w H. exact H. Qed.

Lemma preserves_throw {A} (e : Failure) : preserves env (@throw A e).
Proof. intros w H. exact H. Qed.

Lemma preserves_bind {A B} (c : M A) (f : A -> M B) :
  preserves env c -> (forall a, preserves env (f a)) ->
  preserves env (bind c f).
Proof.
  intros Hc Hf w Hw. unfold bind. specialize (Hc w Hw).
  destruct (c w) as [[a|e] w1]; cbn [snd] in *; [now apply Hf | exact Hc].
Qed.

Lemma preserves_tryCatch {A} (c : M A) (h : Failure -> M A) :
  preserves env c -> (forall e, preserves env (h e)) ->
  preserves env (tryCatch c h).
Proof.
  intros Hc Hh w Hw. unfold tryCatch. specialize (Hc w Hw).
  destruct (c w) as [[a|e] w1]; cbn [snd] in *; [exact Hc | now apply Hh].
Qed.

Lemma preserves_emit (e : Effect) : preserves env (emit e).
Proof. intros w H. exact H. Qed.

Lemma preserves_log (l : LogLine) : preserves env (log l).
Proof. intros w H. exact H. Qed.

Lemma preserves_now : preserves env (now env).
Proof.
  intros [[lw su rt] tk sp tr] H. unfold now. cbn [snd]. timers tk rt.
Qed.

Lemma preserves_speak (a : bool) (t : jsstring) (k : Z) (b : bool) :
  preserves env (speak env a t k b).
Proof.
  intros w H. unfold speak.
  destruct a, (speakRejects env (spoken w)); exact H.
Qed.

Ltac preserve_steps :=
  repeat first
    [ apply preserves_ret | apply preserves_throw | apply preserves_emit
    | apply preserves_log | apply preserves_now | apply preserves_speak
    | apply preserves_bind; [|intros]
    | apply preserves_tryCatch; [|intros]
    | match goal with
      | |- preserves _ (if ?b then _ else _) => destruct b
      end ].

Lemma preserves_call (s : Step) : preserves env (call env s).
Proof. unfold call. preserve_steps. Qed.

Lemma preserves_runDispatcher (events : list DispatchEvent) :
  forall c, preserves env (runDispatcher events c).
Proof.
  induction events as [|[p|] events IH]; intros c; simpl;
    preserve_steps; apply IH.
Qed.

Lemma preserves_processInboundMessage (body : jsstring)
    (media : option MediaRef) :
  preserves env (processInboundMessage env body media).
Proof.
  unfold processInboundMessage.
  repeat first [ apply preserves_call | apply preserves_runDispatcher
               | progress preserve_steps ].
Qed.

(** The filter: a stop command resets the timers, an echo is only found
    once the suppression for speaking is over, and the other paths read the
    clock and leave the timers alone. *)
Lemma preserves_voiceGate (data : TranscriptionData) :
  preserves env (voiceGate env data).
Proof.
  intros [[lw su rt] tk sp tr] H. unfold voiceGate.
  destruct (negb (isFinal data)
            || negb match option_map trim (text data) with
                    | Some t => truthy t
                    | None => false
                    end)%bool; [exact H|].
  destruct (test stopPattern _); run_m; [timers tk rt|].
  destruct (Z.ltb_spec (clock env tk) su); run_m; [timers tk rt|].
  destruct (isEcho rt _); run_m; [timers tk rt|].
  destruct (negb _ && negb _)%bool; run_m; timers tk rt.
Qed.

(** The spoken reply (lines 560-574): the reply is remembered and the
    suppression set from the clock before the device is asked to speak, the
    listen window from the clock after it has spoken. *)
Lemma preserves_spoken_reply (r : jsstring) :
  preserves env
    (bind (log LogSendingReply) (fun _ =>
     bind (setRecentTtsText r) (fun _ =>
     bind (now env) (fun t3 =>
     bind (setSpeakingUntil (t3 + estimateTtsDurationMs r)) (fun _ =>
     bind (speak env true r 2 true) (fun _ =>
     bind (now env) (fun t4 =>
     setListenWindowUntil (t4 + LISTEN_WINDOW_MS)))))))).
Proof.
  intros [[lw su rt] tk sp tr] H. run_m.
  destruct (speakRejects env sp); run_m; timers tk r.
Qed.

Lemma preserves_respond (cmd : jsstring) : preserves env (respond env cmd).
Proof.
  unfold respond, replyToCommand, apologize.
  apply preserves_tryCatch; [|intros; preserve_steps].
  do 3 (apply preserves_bind; [first [apply preserves_call | preserve_steps]
                              | intros ]).
  apply preserves_bind; [apply preserves_processInboundMessage|].
  intros [r|]; [|apply preserves_ret].
  destruct (truthy r); [apply preserves_spoken_reply | apply preserves_ret].
Qed.

Lemma preserves_deliverEvent (e : Event) : preserves env (deliverEvent env e).
Proof.
  destruct e as [data|photo]; cbn [deliverEvent].
  - unfold onTranscription.
    apply preserves_bind; [apply preserves_voiceGate|].
    intros []; first [apply preserves_ret | apply preserves_respond].
  - unfold onPhoto, replyToPhoto, apologizePhoto.
    apply preserves_bind; [apply preserves_log | intros _].
    apply preserves_tryCatch; [|intros; preserve_steps].
    do 3 (apply preserves_bind; [apply preserves_call | intros _]).
    apply preserves_bind; [apply preserves_processInboundMessage|].
    intros [r|]; [|apply preserves_ret].
    destruct (truthy r); [apply preserves_speak | apply preserves_ret].
Qed.

(** X19: over a session of any length, with any replies and any failures,
    the timers of the voice filter stay within reach of the clock, provided
    the clock does not run backwards: when an event has been handled, the
    listen window ends at most 30 s after the next reading of the clock, and
    the suppression for speaking at most the estimated duration of the
    remembered reply after it. *)
Theorem X19_timers_within_reach (events : list Event) :
  let w := runSession env events initialWorld in
  (listenWindowUntil (listen w) <= clock env (ticks w) + 30000)%Z
  /\ (speakingUntil (listen w)
      <= clock env (ticks w)
         + estimateTtsDurationMs (recentTtsText (listen w)))%Z.
Proof.
  cbv zeta.
  assert (Hrun : forall w, settled env w ->
                           settled env (runSession env events w)).
  { induction events as [|e rest IH]; intros w Hw; cbn [runSession];
      [exact Hw|].
    apply IH. now apply preserves_deliverEvent. }
  apply Hrun. unfold initialWorld, initialListen. timers 0%nat (@nil ascii).
Qed.

End ListenTimers.

Lemma X19_timers_within_reach_witness :
  let env := sampleEnv (Session.tickingFrom 1000) noFailure [say "Four"] in
  let w := Session.runSession env
             [Session.OnTranscription (heard "Hey Mentra what's two plus two");
              Session.OnTranscription (heard "and three plus three")]
             initialWorld in
  (listenWindowUntil (listen w) <= clock env (ticks w) + 30000)%Z.
Proof.
  refine (proj1 (X19_timers_within_reach
                   (sampleEnv (Session.tickingFrom 1000) noFailure [say "Four"])
                   _ _
                   [Session.OnTranscription (heard "Hey Mentra what's two plus two");
                    Session.OnTranscription (heard "and three plus three")])).
  - intros k. cbn [clock sampleEnv]. unfold Session.tickingFrom. lia.
  - cbn [clock sampleEnv]. unfold Session.tickingFrom. lia.
Defined.
